(** * Appointment scheduling core of the booking application

    A shallow embedding of [booking/models.py],
    [booking/services/booking_manager.py], the appointment, service and
    schedule view sets of [booking/views.py] with their serializers
    ([booking/serializers.py]), the permission classes
    ([booking/permissions.py]) and the slot listing and the validation
    helpers of [booking/utils.py], with the properties of the scheduling
    engine stated and proved over it.

    Conventions of the embedding:
    - a [datetime] is the number of microseconds since the epoch, a
      [timedelta] a number of microseconds; the project runs with
      [TIME_ZONE = 'UTC'] and [USE_TZ = True], so [.date()], [.time()] and
      [datetime.combine] are division, remainder and multiplication by the
      length of a day;
    - a [DecimalField] with two decimal places is the integer number of
      hundredths;
    - a database table is the list of its rows and a foreign key is the
      primary key of the row it points to;
    - code that touches the database is a function from the store to the
      store and either an exception or a value: a raised exception keeps
      the writes made so far, unless [transaction.atomic] rolls them back;
    - [timezone.now()] is the parameter [now] of an operation;
    - calls to [LoggingService] and the notification helpers write nothing
      to the tables modelled here and are left out. *)

From Stdlib Require Import ZArith List String Bool Lia Sorted Permutation.
Import ListNotations.
Local Open Scope string_scope.
Local Open Scope list_scope.
Local Open Scope Z_scope.

(** ** Dates and times *)

Module Time.

Definition datetime := Z.
Definition timedelta := Z.

Definition microsecond : timedelta := 1.
Definition second : timedelta := 1000000.
Definition minute : timedelta := 60 * second.
Definition hour : timedelta := 60 * minute.
Definition day : timedelta := 24 * hour.

(** [timedelta(minutes=n)] *)
Definition minutes (n : Z) : timedelta := n * minute.

(** [dt.date()], as a day number, and [dt.time()], as the offset in the day *)
Definition date_of (dt : datetime) : Z := dt / day.
Definition time_of (dt : datetime) : Z := dt mod day.

(** [timezone.make_aware(datetime.combine(date, time))] *)
Definition combine (date time : Z) : datetime := date * day + time.

(** a time of day written as hours and minutes *)
Definition hm (h m : Z) : Z := h * hour + m * minute.

End Time.
Import Time.

(** ** The models ([booking/models.py]) *)

(** The statuses of [Appointment.APPOINTMENT_STATUS]. *)

Inductive Status : Type :=
| PENDING
| CONFIRMED
| IN_PROGRESS
| COMPLETED
| CANCELLED.

Definition Status_eqb (a b : Status) : bool :=
  match a, b with
  | PENDING, PENDING | CONFIRMED, CONFIRMED | IN_PROGRESS, IN_PROGRESS
  | COMPLETED, COMPLETED | CANCELLED, CANCELLED => true
  | _, _ => false
  end.

(** [status in [...]] *)
Definition status_in (s : Status) (l : list Status) : bool :=
  existsb (Status_eqb s) l.

(** The list that every availability query passes to
    [appointment__status__in]. *)
Definition ACTIVE : list Status := [PENDING; CONFIRMED; IN_PROGRESS].

Record Service : Type := mkService {
  service_id : Z;
  service_business : Z;
  service_name : string;
  duration : timedelta;
  price : Z
}.

Record Appointment : Type := mkAppointment {
  appointment_id : Z;
  business : Z;
  client_name : string;
  client_phone : string;
  status : Status;
  notes : option string;
  total_price : Z
}.

Record AppointmentService : Type := mkAppointmentService {
  as_id : Z;
  as_appointment : Z;
  as_service : Z;
  as_start_time : datetime;
  as_end_time : datetime;
  as_staff : Z;
  as_price : Z
}.

Record Schedule : Type := mkSchedule {
  schedule_id : Z;
  schedule_business : Z;
  schedule_staff : Z;
  schedule_date : Z;
  schedule_start_time : Z;
  schedule_end_time : Z
}.

(** The database: the four tables and the two counters behind the
    auto-incremented primary keys. *)
Record Store : Type := mkStore {
  services : list Service;
  appointments : list Appointment;
  appointment_services : list AppointmentService;
  schedules : list Schedule;
  next_appointment_id : Z;
  next_appointment_service_id : Z
}.

Definition empty_store : Store := mkStore [] [] [] [] 1 1.

(** ** Exceptions and the database monad *)

(** The exceptions raised by the code modelled here:
    [django.core.exceptions.ValidationError], which the models and
    [BookingManager] raise with a message; the [ValidationError],
    [CancellationError], [PastDateError] and [StaffUnavailableError] of
    [booking/exceptions.py], which the views and serializers raise;
    [AttributeError] for an attribute of [None], [IndexError] for the first
    element of an empty queryset, [DoesNotExist] for a failed [get],
    [Http404] for a failed [get_object] and [ImportError] for the import
    of a name that the module does not define. *)
Inductive exn : Type :=
| ValidationError (message : option string)
| APIValidationError (detail : string)
| CancellationError (detail : string)
| PastDateError
| StaffUnavailableError
| AttributeError
| IndexError
| DoesNotExist
| Http404
| ImportError.

Definition M (A : Type) : Type := Store -> Store * (exn + A).

Definition ret {A} (a : A) : M A := fun db => (db, inr a).

Definition bind {A B} (m : M A) (k : A -> M B) : M B :=
  fun db =>
    match m db with
    | (db', inr a) => k a db'
    | (db', inl e) => (db', inl e)
    end.

Definition raise {A} (e : exn) : M A := fun db => (db, inl e).

Definition get : M Store := fun db => (db, inr db).

Definition put (db' : Store) : M unit := fun _ => (db', inr tt).

(** [@transaction.atomic]: an exception leaves the database as it was. *)
Definition atomic {A} (m : M A) : M A :=
  fun db =>
    match m db with
    | (db', inr a) => (db', inr a)
    | (_, inl e) => (db, inl e)
    end.

Notation "x <- m ;; k" := (bind m (fun x => k))
  (at level 61, m at next level, right associativity).
Notation "m ;;; k" := (bind m (fun _ => k))
  (at level 61, right associativity).

(** ** Querysets *)

(** The first element for an ordering by [key]; among equal keys the
    earliest row of the table. *)
Fixpoint min_by {A : Type} (key : A -> Z) (l : list A) : option A :=
  match l with
  | [] => None
  | x :: tl =>
      match min_by key tl with
      | Some y => if key y <? key x then Some y else Some x
      | None => Some x
      end
  end.

(** [order_by(key)]: rows with equal keys stay in the order of the
    table. *)
Fixpoint insert_by {A : Type} (key : A -> Z) (x : A) (l : list A) : list A :=
  match l with
  | [] => [x]
  | y :: tl => if key x <=? key y then x :: y :: tl else y :: insert_by key x tl
  end.

Definition order_by {A : Type} (key : A -> Z) (l : list A) : list A :=
  fold_right (insert_by key) [] l.

(** [order_by] on several fields, [leb] comparing them in turn; rows that
    compare equal stay in the order of the table. *)
Fixpoint insert_leb {A : Type} (leb : A -> A -> bool) (x : A) (l : list A) : list A :=
  match l with
  | [] => [x]
  | y :: tl => if leb x y then x :: y :: tl else y :: insert_leb leb x tl
  end.

Definition sort_leb {A : Type} (leb : A -> A -> bool) (l : list A) : list A :=
  fold_right (insert_leb leb) [] l.

(** [qs.exists()] *)
Definition exists_ {A : Type} (l : list A) : bool :=
  match l with
  | [] => false
  | _ :: _ => true
  end.

Definition sum (l : list Z) : Z := fold_right Z.add 0 l.

Definition get_appointment (db : Store) (pk : Z) : option Appointment :=
  find (fun a => appointment_id a =? pk) (appointments db).

Definition get_service (db : Store) (pk : Z) : option Service :=
  find (fun s => service_id s =? pk) (services db).

(** The join behind [appointment__status__in=statuses]. *)
Definition appointment__status__in (db : Store) (statuses : list Status)
    (r : AppointmentService) : bool :=
  match get_appointment db (as_appointment r) with
  | Some a => status_in (status a) statuses
  | None => false
  end.

(** [appointment.services.all()], the reverse side of the foreign key; an
    instance that has not been saved yet ([pk = None]) has no related row. *)
Definition services_all (db : Store) (pk : option Z) : list AppointmentService :=
  match pk with
  | Some id => filter (fun r => as_appointment r =? id) (appointment_services db)
  | None => []
  end.

(** [appointment.services.first()] under [Meta.ordering = ['start_time']] *)
Definition services_first (db : Store) (pk : option Z) : option AppointmentService :=
  min_by as_start_time (services_all db pk).

(** [qs.first()] on schedules: no ordering is declared, so by primary key *)
Definition schedules_first (l : list Schedule) : option Schedule :=
  min_by schedule_id l.

(** ** [Appointment] *)

(** [Appointment.calculate_total_price] *)
Definition calculate_total_price (db : Store) (pk : option Z) : Z :=
  sum (map as_price (services_all db pk)).

Definition set_total_price (a : Appointment) (p : Z) : Appointment :=
  mkAppointment (appointment_id a) (business a) (client_name a) (client_phone a)
    (status a) (notes a) p.

Definition set_appointment_id (a : Appointment) (pk : Z) : Appointment :=
  mkAppointment pk (business a) (client_name a) (client_phone a)
    (status a) (notes a) (total_price a).

Definition set_status (a : Appointment) (s : Status) : Appointment :=
  mkAppointment (appointment_id a) (business a) (client_name a) (client_phone a)
    s (notes a) (total_price a).

Definition with_appointments (db : Store) (l : list Appointment) (next : Z) : Store :=
  mkStore (services db) l (appointment_services db) (schedules db)
    next (next_appointment_service_id db).

Definition with_appointment_services (db : Store) (l : list AppointmentService)
    (next : Z) : Store :=
  mkStore (services db) (appointments db) l (schedules db)
    (next_appointment_id db) next.

(** [Model.save] writes the row whose primary key is the instance's, and
    inserts the instance when no row has it. *)
Definition upsert {A : Type} (key : A -> Z) (x : A) (l : list A) : list A :=
  if existsb (fun y => key y =? key x) l
  then map (fun y => if key y =? key x then x else y) l
  else l ++ [x].

(** [Appointment.save]: the total price is recomputed from the related
    rows, then the instance is written.  [pk] is the primary key of the
    instance, [None] before the first save. *)
Definition Appointment_save (pk : option Z) (a : Appointment) : M Appointment :=
  fun db =>
    let a := set_total_price a (calculate_total_price db pk) in
    match pk with
    | None =>
        let a := set_appointment_id a (next_appointment_id db) in
        (with_appointments db (appointments db ++ [a]) (next_appointment_id db + 1),
         inr a)
    | Some id =>
        let a := set_appointment_id a id in
        (with_appointments db (upsert appointment_id a (appointments db))
           (next_appointment_id db),
         inr a)
    end.

(** [Appointment.objects.create(...)]; the key and the total price of the
    argument are placeholders, both are set by the save. *)
Definition Appointment_objects_create (business : Z) (client_name client_phone : string)
    (status : Status) (notes : option string) : M Appointment :=
  Appointment_save None
    (mkAppointment 0 business client_name client_phone status notes 0).

(** ** [AppointmentService] *)

Definition set_as_id (r : AppointmentService) (pk : Z) : AppointmentService :=
  mkAppointmentService pk (as_appointment r) (as_service r) (as_start_time r)
    (as_end_time r) (as_staff r) (as_price r).

Definition set_times (r : AppointmentService) (s e : datetime) : AppointmentService :=
  mkAppointmentService (as_id r) (as_appointment r) (as_service r) s e
    (as_staff r) (as_price r).

(** [.exclude(pk=pk)]; excluding [pk=None] excludes nothing. *)
Definition exclude_pk (pk : option Z) (l : list AppointmentService) :
    list AppointmentService :=
  match pk with
  | Some id => filter (fun r => negb (as_id r =? id)) l
  | None => l
  end.

(** [AppointmentService.clean] *)
Definition AppointmentService_clean (now : datetime) (pk : option Z)
    (self : AppointmentService) : M unit :=
  fun db =>
    if as_start_time self >=? as_end_time self then
      (db, inl (ValidationError (Some "End time must be after start time")))
    else if as_start_time self <? now then
      (db, inl (ValidationError (Some "Cannot book appointments in the past")))
    else
      let staff_appointments :=
        exclude_pk pk
          (filter (fun r => (as_staff r =? as_staff self)
                            && (as_start_time r <? as_end_time self)
                            && (as_end_time r >? as_start_time self))
                  (appointment_services db)) in
      if exists_ staff_appointments then
        (db, inl (ValidationError
           (Some "The selected staff member is not available during this time slot")))
      else (db, inr tt).

(** [AppointmentService.save] *)
Definition AppointmentService_save (now : datetime) (pk : option Z)
    (self : AppointmentService) : M AppointmentService :=
  AppointmentService_clean now pk self ;;;
  fun db =>
    match pk with
    | None =>
        let r := set_as_id self (next_appointment_service_id db) in
        (with_appointment_services db (appointment_services db ++ [r])
           (next_appointment_service_id db + 1),
         inr r)
    | Some id =>
        let r := set_as_id self id in
        (with_appointment_services db (upsert as_id r (appointment_services db))
           (next_appointment_service_id db),
         inr r)
    end.

(** [AppointmentService.objects.create(...)] *)
Definition AppointmentService_objects_create (now : datetime) (appointment service : Z)
    (staff : Z) (start_time end_time : datetime) (price : Z) : M AppointmentService :=
  AppointmentService_save now None
    (mkAppointmentService 0 appointment service start_time end_time staff price).

(** [appointment.services.all().delete()]: the database without the
    [AppointmentService] rows of one appointment. *)
Definition without_appointment (db : Store) (id : Z) : Store :=
  with_appointment_services db
    (filter (fun r => negb (as_appointment r =? id)) (appointment_services db))
    (next_appointment_service_id db).

(** ** [BookingManager] ([booking/services/booking_manager.py]) *)

(** A slot of the availability listing.  The dictionaries of the source
    also carry a display string, [formatted_time], computed from these two
    fields. *)
Record Slot : Type := mkSlot {
  slot_start_time : datetime;
  slot_end_time : datetime
}.

(** [if exclude_appointment_id:] is the truth value of an optional
    integer: [None] and [0] are false. *)
Definition truthy (x : option Z) : bool :=
  match x with
  | Some n => negb (n =? 0)
  | None => false
  end.

(** The 30-minute step of every slot loop. *)
Definition SLOT_STEP : timedelta := minutes 30.

Module BookingManager.

(** The schedule query of [validate_appointment_time]. *)
Definition covering_schedules (db : Store) (staff : Z)
    (start_time end_time : datetime) : list Schedule :=
  filter (fun s => (schedule_staff s =? staff)
                   && (schedule_date s =? date_of start_time)
                   && (schedule_start_time s <=? time_of start_time)
                   && (schedule_end_time s >=? time_of end_time))
         (schedules db).

(** The overlap query of [validate_appointment_time], before the
    exclusion. *)
Definition overlapping_active (db : Store) (staff : Z)
    (start_time end_time : datetime) : list AppointmentService :=
  filter (fun r => (as_staff r =? staff)
                   && (as_start_time r <? end_time)
                   && (as_end_time r >? start_time)
                   && appointment__status__in db ACTIVE r)
         (appointment_services db).

(** [.exclude(appointment_id=exclude_appointment_id)] *)
Definition exclude_appointment (exclude_appointment_id : option Z)
    (l : list AppointmentService) : list AppointmentService :=
  if truthy exclude_appointment_id then
    match exclude_appointment_id with
    | Some id => filter (fun r => negb (as_appointment r =? id)) l
    | None => l
    end
  else l.

Definition validate_appointment_time (now : datetime) (db : Store) (staff : Z)
    (start_time end_time : datetime) (exclude_appointment_id : option Z) :
    bool * option string :=
  if start_time <? now then
    (false, Some "Cannot book appointments in the past")
  else
    match schedules_first (covering_schedules db staff start_time end_time) with
    | None => (false, Some "Selected time is outside of staff working hours")
    | Some _ =>
        let overlapping := overlapping_active db staff start_time end_time in
        let overlapping := exclude_appointment exclude_appointment_id overlapping in
        if exists_ overlapping then
          (false, Some "Time slot conflicts with existing appointment")
        else (true, None)
    end.

(** The body of the [while] loop of [get_available_slots], run at most
    [fuel] times. *)
Fixpoint slots_loop (fuel : nat) (existing_appointments : list AppointmentService)
    (duration end_time current_time : datetime) : list Slot :=
  match fuel with
  | O => []
  | S fuel' =>
      if current_time + duration <=? end_time then
        let slot_end := current_time + duration in
        let is_available :=
          negb (existsb (fun appt => (as_start_time appt <? slot_end)
                                     && (as_end_time appt >? current_time))
                        existing_appointments) in
        (if is_available then [mkSlot current_time slot_end] else [])
        ++ slots_loop fuel' existing_appointments duration end_time
             (current_time + SLOT_STEP)
      else []
  end.

(** The loop runs while [current_time + duration <= end_time] and the
    cursor advances by [SLOT_STEP] each time: this many iterations reach
    the exit. *)
Definition loop_fuel (duration end_time current_time : datetime) : nat :=
  Z.to_nat ((end_time - duration - current_time) / SLOT_STEP + 1).

Definition slots_from (existing_appointments : list AppointmentService)
    (duration end_time current_time : datetime) : list Slot :=
  slots_loop (loop_fuel duration end_time current_time) existing_appointments
    duration end_time current_time.

Definition get_available_slots (db : Store) (staff : Z) (date : Z)
    (service : Service) : list Slot :=
  match schedules_first
          (filter (fun s => (schedule_staff s =? staff) && (schedule_date s =? date))
                  (schedules db)) with
  | None => []
  | Some schedule =>
      let existing_appointments :=
        filter (fun r => (as_staff r =? staff)
                         && (date_of (as_start_time r) =? date)
                         && appointment__status__in db ACTIVE r)
               (appointment_services db) in
      let current_time := combine date (schedule_start_time schedule) in
      let end_time := combine date (schedule_end_time schedule) in
      slots_from existing_appointments (duration service) end_time current_time
  end.

Definition create_appointment (now : datetime) (business staff : Z)
    (service : Service) (start_time : datetime) (client_name client_phone : string)
    (notes : option string) : M Appointment :=
  atomic
    (let end_time := start_time + duration service in
     db <- get ;;
     let '(is_valid, error_message) :=
       validate_appointment_time now db staff start_time end_time None in
     if negb is_valid then raise (ValidationError error_message)
     else
       appointment <- Appointment_objects_create business client_name client_phone
                        PENDING notes ;;
       AppointmentService_objects_create now (appointment_id appointment)
         (service_id service) staff start_time end_time (price service) ;;;
       ret appointment).

Definition change_appointment_status (appointment : Appointment)
    (new_status : Status) (staff : Z) : M Appointment :=
  if Status_eqb (status appointment) COMPLETED then
    raise (ValidationError (Some "Cannot modify completed appointments"))
  else
    Appointment_save (Some (appointment_id appointment))
      (set_status appointment new_status).

Definition reschedule_appointment (now : datetime) (appointment : Appointment)
    (new_start_time : datetime) (staff : Z) : M Appointment :=
  if status_in (status appointment) [COMPLETED; CANCELLED] then
    raise (ValidationError
             (Some "Cannot reschedule completed or cancelled appointments"))
  else
    db <- get ;;
    match services_first db (Some (appointment_id appointment)) with
    | None => raise AttributeError
    | Some first =>
        match get_service db (as_service first) with
        | None => raise DoesNotExist
        | Some service =>
            let new_end_time := new_start_time + duration service in
            let '(is_valid, error_message) :=
              validate_appointment_time now db staff new_start_time new_end_time
                (Some (appointment_id appointment)) in
            if negb is_valid then raise (ValidationError error_message)
            else
              db <- get ;;
              match services_first db (Some (appointment_id appointment)) with
              | None => raise AttributeError
              | Some appointment_service =>
                  AppointmentService_save now (Some (as_id appointment_service))
                    (set_times appointment_service new_start_time new_end_time) ;;;
                  ret appointment
              end
        end
    end.

(** The dictionary that [get_staff_schedule] returns. *)
Record StaffSchedule : Type := mkStaffSchedule {
  staff_schedules : list Schedule;
  staff_appointments : list AppointmentService
}.

(** [order_by('date', 'start_time')] *)
Definition date_start_time_leb (a b : Schedule) : bool :=
  (schedule_date a <? schedule_date b)
  || ((schedule_date a =? schedule_date b)
      && (schedule_start_time a <=? schedule_start_time b)).

Definition get_staff_schedule (db : Store) (staff : Z) (start_date end_date : Z) :
    StaffSchedule :=
  let schedules' :=
    sort_leb date_start_time_leb
      (filter (fun s => (schedule_staff s =? staff)
                        && ((start_date <=? schedule_date s)
                            && (schedule_date s <=? end_date)))
              (schedules db)) in
  let appointments' :=
    order_by as_start_time
      (filter (fun r => (as_staff r =? staff)
                        && ((start_date <=? date_of (as_start_time r))
                            && (date_of (as_start_time r) <=? end_date)))
              (appointment_services db)) in
  mkStaffSchedule schedules' appointments'.

End BookingManager.

(** ** The appointment actions of [AppointmentViewSet] ([booking/views.py]) *)

Module AppointmentViewSet.

(** [get_object] over [get_queryset]: the appointment with this key
    among those of the user's business. *)
Definition get_object (user_business pk : Z) : M Appointment :=
  fun db =>
    match find (fun a => (appointment_id a =? pk) && (business a =? user_business))
               (appointments db) with
    | Some a => (db, inr a)
    | None => (db, inl Http404)
    end.

(** [_send_appointment_notifications].  Its first statement, before the
    [try], is [from .utils import send_appointment_notification], and
    [booking/utils.py] defines no such name: the call raises
    [ImportError], whatever the appointment and the action. *)
Definition _send_appointment_notifications (appointment : Appointment)
    (action : string) : M unit :=
  raise ImportError.

(** The action [cancel]: the [except] clause logs the exception and raises
    it again. *)
Definition cancel (user_business pk : Z) : M Appointment :=
  appointment <- get_object user_business pk ;;
  if status_in (status appointment) [COMPLETED; CANCELLED] then
    raise (CancellationError
             "Cannot cancel completed or already cancelled appointments.")
  else
    appointment <- Appointment_save (Some (appointment_id appointment))
                     (set_status appointment CANCELLED) ;;
    _send_appointment_notifications appointment "cancelled" ;;;
    ret appointment.

Definition _is_staff_available (db : Store) (staff : Z) (start_time : datetime)
    (duration : timedelta) : bool :=
  let end_time := start_time + duration in
  let schedule :=
    exists_ (BookingManager.covering_schedules db staff start_time end_time) in
  if negb schedule then false
  else
    let conflicts :=
      exists_ (BookingManager.overlapping_active db staff start_time end_time) in
    negb conflicts.

(** [AppointmentRescheduleSerializer.validate] on the request data *)
Definition AppointmentRescheduleSerializer_validate (now : datetime)
    (data_appointment_id : Z) (data_new_start_time : datetime) : M unit :=
  fun db =>
    match get_appointment db data_appointment_id with
    | None => (db, inl (APIValidationError "Appointment not found."))
    | Some appointment =>
        if status_in (status appointment) [COMPLETED; CANCELLED] then
          (db, inl (APIValidationError
                      "Cannot reschedule completed or cancelled appointments."))
        else if data_new_start_time <? now then
          (db, inl (APIValidationError "Cannot reschedule to a past time."))
        else (db, inr tt)
    end.

(** The first loop of [reschedule]: every service must find its staff
    member available at the new start. *)
Fixpoint check_staff (db : Store) (new_start_time : datetime)
    (services : list AppointmentService) : M unit :=
  match services with
  | [] => ret tt
  | service :: rest =>
      match get_service db (as_service service) with
      | None => raise DoesNotExist
      | Some s =>
          if negb (_is_staff_available db (as_staff service) new_start_time
                     (duration s))
          then raise StaffUnavailableError
          else check_staff db new_start_time rest
      end
  end.

(** The second loop of [reschedule]: every service is shifted and saved
    in turn. *)
Fixpoint shift_services (now : datetime) (time_difference : timedelta)
    (services : list AppointmentService) : M unit :=
  match services with
  | [] => ret tt
  | service :: rest =>
      AppointmentService_save now (Some (as_id service))
        (set_times service (as_start_time service + time_difference)
           (as_end_time service + time_difference)) ;;;
      shift_services now time_difference rest
  end.

(** The action [reschedule]; the request data are the key of an
    appointment and the new start. *)
Definition reschedule (now : datetime) (user_business pk : Z)
    (data_appointment_id : Z) (data_new_start_time : datetime) : M Appointment :=
  appointment <- get_object user_business pk ;;
  AppointmentRescheduleSerializer_validate now data_appointment_id
    data_new_start_time ;;;
  let new_start_time := data_new_start_time in
  if new_start_time <? now then raise PastDateError
  else
    db <- get ;;
    let services :=
      order_by as_start_time (services_all db (Some (appointment_id appointment))) in
    check_staff db new_start_time services ;;;
    match services with
    | [] => raise IndexError
    | first :: _ =>
        let time_difference := new_start_time - as_start_time first in
        shift_services now time_difference services ;;;
        appointment <- Appointment_save (Some (appointment_id appointment))
                         appointment ;;
        _send_appointment_notifications appointment "rescheduled" ;;;
        ret appointment
    end.

Fixpoint calculate_loop (fuel : nat) (db : Store) (staff : Z)
    (duration end_time current_time : datetime) : list Slot :=
  match fuel with
  | O => []
  | S fuel' =>
      if current_time + duration <=? end_time then
        (if _is_staff_available db staff current_time duration
         then [mkSlot current_time (current_time + duration)] else [])
        ++ calculate_loop fuel' db staff duration end_time (current_time + SLOT_STEP)
      else []
  end.

Definition _calculate_available_slots (db : Store) (staff : Z) (service : Service)
    (schedule : Schedule) : list Slot :=
  let current_time := combine (schedule_date schedule) (schedule_start_time schedule) in
  let end_time := combine (schedule_date schedule) (schedule_end_time schedule) in
  calculate_loop (BookingManager.loop_fuel (duration service) end_time current_time)
    db staff (duration service) end_time current_time.

(** The action [available_slots], after the request parameters have
    been read and the staff member found: the response is the list under
    the key ['slots']. *)
Definition available_slots (staff : Z) (service_pk : Z) (date : Z) : M (list Slot) :=
  fun db =>
    match get_service db service_pk with
    | None => (db, inl DoesNotExist)
    | Some service =>
        match schedules_first
                (filter (fun s => (schedule_staff s =? staff)
                                  && (schedule_date s =? date))
                        (schedules db)) with
        | None => (db, inr [])
        | Some schedule =>
            (db, inr (_calculate_available_slots db staff service schedule))
        end
    end.

(** The action [complete].  The update of the daily analytics that
    follows the save writes to a table that is not modelled here, inside a
    [try] that keeps its errors to itself. *)
Definition complete (user_business pk : Z) : M Appointment :=
  appointment <- get_object user_business pk ;;
  if negb (Status_eqb (status appointment) IN_PROGRESS) then
    raise (APIValidationError "Only in-progress appointments can be completed.")
  else
    Appointment_save (Some (appointment_id appointment))
      (set_status appointment COMPLETED).

End AppointmentViewSet.

(** ** The availability of a service ([ServiceViewSet], [booking/views.py]) *)

Module ServiceViewSet.

(** The [while] loop of [_get_available_slots], run at most [fuel]
    times. *)
Fixpoint slots_loop (fuel : nat) (existing_appointments : list AppointmentService)
    (duration end_time current_time : datetime) : list Slot :=
  match fuel with
  | O => []
  | S fuel' =>
      if current_time + duration <=? end_time then
        let slot_end := current_time + duration in
        let is_available :=
          negb (exists_ (filter (fun r => (as_start_time r <? slot_end)
                                          && (as_end_time r >? current_time))
                                existing_appointments)) in
        (if is_available then [mkSlot current_time slot_end] else [])
        ++ slots_loop fuel' existing_appointments duration end_time
             (current_time + SLOT_STEP)
      else []
  end.

(** [_get_available_slots]; the slots of the source hold the two
    instants in ISO format. *)
Definition _get_available_slots (db : Store) (staff : Z) (schedule : Schedule)
    (service : Service) (date : Z) : list Slot :=
  let current_time := combine date (schedule_start_time schedule) in
  let end_time := combine date (schedule_end_time schedule) in
  let existing_appointments :=
    order_by as_start_time
      (filter (fun r => (as_staff r =? staff)
                        && (date_of (as_start_time r) =? date)
                        && appointment__status__in db ACTIVE r)
              (appointment_services db)) in
  slots_loop (BookingManager.loop_fuel (duration service) end_time current_time)
    existing_appointments (duration service) end_time current_time.

(** An entry of the list that [availability] gives for a date. *)
Record StaffAvailability : Type := mkStaffAvailability {
  staff_id : Z;
  staff_name : string;
  available_slots : list Slot
}.

(** The action [availability], once the service has been found.
    [staff_members] is the result of the query on the users, the active
    staff of the business of the service, each with the key and the full
    name; the dictionary of the response is the list of its dates, each
    with its entries. *)
Definition availability (now : datetime) (staff_members : list (Z * string))
    (service : Service) (db : Store) : list (Z * list StaffAvailability) :=
  let start_date := date_of now in
  map (fun n =>
         let date := start_date + Z.of_nat n in
         (date,
          flat_map
            (fun staff =>
               match schedules_first
                       (filter (fun s => (schedule_staff s =? fst staff)
                                         && (schedule_date s =? date))
                               (schedules db)) with
               | Some schedule =>
                   let slots :=
                     _get_available_slots db (fst staff) schedule service date in
                   if exists_ slots
                   then [mkStaffAvailability (fst staff) (snd staff) slots]
                   else []
               | None => []
               end)
            staff_members))
      (seq 0 8).

End ServiceViewSet.

(** ** [AppointmentSerializer] ([booking/serializers.py]) *)

(** The validated data of one service of an appointment: the nested
    serializer has added the end and the price to what the client sent. *)
Record ServiceData : Type := mkServiceData {
  sd_service : Service;
  sd_staff : Z;
  sd_start_time : datetime;
  sd_end_time : datetime;
  sd_price : Z
}.

(** The validated data of an update: the attributes that the client
    sent, and the services when the client sent them. *)
Record UpdateData : Type := mkUpdateData {
  ud_business : option Z;
  ud_client_name : option string;
  ud_client_phone : option string;
  ud_notes : option (option string);
  ud_services : option (list ServiceData)
}.

Module AppointmentSerializer.

(** The loop of [validate_services] over the sorted services: some
    service ends after the next one starts. *)
Fixpoint adjacent_overlap (sorted_services : list ServiceData) : bool :=
  match sorted_services with
  | a :: ((b :: _) as rest) =>
      (sd_end_time a >? sd_start_time b) || adjacent_overlap rest
  | _ => false
  end.

Definition validate_services (services : list ServiceData) :
    exn + list ServiceData :=
  match services with
  | [] => inl (APIValidationError "At least one service is required.")
  | _ :: _ =>
      if adjacent_overlap (order_by sd_start_time services)
      then inl (APIValidationError "Services cannot overlap.")
      else inr services
  end.

(** [for service_data in services_data:
       AppointmentService.objects.create(appointment=..., **service_data)] *)
Fixpoint create_services (now : datetime) (appointment : Z)
    (services_data : list ServiceData) : M unit :=
  match services_data with
  | [] => ret tt
  | service_data :: rest =>
      AppointmentService_objects_create now appointment
        (service_id (sd_service service_data)) (sd_staff service_data)
        (sd_start_time service_data) (sd_end_time service_data)
        (sd_price service_data) ;;;
      create_services now appointment rest
  end.

(** [create]; the status is read-only in the serializer, so the
    appointment gets the default of the model. *)
Definition create (now : datetime) (business : Z) (client_name client_phone : string)
    (notes : option string) (services_data : list ServiceData) : M Appointment :=
  appointment <- Appointment_objects_create business client_name client_phone
                   PENDING notes ;;
  create_services now (appointment_id appointment) services_data ;;;
  db <- get ;;
  let appointment :=
    set_total_price appointment
      (calculate_total_price db (Some (appointment_id appointment))) in
  Appointment_save (Some (appointment_id appointment)) appointment.

(** [for attr, value in validated_data.items(): setattr(instance, attr, value)] *)
Definition set_attributes (instance : Appointment) (data : UpdateData) : Appointment :=
  mkAppointment (appointment_id instance)
    (match ud_business data with Some b => b | None => business instance end)
    (match ud_client_name data with Some n => n | None => client_name instance end)
    (match ud_client_phone data with Some p => p | None => client_phone instance end)
    (status instance)
    (match ud_notes data with Some n => n | None => notes instance end)
    (total_price instance).

Definition update (now : datetime) (instance : Appointment) (data : UpdateData) :
    M Appointment :=
  let instance := set_attributes instance data in
  instance <-
    match ud_services data with
    | Some services_data =>
        (fun db => (without_appointment db (appointment_id instance), inr tt)) ;;;
        create_services now (appointment_id instance) services_data ;;;
        db <- get ;;
        ret (set_total_price instance
               (calculate_total_price db (Some (appointment_id instance))))
    | None => ret instance
    end ;;
  Appointment_save (Some (appointment_id instance)) instance.

End AppointmentSerializer.

(** ** [Schedule] ([booking/models.py]), its serializer and its view *)

(** The database with the sequence behind the primary key of the
    schedules.  The key is an [AUTOINCREMENT] column of SQLite: a new row
    gets a key above every key the table has had, also those written with
    an explicit key. *)
Record ScheduleDb : Type := mkScheduleDb {
  sdb_store : Store;
  next_schedule_id : Z
}.

(** What a schedule operation raises: an exception of the code, or the
    [ValidationError] of the framework with which the validator that a
    [ModelSerializer] derives from [unique_together] refuses the data. *)
Inductive schedule_exn : Type :=
| Raised (e : exn)
| NotUnique.

Definition MS (A : Type) : Type := ScheduleDb -> ScheduleDb * (schedule_exn + A).

Definition bindS {A B} (m : MS A) (k : A -> MS B) : MS B :=
  fun sdb =>
    match m sdb with
    | (sdb', inr a) => k a sdb'
    | (sdb', inl e) => (sdb', inl e)
    end.

(** A computation on the tables, run on those of the schedule database. *)
Definition lift {A} (m : M A) : MS A :=
  fun sdb =>
    match m (sdb_store sdb) with
    | (db', inr a) => (mkScheduleDb db' (next_schedule_id sdb), inr a)
    | (db', inl e) => (mkScheduleDb db' (next_schedule_id sdb), inl (Raised e))
    end.

Definition with_schedules (db : Store) (l : list Schedule) : Store :=
  mkStore (services db) (appointments db) (appointment_services db) l
    (next_appointment_id db) (next_appointment_service_id db).

Definition set_schedule_id (s : Schedule) (pk : Z) : Schedule :=
  mkSchedule pk (schedule_business s) (schedule_staff s) (schedule_date s)
    (schedule_start_time s) (schedule_end_time s).

(** The query of [Schedule.clean] and of [ScheduleSerializer.validate]:
    the schedules of the staff member on the date that overlap the times,
    without the row of key [pk]. *)
Definition overlapping_schedules (db : Store) (pk : option Z)
    (staff date start_time end_time : Z) : list Schedule :=
  let qs :=
    filter (fun s => (schedule_staff s =? staff)
                     && (schedule_date s =? date)
                     && (schedule_start_time s <? end_time)
                     && (schedule_end_time s >? start_time))
           (schedules db) in
  match pk with
  | Some id => filter (fun s => negb (schedule_id s =? id)) qs
  | None => qs
  end.

(** [Schedule.clean] *)
Definition Schedule_clean (pk : option Z) (self : Schedule) : M unit :=
  fun db =>
    if schedule_start_time self >=? schedule_end_time self then
      (db, inl (ValidationError (Some "End time must be after start time")))
    else if exists_ (overlapping_schedules db pk (schedule_staff self)
                       (schedule_date self) (schedule_start_time self)
                       (schedule_end_time self)) then
      (db, inl (ValidationError
         (Some "This schedule overlaps with another schedule for this staff member")))
    else (db, inr tt).

(** [Schedule.save].  The table is declared
    [unique_together = ('staff', 'date', 'start_time', 'end_time')]; a
    schedule that [clean] has accepted overlaps no other row, so it repeats
    none, and the write can not fail on this constraint. *)
Definition Schedule_save (pk : option Z) (self : Schedule) : MS Schedule :=
  bindS (lift (Schedule_clean pk self)) (fun _ sdb =>
    let db := sdb_store sdb in
    match pk with
    | None =>
        let s := set_schedule_id self (next_schedule_id sdb) in
        (mkScheduleDb (with_schedules db (schedules db ++ [s]))
           (next_schedule_id sdb + 1),
         inr s)
    | Some id =>
        let s := set_schedule_id self id in
        (mkScheduleDb (with_schedules db (upsert schedule_id s (schedules db)))
           (Z.max (next_schedule_id sdb) (id + 1)),
         inr s)
    end).


(** The validated data of a [ScheduleSerializer]; the business is given
    by the view when it saves. *)
Record ScheduleData : Type := mkScheduleData {
  data_staff : Z;
  data_date : Z;
  data_start_time : Z;
  data_end_time : Z
}.

Module ScheduleSerializer.

(** [validate]; [instance] is the key of the schedule being updated,
    [None] for a creation. *)
Definition validate (now : datetime) (instance : option Z) (data : ScheduleData) :
    M ScheduleData :=
  fun db =>
    if data_start_time data >=? data_end_time data then
      (db, inl (APIValidationError "End time must be after start time."))
    else if data_date data <? date_of now then
      (db, inl (APIValidationError "Cannot create schedule for past dates."))
    else if exists_ (overlapping_schedules db instance (data_staff data)
                       (data_date data) (data_start_time data)
                       (data_end_time data)) then
      (db, inl (APIValidationError
         "This schedule overlaps with another schedule for this staff member."))
    else (db, inr data).

(** The validator that the serializer derives from the [unique_together]
    of the model, run before [validate]: a schedule with the staff member,
    the date and the times of the data exists, the instance apart. *)
Definition unique_together (instance : option Z) (data : ScheduleData) (db : Store) :
    bool :=
  let qs :=
    filter (fun s => (schedule_staff s =? data_staff data)
                     && (schedule_date s =? data_date data)
                     && (schedule_start_time s =? data_start_time data)
                     && (schedule_end_time s =? data_end_time data))
           (schedules db) in
  exists_ (match instance with
           | Some id => filter (fun s => negb (schedule_id s =? id)) qs
           | None => qs
           end).

(** [serializer.is_valid(raise_exception=True)] on data whose fields have
    been read. *)
Definition is_valid (now : datetime) (instance : option Z) (data : ScheduleData) :
    MS ScheduleData :=
  fun sdb =>
    if unique_together instance data (sdb_store sdb) then (sdb, inl NotUnique)
    else lift (validate now instance data) sdb.

(** [serializer.save(business=business)]: [create] for a serializer
    without instance, which is [Schedule.objects.create], and [update] for
    one with an instance, which sets the attributes and saves it. *)
Definition save (business : Z) (instance : option Z) (data : ScheduleData) :
    MS Schedule :=
  Schedule_save instance
    (mkSchedule (match instance with Some id => id | None => 0 end) business
       (data_staff data) (data_date data) (data_start_time data)
       (data_end_time data)).

End ScheduleSerializer.

Module ScheduleViewSet.

(** [create] with [perform_create]: the data are validated and saved
    under the business of the user. *)
Definition create (now : datetime) (user_business : Z) (data : ScheduleData) :
    MS Schedule :=
  bindS (ScheduleSerializer.is_valid now None data) (fun data =>
    ScheduleSerializer.save user_business None data).

(** The loop of [bulk_create]. *)
Fixpoint bulk_loop (now : datetime) (user_business : Z)
    (schedules_data : list ScheduleData) : MS (list Schedule) :=
  match schedules_data with
  | [] => fun sdb => (sdb, inr [])
  | schedule_data :: rest =>
      bindS (create now user_business schedule_data) (fun schedule =>
        bindS (bulk_loop now user_business rest) (fun created_schedules sdb =>
          (sdb, inr (schedule :: created_schedules))))
  end.

(** The action [bulk_create]; the response lists the created schedules. *)
Definition bulk_create (now : datetime) (user_business : Z)
    (schedules_data : list ScheduleData) : MS (list Schedule) :=
  match schedules_data with
  | [] =>
      fun sdb => (sdb, inl (Raised (APIValidationError "No schedule data provided.")))
  | _ :: _ => bulk_loop now user_business schedules_data
  end.

End ScheduleViewSet.

(** ** The permission classes ([booking/permissions.py]) *)

Module Permissions.

(** [CustomUser.USER_TYPE_CHOICES] *)
Inductive UserType : Type :=
| SYSTEM_ADMIN
| BUSINESS_ADMIN
| STAFF.

Definition UserType_eqb (a b : UserType) : bool :=
  match a, b with
  | SYSTEM_ADMIN, SYSTEM_ADMIN | BUSINESS_ADMIN, BUSINESS_ADMIN | STAFF, STAFF => true
  | _, _ => false
  end.

(** [request.user]: the anonymous user of Django, which has neither a
    [user_type] nor a [business], or a [CustomUser] with its type and its
    business, [None] when the foreign key is null. *)
Inductive RequestUser : Type :=
| AnonymousUser
| CustomUser (user_type : UserType) (business : option Z).

Definition is_authenticated (user : RequestUser) : bool :=
  match user with
  | AnonymousUser => false
  | CustomUser _ _ => true
  end.

Definition user_type (user : RequestUser) : exn + UserType :=
  match user with
  | AnonymousUser => inl AttributeError
  | CustomUser t _ => inr t
  end.

Definition user_business (user : RequestUser) : exn + option Z :=
  match user with
  | AnonymousUser => inl AttributeError
  | CustomUser _ b => inr b
  end.

(** The object of a detail view, as the permission classes look at it:
    its attribute [business] when it has one, and the business of its
    attribute [user] when it has one; the value of [user] can be [None]. *)
Record Obj : Type := mkObj {
  obj_business : option (option Z);
  obj_user : option (option (option Z))
}.

Definition bindE {A B} (m : exn + A) (k : A -> exn + B) : exn + B :=
  match m with
  | inl e => inl e
  | inr a => k a
  end.

(** Two businesses, or [None]s, compared by [==]. *)
Definition business_eqb (a b : option Z) : bool :=
  match a, b with
  | Some x, Some y => x =? y
  | None, None => true
  | _, _ => false
  end.

(** [obj.business == request.user.business] *)
Definition obj_business_matches (user : RequestUser) (obj : Obj) : exn + bool :=
  match obj_business obj with
  | None => inl AttributeError
  | Some b => bindE (user_business user) (fun ub => inr (business_eqb b ub))
  end.

(** The lines
    [if hasattr(obj, 'business'): return obj.business == request.user.business]
    [if hasattr(obj, 'user'): return obj.user.business == request.user.business]
    [return False] that five of the classes share. *)
Definition business_or_user_matches (user : RequestUser) (obj : Obj) : exn + bool :=
  match obj_business obj with
  | Some b => bindE (user_business user) (fun ub => inr (business_eqb b ub))
  | None =>
      match obj_user obj with
      | Some (Some b) => bindE (user_business user) (fun ub => inr (business_eqb b ub))
      | Some None => inl AttributeError
      | None => inr false
      end
  end.

Inductive PermissionClass : Type :=
| IsSystemAdmin
| IsBusinessAdminOrSystemAdmin
| IsStaffOrBusinessAdminOrSystemAdmin
| IsBusinessAdmin
| IsStaff
| HasBusinessAccess
| CanManageStaff
| CanManageAppointments
| CanViewAnalytics.

Definition user_type_in (user : RequestUser) (types : list UserType) : exn + bool :=
  bindE (user_type user) (fun t => inr (existsb (UserType_eqb t) types)).

(** [has_permission] of each class; a class that does not define it has
    that of [BasePermission], which grants. *)
Definition has_permission (c : PermissionClass) (user : RequestUser) : exn + bool :=
  match c with
  | IsSystemAdmin =>
      if is_authenticated user then user_type_in user [SYSTEM_ADMIN] else inr false
  | IsBusinessAdminOrSystemAdmin =>
      if negb (is_authenticated user) then inr false
      else user_type_in user [BUSINESS_ADMIN; SYSTEM_ADMIN]
  | IsStaffOrBusinessAdminOrSystemAdmin =>
      if negb (is_authenticated user) then inr false
      else user_type_in user [STAFF; BUSINESS_ADMIN; SYSTEM_ADMIN]
  | IsBusinessAdmin =>
      if is_authenticated user then user_type_in user [BUSINESS_ADMIN] else inr false
  | IsStaff =>
      if is_authenticated user then user_type_in user [STAFF] else inr false
  | HasBusinessAccess => inr true
  | CanManageStaff =>
      if negb (is_authenticated user) then inr false
      else user_type_in user [BUSINESS_ADMIN; SYSTEM_ADMIN]
  | CanManageAppointments =>
      if negb (is_authenticated user) then inr false
      else user_type_in user [STAFF; BUSINESS_ADMIN]
  | CanViewAnalytics =>
      if negb (is_authenticated user) then inr false
      else user_type_in user [BUSINESS_ADMIN; SYSTEM_ADMIN]
  end.

(** [has_object_permission] of each class. *)
Definition has_object_permission (c : PermissionClass) (user : RequestUser)
    (obj : Obj) : exn + bool :=
  match c with
  | IsSystemAdmin => inr true
  | IsBusinessAdminOrSystemAdmin =>
      bindE (user_type_in user [SYSTEM_ADMIN]) (fun admin =>
        if admin then inr true else business_or_user_matches user obj)
  | IsStaffOrBusinessAdminOrSystemAdmin =>
      bindE (user_type_in user [SYSTEM_ADMIN]) (fun admin =>
        if admin then inr true
        else
          bindE (user_type_in user [BUSINESS_ADMIN; STAFF]) (fun member =>
            if member then business_or_user_matches user obj else inr false))
  | IsBusinessAdmin => business_or_user_matches user obj
  | IsStaff => business_or_user_matches user obj
  | HasBusinessAccess =>
      if negb (is_authenticated user) then inr false
      else
        bindE (user_type_in user [SYSTEM_ADMIN]) (fun admin =>
          if admin then inr true else business_or_user_matches user obj)
  | CanManageStaff =>
      bindE (user_type_in user [SYSTEM_ADMIN]) (fun admin =>
        if admin then inr true
        else
          bindE (user_type_in user [BUSINESS_ADMIN]) (fun manager =>
            if manager then obj_business_matches user obj else inr false))
  | CanManageAppointments =>
      match obj_business obj with
      | Some b => bindE (user_business user) (fun ub => inr (business_eqb b ub))
      | None => inr false
      end
  | CanViewAnalytics =>
      bindE (user_type_in user [SYSTEM_ADMIN]) (fun admin =>
        if admin then inr true
        else
          bindE (user_type_in user [BUSINESS_ADMIN]) (fun manager =>
            if manager then obj_business_matches user obj else inr false))
  end.

(** What the framework does for a detail view: [check_permissions], then
    [check_object_permissions] on the object found. *)
Definition granted (c : PermissionClass) (user : RequestUser) (obj : Obj) :
    exn + bool :=
  bindE (has_permission c user) (fun ok =>
    if ok then has_object_permission c user obj else inr false).

End Permissions.

(** ** The listing of [booking/utils.py] *)

(** A slot of the listing of a business, with the staff member who offers
    it and the name shown for them. *)
Record StaffSlot : Type := mkStaffSlot {
  ss_start_time : datetime;
  ss_end_time : datetime;
  ss_staff : Z;
  ss_staff_name : string
}.

Module Utils.

Section Users.

(** What the listing reads from the users table, which is not modelled:
    [staff__is_active], and the name [get_full_name() or email] of a
    staff member. *)
Variable staff_is_active : Z -> bool.
Variable staff_name : Z -> string.

(** The join behind [appointment__business=business]. *)
Definition appointment__business (db : Store) (business' : Z)
    (r : AppointmentService) : bool :=
  match get_appointment db (as_appointment r) with
  | Some a => business a =? business'
  | None => false
  end.

(** The [while] loop over one schedule, run at most [fuel] times. *)
Fixpoint schedule_loop (fuel : nat) (existing_appointments : list AppointmentService)
    (staff : Z) (duration end_time current_time : datetime) : list StaffSlot :=
  match fuel with
  | O => []
  | S fuel' =>
      if current_time + duration <=? end_time then
        let slot_end_time := current_time + duration in
        let conflict :=
          exists_ (filter (fun r => (as_staff r =? staff)
                                    && (as_start_time r <? slot_end_time)
                                    && (as_end_time r >? current_time))
                          existing_appointments) in
        (if negb conflict
         then [mkStaffSlot current_time slot_end_time staff (staff_name staff)]
         else [])
        ++ schedule_loop fuel' existing_appointments staff duration end_time
             (current_time + SLOT_STEP)
      else []
  end.

(** The order of [sorted(..., key=lambda x: (x['start_time'],
    x['staff_name']))]: tuples compare field by field, strings character
    by character. *)
Definition key_leb (x y : StaffSlot) : bool :=
  (ss_start_time x <? ss_start_time y)
  || ((ss_start_time x =? ss_start_time y)
      && String.leb (ss_staff_name x) (ss_staff_name y)).

Fixpoint insert (x : StaffSlot) (l : list StaffSlot) : list StaffSlot :=
  match l with
  | [] => [x]
  | y :: tl => if key_leb x y then x :: y :: tl else y :: insert x tl
  end.

(** [sorted]: a stable sort, slots with equal keys keep their order. *)
Definition sorted (l : list StaffSlot) : list StaffSlot :=
  fold_right insert [] l.

(** The schedules of the day: those of the business on the date whose
    staff member is active, of one staff member when [staff] is given. *)
Definition day_schedules (db : Store) (business date : Z) (staff : option Z) :
    list Schedule :=
  let schedules :=
    filter (fun s => (schedule_business s =? business)
                     && (schedule_date s =? date)
                     && staff_is_active (schedule_staff s))
           (schedules db) in
  match staff with
  | Some staff => filter (fun s => schedule_staff s =? staff) schedules
  | None => schedules
  end.

(** The active rows of the business that lie within the day, of one
    staff member when [staff] is given. *)
Definition day_appointments (db : Store) (business date : Z) (staff : option Z) :
    list AppointmentService :=
  let start_datetime := combine date 0 in
  let end_datetime := combine date (day - microsecond) in
  let existing_appointments :=
    filter (fun r => appointment__business db business r
                     && (as_start_time r >=? start_datetime)
                     && (as_end_time r <=? end_datetime)
                     && appointment__status__in db ACTIVE r)
           (appointment_services db) in
  match staff with
  | Some staff => filter (fun r => as_staff r =? staff) existing_appointments
  | None => existing_appointments
  end.

Definition get_available_slots (db : Store) (business : Z) (service : Service)
    (date : Z) (staff : option Z) : list StaffSlot :=
  let schedules := day_schedules db business date staff in
  let existing_appointments := day_appointments db business date staff in
  let available_slots :=
    flat_map
      (fun schedule =>
         let current_time := combine date (schedule_start_time schedule) in
         let end_time := combine date (schedule_end_time schedule) in
         schedule_loop
           (BookingManager.loop_fuel (duration service) end_time current_time)
           existing_appointments (schedule_staff schedule) (duration service)
           end_time current_time)
      schedules in
  sorted available_slots.

End Users.

(** [is_staff_available]; [pk] is the key of the instance, [None] when it
    has not been saved.  The queries raise nothing on an instance whose
    fields are set, so the [except] branch is not taken. *)
Definition is_staff_available (db : Store) (pk : option Z)
    (appointment_service : AppointmentService) : bool :=
  let schedule_exists :=
    exists_
      (filter (fun s => (schedule_staff s =? as_staff appointment_service)
                        && (schedule_date s
                            =? date_of (as_start_time appointment_service))
                        && (schedule_start_time s
                            <=? time_of (as_start_time appointment_service))
                        && (schedule_end_time s
                            >=? time_of (as_end_time appointment_service)))
              (schedules db)) in
  if negb schedule_exists then false
  else
    let conflicts :=
      exists_
        (exclude_pk pk
           (filter (fun r => (as_staff r =? as_staff appointment_service)
                             && (as_start_time r <? as_end_time appointment_service)
                             && (as_end_time r >? as_start_time appointment_service)
                             && appointment__status__in db ACTIVE r)
                   (appointment_services db))) in
    negb conflicts.

(** The loop of [validate_appointment_services] over the sorted
    instances, each with its key.  The service of an instance that is not
    in the table raises [DoesNotExist], which the function catches.  The
    gap is a number of minutes as a float, and exceeds 30 exactly when the
    difference exceeds 30 minutes. *)
Fixpoint validate_loop (db : Store)
    (sorted_services : list (option Z * AppointmentService)) : bool * string :=
  match sorted_services with
  | [] => (true, "Valid services schedule")
  | (pk, service) :: rest =>
      match get_service db (as_service service) with
      | None => (false, "Error validating services")
      | Some s =>
          let expected_duration := duration s in
          let actual_duration := as_end_time service - as_start_time service in
          if negb (actual_duration =? expected_duration) then
            (false, String.append "Invalid duration for service: " (service_name s))
          else
            let next_check :=
              match rest with
              | (_, next_service) :: _ =>
                  if as_end_time service >? as_start_time next_service then
                    Some "Services overlap"
                  else if as_start_time next_service - as_end_time service
                          >? minutes 30 then
                    Some "Too large gap between services"
                  else None
              | [] => None
              end in
            match next_check with
            | Some message => (false, message)
            | None =>
                if negb (is_staff_available db pk service) then
                  (false,
                   String.append "Staff not available for service: "
                     (service_name s))
                else validate_loop db rest
            end
      end
  end.

Definition validate_appointment_services (db : Store)
    (appointment_services : list (option Z * AppointmentService)) : bool * string :=
  match appointment_services with
  | [] => (false, "No services provided")
  | _ :: _ =>
      validate_loop db
        (order_by (fun x => as_start_time (snd x)) appointment_services)
  end.

End Utils.

(** ** A working day used in the examples

    Monday 2024-06-10 is day 19884 of the epoch.  Staff member 7 of
    business 1 works from 09:00 to 12:00 and offers a 30-minute service. *)

Module Scenario.

Definition date : Z := 19884.
Definition at_ (h m : Z) : datetime := combine date (hm h m).
Definition now : datetime := at_ 8 0.
Definition staff : Z := 7.
Definition haircut : Service := mkService 1 1 "Haircut" (minutes 30) 5000.
Definition morning : Schedule := mkSchedule 1 1 staff date (hm 9 0) (hm 12 0).

(** No booking yet. *)
Definition db_open : Store := mkStore [haircut] [] [] [morning] 1 1.

(** Ada has booked 09:00 to 09:30. *)
Definition ada : Appointment := mkAppointment 1 1 "Ada" "555" PENDING None 0.
Definition ada_row : AppointmentService :=
  mkAppointmentService 1 1 1 (at_ 9 0) (at_ 9 30) staff 5000.
Definition db_booked : Store := mkStore [haircut] [ada] [ada_row] [morning] 2 2.

(** One appointment with two consecutive services, 09:00 to 09:30 and
    09:30 to 10:00, as the appointment serializer creates them. *)
Definition pair : Appointment := mkAppointment 1 1 "Eve" "557" PENDING None 10000.
Definition pair_first : AppointmentService :=
  mkAppointmentService 1 1 1 (at_ 9 0) (at_ 9 30) staff 5000.
Definition pair_second : AppointmentService :=
  mkAppointmentService 2 1 1 (at_ 9 30) (at_ 10 0) staff 5000.
Definition db_pair : Store :=
  mkStore [haircut] [pair] [pair_first; pair_second] [morning] 2 3.

(** The same appointment, and Carl's booking from 10:30 to 11:00. *)
Definition carl : Appointment := mkAppointment 2 1 "Carl" "558" CONFIRMED None 5000.
Definition carl_row : AppointmentService :=
  mkAppointmentService 3 2 1 (at_ 10 30) (at_ 11 0) staff 5000.
Definition db_three : Store :=
  mkStore [haircut] [pair; carl] [pair_first; pair_second; carl_row] [morning] 3 4.

(** Ada's appointment has been cancelled; its row is still there. *)
Definition ada_cancelled : Appointment :=
  mkAppointment 1 1 "Ada" "555" CANCELLED None 5000.
Definition db_cancelled : Store :=
  mkStore [haircut] [ada_cancelled] [ada_row] [morning] 2 2.

(** A split day, 09:00 to 10:00 and 14:00 to 15:00, without bookings. *)
Definition early : Schedule := mkSchedule 1 1 staff date (hm 9 0) (hm 10 0).
Definition late : Schedule := mkSchedule 2 1 staff date (hm 14 0) (hm 15 0).
Definition db_split : Store := mkStore [haircut] [] [] [early; late] 1 1.

(** Ada's appointment at 09:00 is confirmed and Bob has booked 10:00 to
    10:30. *)
Definition ada_confirmed : Appointment :=
  mkAppointment 1 1 "Ada" "555" CONFIRMED None 5000.
Definition bob : Appointment := mkAppointment 2 1 "Bob" "556" PENDING None 0.
Definition bob_row : AppointmentService :=
  mkAppointmentService 2 2 1 (at_ 10 0) (at_ 10 30) staff 5000.
Definition db_two : Store :=
  mkStore [haircut] [ada_confirmed; bob] [ada_row; bob_row] [morning] 3 3.

End Scenario.

(** ** More days for the examples *)

Module Examples.

(** Ada's appointment of 09:00 is in progress. *)
Definition ada_in_progress : Appointment :=
  mkAppointment 1 1 "Ada" "555" IN_PROGRESS None 5000.
Definition db_in_progress : Store :=
  mkStore [Scenario.haircut] [ada_in_progress] [Scenario.ada_row]
    [Scenario.morning] 2 2.

(** A second business, 2, whose staff member 8 has Dora at 09:00. *)
Definition dora : Appointment := mkAppointment 2 2 "Dora" "558" CONFIRMED None 5000.
Definition dora_row : AppointmentService :=
  mkAppointmentService 2 2 1 (Scenario.at_ 9 0) (Scenario.at_ 9 30) 8 5000.
Definition db_two_businesses : Store :=
  mkStore [Scenario.haircut] [Scenario.ada; dora] [Scenario.ada_row; dora_row]
    [Scenario.morning] 3 3.

(** Ada's appointment of 09:00 is completed, and Bob has booked 10:00 to
    10:30. *)
Definition ada_completed : Appointment :=
  mkAppointment 1 1 "Ada" "555" COMPLETED None 5000.
Definition db_completed_and_bob : Store :=
  mkStore [Scenario.haircut] [ada_completed; Scenario.bob]
    [Scenario.ada_row; Scenario.bob_row] [Scenario.morning] 3 3.


End Examples.

(** * The vocabulary of the properties *)

(** ** Rejections *)

(** The rejections of [validate_appointment_time], under the names the
    design documents give them. *)
Definition PAST_DATE : option string :=
  Some "Cannot book appointments in the past".
Definition OUTSIDE_WORKING_HOURS : option string :=
  Some "Selected time is outside of staff working hours".
Definition DOUBLE_BOOKING : option string :=
  Some "Time slot conflicts with existing appointment".

(** The rejection of an empty or inverted range, which only
    [AppointmentService.clean] makes. *)
Definition INVALID_RANGE : option string :=
  Some "End time must be after start time".

(** The rejection of [AppointmentService.clean] for a staff member whose
    rows overlap the new one. *)
Definition STAFF_NOT_AVAILABLE : option string :=
  Some "The selected staff member is not available during this time slot".

(** ** Slots *)

(** The staff member has a schedule on the date. *)
Definition has_schedule (db : Store) (staff date : Z) : Prop :=
  exists s, In s (schedules db) /\ schedule_staff s = staff /\ schedule_date s = date.

(** The slots of a row set at one cursor position. *)
Definition candidate (existing_appointments : list AppointmentService)
    (duration current_time : datetime) : list Slot :=
  if negb (existsb (fun appt => (as_start_time appt <? current_time + duration)
                                && (as_end_time appt >? current_time))
                   existing_appointments)
  then [mkSlot current_time (current_time + duration)] else [].

(** The rows [get_available_slots] checks a slot against. *)
Definition existing_appointments_on (db : Store) (staff date : Z) :
    list AppointmentService :=
  filter (fun r => (as_staff r =? staff)
                   && (date_of (as_start_time r) =? date)
                   && appointment__status__in db ACTIVE r)
         (appointment_services db).



(** The order of the listing of a business, as a relation. *)
Definition key_le (x y : StaffSlot) : Prop := Utils.key_leb x y = true.

(** ** Bookings *)

(** Two rows overlap as half-open intervals. *)
Definition rows_overlap (r1 r2 : AppointmentService) : Prop :=
  as_start_time r1 < as_end_time r2 /\ as_start_time r2 < as_end_time r1.

(** The rows of one staff member never overlap, whatever the status of
    their appointments: what [AppointmentService.clean] maintains. *)
Definition staff_rows_disjoint (db : Store) : Prop :=
  forall r1 r2,
    In r1 (appointment_services db) -> In r2 (appointment_services db) ->
    as_id r1 <> as_id r2 -> as_staff r1 = as_staff r2 ->
    ~ rows_overlap r1 r2.

(** No two distinct active rows of a staff member overlap. *)
Definition no_double_booking (db : Store) : Prop :=
  forall r1 r2,
    In r1 (appointment_services db) -> In r2 (appointment_services db) ->
    as_id r1 <> as_id r2 -> as_staff r1 = as_staff r2 ->
    appointment__status__in db ACTIVE r1 = true ->
    appointment__status__in db ACTIVE r2 = true ->
    ~ rows_overlap r1 r2.


(** The shift of a reschedule: the new start minus the start of the first
    service. *)
Definition time_difference (first : AppointmentService) (new_start_time : datetime) :
    timedelta :=
  new_start_time - as_start_time first.

(** The appointment and the row that a successful [create_appointment]
    inserts. *)
Definition created_appointment (db : Store) (business : Z)
    (client_name client_phone : string) (notes : option string) : Appointment :=
  mkAppointment (next_appointment_id db) business client_name client_phone
    PENDING notes 0.

Definition created_row (db : Store) (staff : Z) (service : Service)
    (start_time : datetime) : AppointmentService :=
  mkAppointmentService (next_appointment_service_id db) (next_appointment_id db)
    (service_id service) start_time (start_time + duration service) staff
    (price service).

(** ** The states the application can reach *)

(** A property of the database that a computation keeps, whether it
    returns or raises. *)
Definition preserves {A} (P : Store -> Prop) (m : M A) : Prop :=
  forall db, P db -> P (fst (m db)).

(** The administration of services and schedules, which writes neither
    appointments nor their rows. *)
Definition with_catalogue (db : Store) (services' : list Service)
    (schedules' : list Schedule) : Store :=
  mkStore services' (appointments db) (appointment_services db) schedules'
    (next_appointment_id db) (next_appointment_service_id db).

(** One write to the database: an operation of [BookingManager], the
    [cancel] action, or any other code that goes through the [save] of
    the models or deletes the rows of an appointment, as the serializers
    do.  A failed operation is a step too, to the database it leaves. *)
Inductive step : Store -> Store -> Prop :=
| step_create_appointment now business staff service start_time
    client_name client_phone notes db :
    step db (fst (BookingManager.create_appointment now business staff service
                    start_time client_name client_phone notes db))
| step_change_appointment_status appointment new_status staff db :
    step db (fst (BookingManager.change_appointment_status appointment new_status
                    staff db))
| step_reschedule_appointment now appointment new_start_time staff db :
    step db (fst (BookingManager.reschedule_appointment now appointment
                    new_start_time staff db))
| step_cancel user_business pk db :
    step db (fst (AppointmentViewSet.cancel user_business pk db))
| step_Appointment_save pk a db :
    step db (fst (Appointment_save pk a db))
| step_AppointmentService_save now pk r db :
    step db (fst (AppointmentService_save now pk r db))
| step_services_delete id db :
    step db (without_appointment db id)
| step_catalogue services' schedules' db :
    step db (with_catalogue db services' schedules').

(** The databases reached from the empty one. *)
Inductive reachable : Store -> Prop :=
| reachable_empty : reachable empty_store
| reachable_step db db' : reachable db -> step db db' -> reachable db'.

(** ** Calendars *)

(** The start and the end of every schedule are times of day, as a
    [TimeField] holds them. *)
Definition schedule_times_in_day (db : Store) : Prop :=
  forall s, In s (schedules db) ->
            0 <= schedule_start_time s /\ schedule_end_time s < day.

(** The row ends no later than the midnight that follows its start. *)
Definition ends_by_midnight (r : AppointmentService) : Prop :=
  as_end_time r <= combine (date_of (as_start_time r) + 1) 0.

(** Slots in chronological order, no two at the same instant. *)
Definition slot_before (a b : Slot) : Prop :=
  slot_start_time a < slot_start_time b.

(** Every row has a start before its end. *)
Definition rows_well_formed (db : Store) : Prop :=
  forall r, In r (appointment_services db) -> as_start_time r < as_end_time r.

(** ** Services of one appointment *)

(** Two services overlap as half-open intervals. *)
Definition services_overlap (a b : ServiceData) : Prop :=
  sd_start_time a < sd_end_time b /\ sd_start_time b < sd_end_time a.

(** The rows that [create_services] inserts, the first with the key [n]. *)
Fixpoint created_rows (appointment n : Z) (services_data : list ServiceData) :
    list AppointmentService :=
  match services_data with
  | [] => []
  | sd :: rest =>
      mkAppointmentService n appointment (service_id (sd_service sd))
        (sd_start_time sd) (sd_end_time sd) (sd_staff sd) (sd_price sd)
      :: created_rows appointment (n + 1) rest
  end.

(** * Properties *)

(** ** Querysets *)

Section Querysets.

Context {A : Type}.

Lemma exists__true (l : list A) : exists_ l = true <-> exists x, In x l.
Proof.
  destruct l as [|x l]; simpl; split; intros H.
  - discriminate.
  - destruct H as [x []].
  - exists x. now left.
  - reflexivity.
Qed.

Lemma exists__false (l : list A) : exists_ l = false <-> l = [].
Proof. destruct l; simpl; split; intros H; congruence. Qed.

Lemma filter_nil (f : A -> bool) (l : list A) :
  (forall x, In x l -> f x = false) -> filter f l = [].
Proof.
  induction l as [|x l IH]; simpl; intros H; [reflexivity|].
  rewrite (H x (or_introl eq_refl)). apply IH. intros y Hy. apply H. now right.
Qed.

Lemma min_by_nil (key : A -> Z) (l : list A) : min_by key l = None <-> l = [].
Proof.
  destruct l as [|x l]; simpl; split; intros H; try congruence.
  destruct (min_by key l) as [y|]; [destruct (key y <? key x)|]; discriminate.
Qed.

Lemma min_by_In (key : A -> Z) (l : list A) (x : A) :
  min_by key l = Some x -> In x l.
Proof.
  revert x. induction l as [|y l IH]; simpl; intros x H; [discriminate|].
  destruct (min_by key l) as [z|].
  - destruct (key z <? key y); injection H as <-; [right; now apply IH | now left].
  - injection H as <-. now left.
Qed.

Lemma min_by_le (key : A -> Z) (l : list A) (x : A) :
  min_by key l = Some x -> forall y, In y l -> key x <= key y.
Proof.
  revert x. induction l as [|z l IH]; simpl; intros x H y Hy; [contradiction|].
  destruct (min_by key l) as [m|] eqn:Hm.
  - specialize (IH m eq_refl).
    destruct (Z.ltb_spec (key m) (key z)); injection H as <-;
      destruct Hy as [<-|Hy]; try lia; specialize (IH y Hy); lia.
  - apply min_by_nil in Hm. subst l. injection H as <-.
    destruct Hy as [<-|[]]. lia.
Qed.


End Querysets.

Lemma status_in_ACTIVE (s : Status) :
  status_in s ACTIVE = true <-> s = PENDING \/ s = CONFIRMED \/ s = IN_PROGRESS.
Proof. destruct s; simpl; intuition congruence. Qed.

(** ** The monad *)

Lemma bind_inr {A B} (m : M A) (k : A -> M B) db db' a :
  m db = (db', inr a) -> bind m k db = k a db'.
Proof. unfold bind. now intros ->. Qed.

Lemma bind_inl {A B} (m : M A) (k : A -> M B) db db' e :
  m db = (db', inl e) -> bind m k db = (db', inl e).
Proof. unfold bind. now intros ->. Qed.

(** ** No schedule, no slot *)

Lemma no_schedule_filter (db : Store) (staff date : Z) :
  ~ has_schedule db staff date ->
  filter (fun s => (schedule_staff s =? staff) && (schedule_date s =? date))
         (schedules db) = [].
Proof.
  intros H. apply filter_nil. intros s Hs.
  destruct (Z.eqb_spec (schedule_staff s) staff) as [E1|]; [|reflexivity].
  destruct (Z.eqb_spec (schedule_date s) date) as [E2|]; [|reflexivity].
  exfalso. apply H. now exists s.
Qed.

(** C10. When the staff member has no [Schedule] row on the date,
    [BookingManager.get_available_slots] returns the empty list, and so
    does the [available_slots] action, which answers with an empty list of
    slots and raises nothing. *)
Theorem get_available_slots_without_schedule :
  forall (db : Store) (staff date : Z) (service : Service),
    ~ has_schedule db staff date ->
    BookingManager.get_available_slots db staff date service = []
    /\ (get_service db (service_id service) = Some service ->
        AppointmentViewSet.available_slots staff (service_id service) date db
        = (db, inr [])).
Proof.
  intros db staff date service H. split.
  - unfold BookingManager.get_available_slots.
    now rewrite (no_schedule_filter _ _ _ H).
  - intros Hs. unfold AppointmentViewSet.available_slots.
    now rewrite Hs, (no_schedule_filter _ _ _ H).
Qed.

(** ** The checks of the validator *)

Lemma Appointment_objects_create_ok business client_name client_phone status notes db :
  exists db' a,
    Appointment_objects_create business client_name client_phone status notes db
    = (db', inr a)
    /\ appointment_services db' = appointment_services db
    /\ appointment_id a = next_appointment_id db.
Proof.
  unfold Appointment_objects_create, Appointment_save. simpl.
  eexists. eexists. split; [reflexivity|]. split; reflexivity.
Qed.

Lemma clean_empty_range now pk self db :
  as_end_time self <= as_start_time self ->
  AppointmentService_clean now pk self db = (db, inl (ValidationError INVALID_RANGE)).
Proof.
  intros H. unfold AppointmentService_clean.
  destruct (Z.geb_spec (as_start_time self) (as_end_time self)); [reflexivity | lia].
Qed.

Lemma schedules_first_exists (l : list Schedule) :
  schedules_first l = None <-> exists_ l = false.
Proof. unfold schedules_first. now rewrite min_by_nil, exists__false. Qed.

(** C6, as the code has it.  The validator makes three checks, in this
    order and the first failure winning: the start is in the past, no
    schedule covers the interval, an active booking overlaps it.  It has
    no range check.  When the service's duration is not positive, so that
    the proposed interval has [start >= end], [create_appointment] fails
    and writes nothing; the error is the validator's own rejection when it
    rejects, and otherwise the range error of [AppointmentService.clean],
    raised when the row is saved. *)
Theorem validator_order_and_empty_range :
  forall (now : datetime) (db : Store) (business staff : Z) (service : Service)
         (start_time end_time : datetime) (exclude : option Z)
         (client_name client_phone : string) (notes : option string),
    BookingManager.validate_appointment_time now db staff start_time end_time exclude
    = (if start_time <? now then (false, PAST_DATE)
       else if negb (exists_ (BookingManager.covering_schedules db staff
                                start_time end_time))
            then (false, OUTSIDE_WORKING_HOURS)
       else if exists_ (BookingManager.exclude_appointment exclude
                          (BookingManager.overlapping_active db staff
                             start_time end_time))
            then (false, DOUBLE_BOOKING)
       else (true, None))
    /\ (duration service <= 0 ->
        BookingManager.create_appointment now business staff service start_time
          client_name client_phone notes db
        = (db, inl (ValidationError
             (let '(is_valid, error_message) :=
                BookingManager.validate_appointment_time now db staff start_time
                  (start_time + duration service) None in
              if is_valid then INVALID_RANGE else error_message)))).
Proof.
  intros now db business staff service start_time end_time exclude cn cp notes.
  split.
  - unfold BookingManager.validate_appointment_time.
    destruct (start_time <? now); [reflexivity|].
    destruct (schedules_first _) eqn:E.
    + destruct (exists_ (BookingManager.covering_schedules _ _ _ _)) eqn:E';
        [reflexivity|].
      apply schedules_first_exists in E'. congruence.
    + apply schedules_first_exists in E. now rewrite E.
  - intros Hd.
    unfold BookingManager.create_appointment, atomic, bind at 1, get.
    destruct (BookingManager.validate_appointment_time now db staff start_time
                (start_time + duration service) None) as [[|] msg]; simpl.
    + destruct (Appointment_objects_create_ok business cn cp PENDING notes db)
        as (db' & a & Ha & _ & _).
      rewrite (bind_inr _ _ _ _ _ Ha).
      unfold AppointmentService_objects_create, AppointmentService_save.
      erewrite bind_inl; [reflexivity|].
      erewrite bind_inl; [reflexivity|].
      apply clean_empty_range. simpl. lia.
    + reflexivity.
Qed.

(** The stated C6 fails: the validator accepts an interval that ends
    before it starts, here from 10:00 back to 09:30 within the working
    hours of an empty calendar. *)
Lemma validator_accepts_inverted_range :
  Scenario.at_ 10 0 >= Scenario.at_ 9 30
  /\ Scenario.now <= Scenario.at_ 10 0
  /\ BookingManager.validate_appointment_time Scenario.now Scenario.db_open
       Scenario.staff (Scenario.at_ 10 0) (Scenario.at_ 9 30) None
     = (true, None).
Proof. repeat split; vm_compute; congruence. Qed.

(** A service without duration is refused by the range check of the
    save, the validator having accepted 10:00 to 10:00. *)
Lemma validator_order_and_empty_range_witness :
  BookingManager.validate_appointment_time Scenario.now Scenario.db_open
    Scenario.staff (Scenario.at_ 10 0) (Scenario.at_ 10 0) None = (true, None)
  /\ BookingManager.create_appointment Scenario.now 1 Scenario.staff
       (mkService 2 1 "Nothing" 0 0) (Scenario.at_ 10 0) "Ada" "555" None
       Scenario.db_open
     = (Scenario.db_open, inl (ValidationError INVALID_RANGE)).
Proof.
  split; [reflexivity|].
  rewrite (proj2 (validator_order_and_empty_range Scenario.now Scenario.db_open 1
                    Scenario.staff (mkService 2 1 "Nothing" 0 0) (Scenario.at_ 10 0)
                    (Scenario.at_ 10 0) None "Ada" "555" None))
    by (simpl; lia).
  reflexivity.
Defined.

(** ** The exclusion of the validator *)

Lemma filter_filter_absorb {A} (f g g' : A -> bool) (l : list A) :
  (forall x, g x = g' x) ->
  filter f (filter g l) = filter f (filter g' (filter f l)).
Proof.
  intros E. induction l as [|x l IH]; simpl; [reflexivity|].
  destruct (f x) eqn:Hf; simpl; rewrite <- ?E;
    destruct (g x) eqn:Hg; simpl; rewrite ?Hf; congruence.
Qed.

Lemma validate_without_appointment now db staff start_time end_time id :
  id <> 0 ->
  BookingManager.validate_appointment_time now db staff start_time end_time (Some id)
  = BookingManager.validate_appointment_time now (without_appointment db id) staff
      start_time end_time (Some id).
Proof.
  intros Hid. unfold BookingManager.validate_appointment_time.
  destruct (start_time <? now); [reflexivity|].
  change (BookingManager.covering_schedules (without_appointment db id))
    with (BookingManager.covering_schedules db).
  destruct (schedules_first _); [|reflexivity].
  unfold BookingManager.exclude_appointment, truthy.
  destruct (Z.eqb_spec id 0) as [|_]; [contradiction|]. simpl negb. cbv iota.
  unfold BookingManager.overlapping_active. simpl appointment_services.
  match goal with
  | |- context [filter ?f (filter ?g (filter ?f ?l))] =>
      rewrite <- (filter_filter_absorb f g g l) by reflexivity
  end.
  reflexivity.
Qed.

Lemma validate_double_booking_inv now db staff start_time end_time exclude b :
  BookingManager.validate_appointment_time now db staff start_time end_time exclude
  = (b, DOUBLE_BOOKING) ->
  exists r,
    In r (BookingManager.exclude_appointment exclude
            (BookingManager.overlapping_active db staff start_time end_time)).
Proof.
  unfold BookingManager.validate_appointment_time.
  destruct (start_time <? now); [discriminate|].
  destruct (schedules_first _); [|discriminate].
  destruct (exists_ _) eqn:E; [|discriminate].
  intros _. now apply exists__true.
Qed.

Lemma overlapping_active_In db staff start_time end_time r :
  In r (BookingManager.overlapping_active db staff start_time end_time) <->
  In r (appointment_services db) /\ as_staff r = staff
  /\ as_start_time r < end_time /\ as_end_time r > start_time
  /\ appointment__status__in db ACTIVE r = true.
Proof.
  unfold BookingManager.overlapping_active. rewrite filter_In.
  rewrite !andb_true_iff, Z.eqb_eq, Z.ltb_lt, Z.gtb_gt. tauto.
Qed.

Lemma exclude_appointment_In exclude l r :
  In r (BookingManager.exclude_appointment exclude l) <->
  In r l /\ (truthy exclude = true -> Some (as_appointment r) <> exclude).
Proof.
  unfold BookingManager.exclude_appointment.
  destruct (truthy exclude) eqn:T.
  - destruct exclude as [id|]; [|discriminate].
    rewrite filter_In, negb_true_iff, Z.eqb_neq. split.
    + intros [H1 H2]. split; [assumption|]. intros _. congruence.
    + intros [H1 H2]. split; [assumption|]. intros E. apply H2; congruence.
  - split; [intros H; split; [assumption | discriminate] | tauto].
Qed.

(** What the exclusion of the validator does.  During a reschedule the
    overlap check of the validator leaves out every row of the
    appointment being moved: its verdict is the one
    it gives on the database without those rows, and
    [reschedule_appointment] reports a double booking only because of a
    row of another appointment.  The key of the appointment is not 0,
    which [if exclude_appointment_id:] would read as no exclusion; the
    keys the database gives start at 1. *)
Theorem reschedule_exclusion_is_by_appointment :
  forall (now : datetime) (db : Store) (appointment : Appointment)
         (new_start_time : datetime) (staff : Z),
    appointment_id appointment <> 0 ->
    (forall start_time end_time,
        BookingManager.validate_appointment_time now db staff start_time end_time
          (Some (appointment_id appointment))
        = BookingManager.validate_appointment_time now
            (without_appointment db (appointment_id appointment)) staff
            start_time end_time (Some (appointment_id appointment)))
    /\ (forall db',
           BookingManager.reschedule_appointment now appointment new_start_time staff db
           = (db', inl (ValidationError DOUBLE_BOOKING)) ->
           exists first service r,
             services_first db (Some (appointment_id appointment)) = Some first
             /\ get_service db (as_service first) = Some service
             /\ In r (appointment_services db)
             /\ as_appointment r <> appointment_id appointment
             /\ as_staff r = staff
             /\ appointment__status__in db ACTIVE r = true
             /\ as_start_time r < new_start_time + duration service
             /\ as_end_time r > new_start_time).
Proof.
  intros now db appointment new_start_time staff Hid. split.
  - intros s e. now apply validate_without_appointment.
  - intros db'. unfold BookingManager.reschedule_appointment.
    destruct (status_in _ _); [discriminate|].
    unfold bind at 1, get.
    destruct (services_first db _) as [first|] eqn:Hf; [|discriminate].
    destruct (get_service db _) as [service|] eqn:Hs; [|discriminate].
    destruct (BookingManager.validate_appointment_time _ _ _ _ _ _)
      as [[|] msg] eqn:Hv; simpl.
    + unfold bind at 1, get. rewrite Hf.
      unfold AppointmentService_save, bind, AppointmentService_clean.
      repeat match goal with
             | |- context [if ?c then _ else _] => destruct c
             end; simpl; intros H; discriminate H.
    + unfold raise. intros H. injection H as _ ->.
      apply validate_double_booking_inv in Hv. destruct Hv as [r Hr].
      apply exclude_appointment_In in Hr. destruct Hr as [Hr Hex].
      apply overlapping_active_In in Hr.
      destruct Hr as (Hin & Hst & Hlt & Hgt & Hact).
      exists first, service, r. repeat split; try assumption.
      intros E. apply Hex; [|now rewrite E].
      simpl. now apply negb_true_iff, Z.eqb_neq.
Qed.

(** Moving the appointment of two services to 09:15 is not a conflict
    with its own second service; moving it to 10:15 is one with Carl's
    booking. *)
Lemma reschedule_exclusion_is_by_appointment_witness :
  BookingManager.validate_appointment_time Scenario.now Scenario.db_pair
    Scenario.staff (Scenario.at_ 9 15) (Scenario.at_ 9 45) (Some 1)
  = BookingManager.validate_appointment_time Scenario.now
      (without_appointment Scenario.db_pair 1) Scenario.staff
      (Scenario.at_ 9 15) (Scenario.at_ 9 45) (Some 1)
  /\ exists first service r,
       services_first Scenario.db_three (Some 1) = Some first
       /\ get_service Scenario.db_three (as_service first) = Some service
       /\ In r (appointment_services Scenario.db_three)
       /\ as_appointment r <> 1
       /\ as_staff r = Scenario.staff
       /\ appointment__status__in Scenario.db_three ACTIVE r = true
       /\ as_start_time r < Scenario.at_ 10 15 + duration service
       /\ as_end_time r > Scenario.at_ 10 15.
Proof.
  assert (appointment_id Scenario.pair <> 0) as Hid by discriminate.
  split.
  - exact (proj1 (reschedule_exclusion_is_by_appointment Scenario.now
                    Scenario.db_pair Scenario.pair (Scenario.at_ 9 15)
                    Scenario.staff Hid) (Scenario.at_ 9 15) (Scenario.at_ 9 45)).
  - exact (proj2 (reschedule_exclusion_is_by_appointment Scenario.now
                    Scenario.db_three Scenario.pair (Scenario.at_ 10 15)
                    Scenario.staff Hid) Scenario.db_three eq_refl).
Defined.

(** C9 against the code, at one input.  The appointment of two services,
    09:00 to 09:30 and 09:30 to 10:00, is moved to 09:15.  The validator
    leaves out both rows of the appointment and accepts 09:15 to 09:45.
    The save of the first row then runs [clean], which leaves out only the
    row being saved, meets the second row of the same appointment and
    raises: [reschedule_appointment] is refused because of a sibling
    service, and nothing is written. *)
Theorem reschedule_conflicts_with_sibling :
  services_all Scenario.db_pair (Some 1) = [Scenario.pair_first; Scenario.pair_second]
  /\ BookingManager.overlapping_active Scenario.db_pair Scenario.staff
       (Scenario.at_ 9 15) (Scenario.at_ 9 45)
     = [Scenario.pair_first; Scenario.pair_second]
  /\ BookingManager.exclude_appointment (Some 1)
       (BookingManager.overlapping_active Scenario.db_pair Scenario.staff
          (Scenario.at_ 9 15) (Scenario.at_ 9 45)) = []
  /\ BookingManager.validate_appointment_time Scenario.now Scenario.db_pair
       Scenario.staff (Scenario.at_ 9 15) (Scenario.at_ 9 45) (Some 1)
     = (true, None)
  /\ exclude_pk (Some 1)
       (filter (fun r => (as_staff r =? Scenario.staff)
                         && (as_start_time r <? Scenario.at_ 9 45)
                         && (as_end_time r >? Scenario.at_ 9 15))
               (appointment_services Scenario.db_pair))
     = [Scenario.pair_second]
  /\ AppointmentService_clean Scenario.now (Some 1)
       (set_times Scenario.pair_first (Scenario.at_ 9 15) (Scenario.at_ 9 45))
       Scenario.db_pair
     = (Scenario.db_pair, inl (ValidationError STAFF_NOT_AVAILABLE))
  /\ BookingManager.reschedule_appointment Scenario.now Scenario.pair
       (Scenario.at_ 9 15) Scenario.staff Scenario.db_pair
     = (Scenario.db_pair, inl (ValidationError STAFF_NOT_AVAILABLE)).
Proof. repeat split. Qed.

(** ** Slot generation *)

Lemma SLOT_STEP_pos : 0 < SLOT_STEP.
Proof. reflexivity. Qed.

Lemma loop_fuel_continue duration end_time current_time :
  current_time + duration <= end_time ->
  BookingManager.loop_fuel duration end_time current_time
  = S (BookingManager.loop_fuel duration end_time (current_time + SLOT_STEP)).
Proof.
  intros H. unfold BookingManager.loop_fuel. pose proof SLOT_STEP_pos as Hp.
  replace (end_time - duration - (current_time + SLOT_STEP))
    with (end_time - duration - current_time + (-1) * SLOT_STEP) by lia.
  rewrite Z.div_add by lia.
  assert (0 <= (end_time - duration - current_time) / SLOT_STEP)
    by (apply Z.div_pos; lia).
  rewrite <- Z2Nat.inj_succ by lia. f_equal. lia.
Qed.

Lemma loop_fuel_exit duration end_time current_time :
  end_time < current_time + duration ->
  BookingManager.loop_fuel duration end_time current_time = O.
Proof.
  intros H. unfold BookingManager.loop_fuel. pose proof SLOT_STEP_pos as Hp.
  assert ((end_time - duration - current_time) / SLOT_STEP < 0)
    by (apply Z.div_lt_upper_bound; lia).
  lia.
Qed.

(** The equation of the [while] loop: [slots_from] is the loop itself,
    and it ends. *)
Lemma slots_from_unfold existing duration end_time current_time :
  BookingManager.slots_from existing duration end_time current_time
  = if current_time + duration <=? end_time
    then candidate existing duration current_time
         ++ BookingManager.slots_from existing duration end_time
              (current_time + SLOT_STEP)
    else [].
Proof.
  unfold BookingManager.slots_from.
  destruct (Z.leb_spec (current_time + duration) end_time) as [H|H].
  - rewrite (loop_fuel_continue _ _ _ H). simpl.
    apply Z.leb_le in H. rewrite H. reflexivity.
  - now rewrite (loop_fuel_exit _ _ _ H).
Qed.

Lemma candidate_In existing duration current_time s :
  In s (candidate existing duration current_time) <->
  s = mkSlot current_time (current_time + duration)
  /\ forall r, In r existing ->
               ~ (as_start_time r < current_time + duration
                  /\ as_end_time r > current_time).
Proof.
  unfold candidate.
  destruct (existsb _ existing) eqn:E; simpl.
  - apply existsb_exists in E. destruct E as (r & Hr & Hc).
    apply andb_true_iff in Hc. rewrite Z.ltb_lt, Z.gtb_gt in Hc.
    split; [contradiction|]. intros [_ H]. exact (H r Hr Hc).
  - split.
    + intros [<-|[]]. split; [reflexivity|]. intros r Hr Hc.
      assert (existsb (fun appt => (as_start_time appt <? current_time + duration)
                                   && (as_end_time appt >? current_time)) existing
              = true) as E'.
      { apply existsb_exists. exists r. split; [assumption|].
        apply andb_true_iff. now rewrite Z.ltb_lt, Z.gtb_gt. }
      congruence.
    + intros [-> _]. now left.
Qed.

(** A slot is listed exactly when its start is the first cursor position
    plus a whole number of steps, it ends within the interval, and no row
    of [existing] overlaps it. *)
Lemma slots_from_In existing duration end_time current_time s :
  In s (BookingManager.slots_from existing duration end_time current_time) <->
  (exists k : nat, slot_start_time s = current_time + Z.of_nat k * SLOT_STEP)
  /\ slot_end_time s = slot_start_time s + duration
  /\ slot_end_time s <= end_time
  /\ forall r, In r existing ->
               ~ (as_start_time r < slot_end_time s
                  /\ as_end_time r > slot_start_time s).
Proof.
  pose proof SLOT_STEP_pos as Hp. split.
  - unfold BookingManager.slots_from.
    generalize (BookingManager.loop_fuel duration end_time current_time).
    intros fuel. revert current_time.
    induction fuel as [|fuel IH]; intros c; simpl; [contradiction|].
    destruct (Z.leb_spec (c + duration) end_time) as [H|H]; [|contradiction].
    rewrite in_app_iff. intros [Hin|Hin].
    + apply candidate_In in Hin. destruct Hin as [-> Hfree]. simpl.
      split; [exists O; simpl; lia|]. repeat split; try lia. exact Hfree.
    + destruct (IH _ Hin) as ([k Hk] & H2 & H3 & H4).
      split; [exists (S k); lia|]. repeat split; assumption.
  - intros ([k Hk] & H2 & H3 & H4). revert current_time Hk.
    induction k as [|k IH]; intros c Hk; rewrite slots_from_unfold.
    + destruct (Z.leb_spec (c + duration) end_time) as [H|H]; [|lia].
      apply in_or_app. left. apply candidate_In. split.
      * destruct s as [a b]. simpl in *. f_equal; lia.
      * intros r Hr. simpl in Hk.
        replace (c + duration) with (slot_end_time s) by lia.
        replace c with (slot_start_time s) by lia. now apply H4.
    + destruct (Z.leb_spec (c + duration) end_time) as [H|H]; [|lia].
      apply in_or_app. right. apply IH. lia.
Qed.

(** The rule of [BookingManager.get_available_slots], for any calendar:
    it walks the first schedule of the day and lists the candidates that
    fit in it and that no active row of the staff member starting that day
    overlaps. *)
Lemma get_available_slots_In db staff date service schedule s :
  schedules_first
    (filter (fun s => (schedule_staff s =? staff) && (schedule_date s =? date))
            (schedules db)) = Some schedule ->
  In s (BookingManager.get_available_slots db staff date service) <->
  (exists k : nat,
      slot_start_time s
      = combine date (schedule_start_time schedule) + Z.of_nat k * SLOT_STEP)
  /\ slot_end_time s = slot_start_time s + duration service
  /\ slot_end_time s <= combine date (schedule_end_time schedule)
  /\ forall r, In r (appointment_services db) ->
               as_staff r = staff ->
               date_of (as_start_time r) = date ->
               appointment__status__in db ACTIVE r = true ->
               ~ (as_start_time r < slot_end_time s
                  /\ as_end_time r > slot_start_time s).
Proof.
  intros Hs. unfold BookingManager.get_available_slots. rewrite Hs.
  rewrite slots_from_In.
  assert (forall r, In r (existing_appointments_on db staff date) <->
                    In r (appointment_services db) /\ as_staff r = staff
                    /\ date_of (as_start_time r) = date
                    /\ appointment__status__in db ACTIVE r = true) as E.
  { intros r. unfold existing_appointments_on.
    rewrite filter_In, !andb_true_iff, !Z.eqb_eq. tauto. }
  fold (existing_appointments_on db staff date).
  split; intros (H1 & H2 & H3 & H4); repeat split; try assumption.
  - intros r Hr Hst Hd Ha. apply H4. apply E. tauto.
  - intros r Hr. apply E in Hr. destruct Hr as (? & ? & ? & ?). now apply H4.
Qed.

Lemma day_pos : 0 < day.
Proof. reflexivity. Qed.







Lemma exists_filter_existsb {A} (f : A -> bool) (l : list A) :
  exists_ (filter f l) = existsb f l.
Proof.
  induction l as [|x l IH]; simpl; [reflexivity|].
  destruct (f x); simpl; [reflexivity | exact IH].
Qed.

Lemma existsb_ext_in {A} (f g : A -> bool) (l : list A) :
  (forall x, In x l -> f x = g x) -> existsb f l = existsb g l.
Proof.
  induction l as [|x l IH]; intros H; [reflexivity|]. cbn [existsb].
  rewrite (H x (or_introl eq_refl)). f_equal. apply IH. intros y Hy. apply H.
  now right.
Qed.

Lemma existsb_filter {A} (f g : A -> bool) (l : list A) :
  existsb f (filter g l) = existsb (fun x => g x && f x) l.
Proof.
  induction l as [|x l IH]; [reflexivity|]. cbn [filter existsb].
  destruct (g x); cbn [existsb andb]; now rewrite IH.
Qed.

Section Morning.

Variables (db : Store) (staff date : Z) (service : Service) (schedule : Schedule).

Hypothesis single_schedule :
  filter (fun s => (schedule_staff s =? staff) && (schedule_date s =? date))
         (schedules db) = [schedule].
Hypothesis from_nine : schedule_start_time schedule = hm 9 0.
Hypothesis to_twelve : schedule_end_time schedule = hm 12 0.
Hypothesis half_hour : duration service = minutes 30.







End Morning.



Lemma get_available_slots_without_schedule_witness :
  BookingManager.get_available_slots Scenario.db_open Scenario.staff
    (Scenario.date + 1) Scenario.haircut = []
  /\ AppointmentViewSet.available_slots Scenario.staff 1 (Scenario.date + 1)
       Scenario.db_open = (Scenario.db_open, inr []).
Proof.
  destruct (get_available_slots_without_schedule Scenario.db_open Scenario.staff
              (Scenario.date + 1) Scenario.haircut) as [H1 H2].
  - intros (s & [<-|[]] & _ & H). discriminate H.
  - split; [exact H1 | apply H2; reflexivity].
Defined.

(** ** No double booking *)

Lemma staff_rows_disjoint_no_double_booking db :
  staff_rows_disjoint db -> no_double_booking db.
Proof. intros H r1 r2 H1 H2 Hid Hst _ _. now apply H. Qed.

Lemma upsert_In {A} (key : A -> Z) (x y : A) (l : list A) :
  In y (upsert key x l) -> y = x \/ (In y l /\ key y <> key x).
Proof.
  unfold upsert. destruct (existsb _ l) eqn:E.
  - rewrite in_map_iff. intros (z & Hz & Hin).
    destruct (Z.eqb_spec (key z) (key x)); [left; congruence|].
    right. subst y. now split.
  - rewrite in_app_iff. intros [H|[<-|[]]]; [|now left].
    right. split; [assumption|]. intros C.
    assert (existsb (fun y0 => key y0 =? key x) l = true) as E'.
    { apply existsb_exists. exists y. split; [assumption | now apply Z.eqb_eq]. }
    congruence.
Qed.

(** *** Every write keeps the rows of a staff member disjoint *)

Lemma preserves_ret {A} P (a : A) : preserves P (ret a).
Proof. intros db H. exact H. Qed.

Lemma preserves_raise {A} P e : preserves P (@raise A e).
Proof. intros db H. exact H. Qed.

Lemma preserves_get P : preserves P get.
Proof. intros db H. exact H. Qed.

Lemma preserves_bind {A B} P (m : M A) (k : A -> M B) :
  preserves P m -> (forall a, preserves P (k a)) -> preserves P (bind m k).
Proof.
  intros Hm Hk db H. unfold bind. specialize (Hm db H).
  destruct (m db) as [db' [e|a]]; simpl in *; [assumption|]. now apply Hk.
Qed.

Lemma preserves_atomic {A} P (m : M A) : preserves P m -> preserves P (atomic m).
Proof.
  intros Hm db H. unfold atomic. specialize (Hm db H).
  destruct (m db) as [db' [e|a]]; simpl in *; assumption.
Qed.

(** A save followed by the notification: the writes of the save stay,
    and the outcome is the exception of the save or [ImportError]. *)
Lemma then_notify (m : M Appointment) (action : string) (db : Store) :
  (appointment <- m ;;
   AppointmentViewSet._send_appointment_notifications appointment action ;;;
   ret appointment) db
  = (fst (m db),
     match snd (m db) with
     | inl e => inl e
     | inr _ => inl ImportError
     end).
Proof. unfold bind. now destruct (m db) as [db' [e|a]]. Qed.

Lemma preserves_notify P (m : M Appointment) (action : string) :
  preserves P m ->
  preserves P (appointment <- m ;;
               AppointmentViewSet._send_appointment_notifications appointment action ;;;
               ret appointment).
Proof. intros Hm db H. rewrite then_notify. now apply Hm. Qed.

Lemma clean_ok now pk self db db' :
  AppointmentService_clean now pk self db = (db', inr tt) ->
  db' = db
  /\ as_start_time self < as_end_time self
  /\ now <= as_start_time self
  /\ forall r, In r (appointment_services db) ->
               (forall id, pk = Some id -> as_id r <> id) ->
               as_staff r = as_staff self ->
               ~ rows_overlap r self.
Proof.
  unfold AppointmentService_clean.
  destruct (Z.geb_spec (as_start_time self) (as_end_time self)); [discriminate|].
  destruct (Z.ltb_spec (as_start_time self) now); [discriminate|].
  destruct (exists_ _) eqn:E; [discriminate|].
  intros Heq. injection Heq as <-. repeat split; try lia.
  intros r Hr Hpk Hst [Ho1 Ho2].
  apply exists__false in E.
  assert (In r (exclude_pk pk
                  (filter (fun r => (as_staff r =? as_staff self)
                                    && (as_start_time r <? as_end_time self)
                                    && (as_end_time r >? as_start_time self))
                          (appointment_services db)))) as Hin.
  { assert (In r (filter (fun r => (as_staff r =? as_staff self)
                                   && (as_start_time r <? as_end_time self)
                                   && (as_end_time r >? as_start_time self))
                         (appointment_services db))) as Hf.
    { apply filter_In. split; [assumption|].
      rewrite !andb_true_iff, Z.eqb_eq, Z.ltb_lt, Z.gtb_gt. lia. }
    destruct pk as [id|]; simpl; [|exact Hf].
    apply filter_In. split; [exact Hf|].
    apply negb_true_iff, Z.eqb_neq. now apply Hpk. }
  rewrite E in Hin. destruct Hin.
Qed.

Lemma clean_fails_unchanged now pk self db db' e :
  AppointmentService_clean now pk self db = (db', inl e) -> db' = db.
Proof.
  unfold AppointmentService_clean.
  repeat match goal with
         | |- context [if ?c then _ else _] => destruct c
         end; intros H; now injection H.
Qed.

Lemma rows_overlap_sym r1 r2 : rows_overlap r1 r2 -> rows_overlap r2 r1.
Proof. unfold rows_overlap. tauto. Qed.

Lemma AppointmentService_save_disjoint now pk self :
  preserves staff_rows_disjoint (AppointmentService_save now pk self).
Proof.
  intros db H. unfold AppointmentService_save, bind.
  destruct (AppointmentService_clean now pk self db) as [db' [e|[]]] eqn:E.
  - apply clean_fails_unchanged in E. now subst.
  - apply clean_ok in E. destruct E as (-> & _ & _ & Hfree).
    assert (forall new r, new = set_as_id self (as_id new) ->
              In r (appointment_services db) ->
              (forall id, pk = Some id -> as_id r <> id) ->
              as_staff new = as_staff r -> ~ rows_overlap new r) as Hnew.
    { intros new r -> Hr Hpk Hst Ho. apply (Hfree r Hr Hpk).
      - now rewrite <- Hst.
      - apply rows_overlap_sym in Ho. exact Ho. }
    destruct pk as [id|]; simpl; intros r1 r2 H1 H2 Hid Hst; simpl in H1, H2.
    + apply upsert_In in H1. apply upsert_In in H2. simpl in H1, H2.
      destruct H1 as [->|[H1 N1]], H2 as [->|[H2 N2]].
      * congruence.
      * apply Hnew; try assumption; [reflexivity|]. intros ? [= <-]. exact N2.
      * intros Ho. apply rows_overlap_sym in Ho. revert Ho.
        apply Hnew; try assumption; [reflexivity | | now symmetry].
        intros ? [= <-]. exact N1.
      * now apply H.
    + apply in_app_or in H1. apply in_app_or in H2.
      destruct H1 as [H1|[<-|[]]], H2 as [H2|[<-|[]]].
      * now apply H.
      * intros Ho. apply rows_overlap_sym in Ho. revert Ho.
        apply Hnew; try assumption; [reflexivity | discriminate | now symmetry].
      * apply Hnew; try assumption; [reflexivity | discriminate].
      * congruence.
Qed.

Lemma Appointment_save_rows pk a db :
  appointment_services (fst (Appointment_save pk a db)) = appointment_services db.
Proof. unfold Appointment_save. now destruct pk. Qed.

Lemma Appointment_save_disjoint pk a :
  preserves staff_rows_disjoint (Appointment_save pk a).
Proof.
  intros db H r1 r2. rewrite Appointment_save_rows. apply H.
Qed.

Lemma create_appointment_disjoint now business staff service start_time cn cp notes :
  preserves staff_rows_disjoint
    (BookingManager.create_appointment now business staff service start_time
       cn cp notes).
Proof.
  unfold BookingManager.create_appointment.
  apply preserves_atomic, preserves_bind; [apply preserves_get|]. intros db.
  destruct (BookingManager.validate_appointment_time _ _ _ _ _ _) as [[|] msg]; simpl.
  - apply preserves_bind; [apply Appointment_save_disjoint|]. intros a.
    apply preserves_bind; [apply AppointmentService_save_disjoint|]. intros _.
    apply preserves_ret.
  - apply preserves_raise.
Qed.

Lemma change_appointment_status_disjoint appointment new_status staff :
  preserves staff_rows_disjoint
    (BookingManager.change_appointment_status appointment new_status staff).
Proof.
  unfold BookingManager.change_appointment_status.
  destruct (Status_eqb _ _); [apply preserves_raise | apply Appointment_save_disjoint].
Qed.

Lemma reschedule_appointment_disjoint now appointment new_start_time staff :
  preserves staff_rows_disjoint
    (BookingManager.reschedule_appointment now appointment new_start_time staff).
Proof.
  unfold BookingManager.reschedule_appointment.
  destruct (status_in _ _); [apply preserves_raise|].
  apply preserves_bind; [apply preserves_get|]. intros db.
  destruct (services_first db _); [|apply preserves_raise].
  destruct (get_service db _); [|apply preserves_raise].
  destruct (BookingManager.validate_appointment_time _ _ _ _ _ _) as [[|] msg]; simpl;
    [|apply preserves_raise].
  apply preserves_bind; [apply preserves_get|]. intros db1.
  destruct (services_first db1 _); [|apply preserves_raise].
  apply preserves_bind; [apply AppointmentService_save_disjoint|]. intros _.
  apply preserves_ret.
Qed.

Lemma cancel_disjoint user_business pk :
  preserves staff_rows_disjoint (AppointmentViewSet.cancel user_business pk).
Proof.
  unfold AppointmentViewSet.cancel. apply preserves_bind.
  - intros db H. unfold AppointmentViewSet.get_object.
    now destruct (find _ _).
  - intros a. destruct (status_in _ _);
      [apply preserves_raise
      | apply preserves_notify, Appointment_save_disjoint].
Qed.

(** *** The states the application can reach *)

Lemma step_disjoint db db' :
  step db db' -> staff_rows_disjoint db -> staff_rows_disjoint db'.
Proof.
  intros Hs H. destruct Hs.
  - now apply create_appointment_disjoint.
  - now apply change_appointment_status_disjoint.
  - now apply reschedule_appointment_disjoint.
  - now apply cancel_disjoint.
  - now apply Appointment_save_disjoint.
  - now apply AppointmentService_save_disjoint.
  - intros r1 r2 H1 H2. simpl in H1, H2.
    apply filter_In in H1. apply filter_In in H2. apply H; tauto.
  - exact H.
Qed.

Lemma reachable_disjoint db : reachable db -> staff_rows_disjoint db.
Proof.
  induction 1 as [|db db' _ IH Hs].
  - intros r1 r2 [].
  - exact (step_disjoint db db' Hs IH).
Qed.

(** *** The rejection of an overlapping proposal *)

Section Overlap.

Variables (now : datetime) (db : Store) (staff : Z).
Variables (start_time end_time : datetime) (exclude : option Z).
Variable r : AppointmentService.

Hypothesis r_in : In r (appointment_services db).
Hypothesis r_staff : as_staff r = staff.
Hypothesis r_active : appointment__status__in db ACTIVE r = true.
Hypothesis r_starts : as_start_time r < end_time.
Hypothesis r_ends : as_end_time r > start_time.
Hypothesis r_kept : truthy exclude = true -> Some (as_appointment r) <> exclude.

Lemma overlap_found :
  exists_ (BookingManager.exclude_appointment exclude
             (BookingManager.overlapping_active db staff start_time end_time))
  = true.
Proof.
  apply exists__true. exists r. apply exclude_appointment_In.
  split; [|exact r_kept]. apply overlapping_active_In. tauto.
Qed.

Lemma validate_rejects_overlap :
  fst (BookingManager.validate_appointment_time now db staff start_time end_time
         exclude) = false.
Proof.
  unfold BookingManager.validate_appointment_time.
  destruct (start_time <? now); [reflexivity|].
  destruct (schedules_first _); [|reflexivity].
  now rewrite overlap_found.
Qed.

Lemma validate_double_booking :
  now <= start_time ->
  BookingManager.covering_schedules db staff start_time end_time <> [] ->
  BookingManager.validate_appointment_time now db staff start_time end_time exclude
  = (false, DOUBLE_BOOKING).
Proof.
  intros Hnow Hcov. unfold BookingManager.validate_appointment_time.
  destruct (Z.ltb_spec start_time now); [lia|].
  destruct (schedules_first _) eqn:E.
  - now rewrite overlap_found.
  - apply min_by_nil in E. contradiction.
Qed.

End Overlap.

Lemma create_appointment_rejected now db business staff service start_time
    client_name client_phone notes message :
  BookingManager.validate_appointment_time now db staff start_time
    (start_time + duration service) None = (false, message) ->
  BookingManager.create_appointment now business staff service start_time
    client_name client_phone notes db
  = (db, inl (ValidationError message)).
Proof.
  intros H. unfold BookingManager.create_appointment, atomic, bind, get.
  now rewrite H.
Qed.

(** C1, as the code has it.  In every database the application can
    reach, no two distinct active rows of one staff member overlap.  A
    proposal that overlaps an active row of the staff member, other than
    the rows of the excluded appointment, is always rejected by the
    validator; the rejection is the double booking one when the start is
    not in the past and a schedule covers the interval, the two checks
    made first.  [create_appointment], which excludes nothing, then fails
    the same way and leaves the database as it was. *)
Theorem overlapping_proposal_rejected :
  forall db : Store,
    reachable db ->
    no_double_booking db
    /\ forall (now : datetime) (staff : Z) (start_time end_time : datetime)
              (exclude : option Z) (r : AppointmentService),
         In r (appointment_services db) ->
         as_staff r = staff ->
         appointment__status__in db ACTIVE r = true ->
         as_start_time r < end_time ->
         as_end_time r > start_time ->
         (truthy exclude = true -> Some (as_appointment r) <> exclude) ->
         exists message,
           BookingManager.validate_appointment_time now db staff start_time
             end_time exclude = (false, message)
           /\ (now <= start_time ->
               BookingManager.covering_schedules db staff start_time end_time <> [] ->
               message = DOUBLE_BOOKING)
           /\ forall business service client_name client_phone notes,
                exclude = None ->
                end_time = start_time + duration service ->
                BookingManager.create_appointment now business staff service
                  start_time client_name client_phone notes db
                = (db, inl (ValidationError message)).
Proof.
  intros db Hreach. split.
  - apply staff_rows_disjoint_no_double_booking, reachable_disjoint, Hreach.
  - intros now staff start_time end_time exclude r Hin Hst Hact Hs He Hex.
    pose proof (validate_rejects_overlap now db staff start_time end_time exclude r
                  Hin Hst Hact Hs He Hex) as Hrej.
    destruct (BookingManager.validate_appointment_time now db staff start_time
                end_time exclude) as [b message] eqn:Hv.
    simpl in Hrej. subst b. exists message. split; [reflexivity|]. split.
    + intros Hnow Hcov.
      pose proof (validate_double_booking now db staff start_time end_time exclude r
                    Hin Hst Hact Hs He Hex Hnow Hcov) as Hd.
      congruence.
    + intros business service cn cp notes -> ->.
      now apply create_appointment_rejected.
Qed.

Lemma db_booked_created :
  BookingManager.create_appointment Scenario.now 1 Scenario.staff Scenario.haircut
    (Scenario.at_ 9 0) "Ada" "555" None Scenario.db_open
  = (Scenario.db_booked, inr Scenario.ada).
Proof. reflexivity. Qed.

Lemma db_booked_reachable : reachable Scenario.db_booked.
Proof.
  apply (reachable_step Scenario.db_open).
  - apply (reachable_step empty_store); [apply reachable_empty|].
    apply (step_catalogue [Scenario.haircut] [Scenario.morning] empty_store).
  - change Scenario.db_booked
      with (fst (Scenario.db_booked, @inr exn _ Scenario.ada)).
    rewrite <- db_booked_created. apply step_create_appointment.
Qed.

(** Booking 09:00 to 09:30 and then proposing 09:15 to 09:45 for the same
    staff member is a double booking. *)
Lemma overlapping_proposal_rejected_witness :
  no_double_booking Scenario.db_booked
  /\ BookingManager.validate_appointment_time Scenario.now Scenario.db_booked
       Scenario.staff (Scenario.at_ 9 15) (Scenario.at_ 9 45) None
     = (false, DOUBLE_BOOKING)
  /\ BookingManager.create_appointment Scenario.now 1 Scenario.staff
       Scenario.haircut (Scenario.at_ 9 15) "Bob" "556" None Scenario.db_booked
     = (Scenario.db_booked, inl (ValidationError DOUBLE_BOOKING)).
Proof.
  destruct (overlapping_proposal_rejected Scenario.db_booked db_booked_reachable)
    as [Hinv Hrej].
  split; [exact Hinv|].
  assert (In Scenario.ada_row (appointment_services Scenario.db_booked)) as Hin
    by (now left).
  assert (as_start_time Scenario.ada_row < Scenario.at_ 9 45) as Hs by reflexivity.
  assert (as_end_time Scenario.ada_row > Scenario.at_ 9 15) as He by reflexivity.
  assert (truthy None = true -> Some (as_appointment Scenario.ada_row) <> None) as Hx
    by discriminate.
  destruct (Hrej Scenario.now Scenario.staff (Scenario.at_ 9 15) (Scenario.at_ 9 45)
              None Scenario.ada_row Hin eq_refl eq_refl Hs He Hx)
    as (message & Hv & Hm & Hc).
  assert (Scenario.now <= Scenario.at_ 9 15) as Hnow by (vm_compute; congruence).
  assert (BookingManager.covering_schedules Scenario.db_booked Scenario.staff
            (Scenario.at_ 9 15) (Scenario.at_ 9 45) <> []) as Hcov
    by (vm_compute; congruence).
  rewrite (Hm Hnow Hcov) in Hv, Hc.
  split; [exact Hv|]. now apply Hc.
Defined.

(** The stated C1 fails: the key of the second row of the appointment is
    not the excluded key, the row is active and overlaps the proposal
    09:15 to 09:45, and the validator accepts the proposal, because it
    excludes every row of appointment 1. *)
Lemma validator_accepts_overlap_with_sibling :
  In Scenario.pair_second (appointment_services Scenario.db_pair)
  /\ as_staff Scenario.pair_second = Scenario.staff
  /\ appointment__status__in Scenario.db_pair ACTIVE Scenario.pair_second = true
  /\ as_id Scenario.pair_second <> 1
  /\ as_start_time Scenario.pair_second < Scenario.at_ 9 45
  /\ as_end_time Scenario.pair_second > Scenario.at_ 9 15
  /\ BookingManager.validate_appointment_time Scenario.now Scenario.db_pair
       Scenario.staff (Scenario.at_ 9 15) (Scenario.at_ 9 45) (Some 1)
     = (true, None).
Proof. repeat split; vm_compute; intuition congruence. Qed.

(** ** Status changes *)

Lemma upsert_find {A} (key : A -> Z) (x : A) (l : list A) :
  find (fun y => key y =? key x) (upsert key x l) = Some x.
Proof.
  unfold upsert. destruct (existsb _ l) eqn:E.
  - induction l as [|y l IH]; simpl in *; [discriminate|].
    destruct (Z.eqb_spec (key y) (key x)) as [Hk|Hk]; simpl.
    + now rewrite Z.eqb_refl.
    + apply Z.eqb_neq in Hk. rewrite Hk. simpl in E. now apply IH.
  - induction l as [|y l IH]; simpl in *.
    + now rewrite Z.eqb_refl.
    + apply orb_false_iff in E. destruct E as [E1 E2]. rewrite E1. now apply IH.
Qed.

Lemma Appointment_save_existing a db :
  let a' := set_total_price a
              (calculate_total_price db (Some (appointment_id a))) in
  exists db',
    Appointment_save (Some (appointment_id a)) a db = (db', inr a')
    /\ get_appointment db' (appointment_id a) = Some a'
    /\ appointment_services db' = appointment_services db
    /\ schedules db' = schedules db.
Proof.
  intros a'. unfold Appointment_save. eexists. split.
  - destruct a; reflexivity.
  - split; [|split; reflexivity]. unfold get_appointment. simpl.
    replace (set_appointment_id
               (set_total_price a (calculate_total_price db (Some (appointment_id a))))
               (appointment_id a)) with a' by (destruct a; reflexivity).
    apply (upsert_find appointment_id a').
Qed.




(** ** Rescheduling *)

Lemma upsert_In_new {A} (key : A -> Z) (x : A) (l : list A) :
  In x (upsert key x l).
Proof.
  unfold upsert. destruct (existsb _ l) eqn:E.
  - apply existsb_exists in E. destruct E as (y & Hy & Hk).
    apply in_map_iff. exists y. now rewrite Hk.
  - apply in_or_app. right. now left.
Qed.

Lemma upsert_In_old {A} (key : A -> Z) (x y : A) (l : list A) :
  In y l -> key y <> key x -> In y (upsert key x l).
Proof.
  intros Hy Hk. unfold upsert. destruct (existsb _ l).
  - apply in_map_iff. exists y. apply Z.eqb_neq in Hk. now rewrite Hk.
  - apply in_or_app. now left.
Qed.

Lemma AppointmentService_save_existing now r db db' res :
  AppointmentService_save now (Some (as_id r)) r db = (db', res) ->
  (forall e, res = inl e -> db' = db)
  /\ (forall r', res = inr r' ->
        r' = r
        /\ appointment_services db' = upsert as_id r (appointment_services db)
        /\ appointments db' = appointments db).
Proof.
  unfold AppointmentService_save, bind.
  destruct (AppointmentService_clean now (Some (as_id r)) r db) as [db1 [e|[]]] eqn:E.
  - apply clean_fails_unchanged in E. subst db1.
    intros H. injection H as <- <-. split; [reflexivity | discriminate].
  - apply clean_ok in E. destruct E as (-> & _). simpl.
    replace (set_as_id r (as_id r)) with r by (destruct r; reflexivity).
    intros H. injection H as <- <-. split; [discriminate|].
    intros r' H. injection H as <-. repeat split.
Qed.

(** What [reschedule_appointment] does.  It fails on a
    COMPLETED or CANCELLED appointment.  Otherwise it moves the first
    service of the appointment, and this row only, to the interval from
    the new start to the new start plus the duration of its service, once
    the validator has accepted this interval with the rows of the
    appointment left out; the move is the shift by the difference between
    the new start and the old one when the row lasted the duration of its
    service.  Every other row keeps its times, and a reschedule that fails
    writes nothing. *)
Theorem reschedule_appointment_moves_first_service :
  forall (now : datetime) (db db' : Store) (appointment : Appointment)
         (new_start_time : datetime) (staff : Z) (res : exn + Appointment),
    BookingManager.reschedule_appointment now appointment new_start_time staff db
    = (db', res) ->
    (status_in (status appointment) [COMPLETED; CANCELLED] = true ->
     res = inl (ValidationError
                  (Some "Cannot reschedule completed or cancelled appointments")))
    /\ (forall e, res = inl e -> db' = db)
    /\ (forall a, res = inr a ->
          a = appointment
          /\ exists first service,
               services_first db (Some (appointment_id appointment)) = Some first
               /\ get_service db (as_service first) = Some service
               /\ BookingManager.validate_appointment_time now db staff new_start_time
                    (new_start_time + duration service)
                    (Some (appointment_id appointment)) = (true, None)
               /\ let moved := set_times first new_start_time
                                 (new_start_time + duration service) in
                  appointment_services db'
                  = upsert as_id moved (appointment_services db)
                  /\ In moved (appointment_services db')
                  /\ as_start_time moved
                     = as_start_time first + time_difference first new_start_time
                  /\ (as_end_time first = as_start_time first + duration service ->
                      as_end_time moved
                      = as_end_time first + time_difference first new_start_time)
                  /\ (forall r, In r (appointment_services db) ->
                                as_id r <> as_id first ->
                                In r (appointment_services db'))).
Proof.
  intros now db db' appointment new_start_time staff res.
  unfold BookingManager.reschedule_appointment.
  destruct (status_in (status appointment) [COMPLETED; CANCELLED]) eqn:Est.
  { unfold raise. intros H. injection H as <- <-.
    split; [reflexivity|]. split; [reflexivity | discriminate]. }
  unfold bind at 1, get.
  destruct (services_first db _) as [first|] eqn:Hf;
    [|unfold raise; intros H; injection H as <- <-;
      split; [discriminate|]; split; [reflexivity | discriminate]].
  destruct (get_service db _) as [service|] eqn:Hs;
    [|unfold raise; intros H; injection H as <- <-;
      split; [discriminate|]; split; [reflexivity | discriminate]].
  destruct (BookingManager.validate_appointment_time _ _ _ _ _ _)
    as [[|] msg] eqn:Hv; simpl;
    [|unfold raise; intros H; injection H as <- <-;
      split; [discriminate|]; split; [reflexivity | discriminate]].
  unfold bind at 1, get. rewrite Hf.
  set (moved := set_times first new_start_time (new_start_time + duration service)).
  change (as_id first) with (as_id moved).
  unfold bind.
  destruct (AppointmentService_save now (Some (as_id moved)) moved db)
    as [db1 [e|r']] eqn:Hsave;
    destruct (AppointmentService_save_existing _ _ _ _ _ Hsave) as [Hfail Hok].
  - intros H. injection H as <- <-. split; [discriminate|].
    split; [|discriminate]. intros e' _. now apply (Hfail e).
  - unfold ret. intros H. injection H as <- <-. split; [discriminate|].
    split; [discriminate|]. intros a H. injection H as <-.
    split; [reflexivity|]. exists first, service.
    destruct (Hok r' eq_refl) as (_ & Hrows & _).
    assert (msg = None) as ->.
    { revert Hv. unfold BookingManager.validate_appointment_time.
      repeat match goal with
             | |- context [if ?c then _ else _] => destruct c
             | |- context [match ?c with Some _ => _ | None => _ end] => destruct c
             end; congruence. }
    repeat split; try assumption.
    + rewrite Hrows. apply upsert_In_new.
    + unfold time_difference. simpl. lia.
    + intros He. unfold time_difference. simpl. lia.
    + intros r Hr Hid. rewrite Hrows. now apply upsert_In_old.
Qed.

(** The appointment has two services, the reschedule to 10:00 succeeds
    and shifts the first by an hour, and the second stays from 09:30 to
    10:00. *)
Lemma reschedule_leaves_second_service :
  services_all Scenario.db_pair (Some 1) = [Scenario.pair_first; Scenario.pair_second]
  /\ time_difference Scenario.pair_first (Scenario.at_ 10 0) = hour
  /\ BookingManager.reschedule_appointment Scenario.now Scenario.pair
       (Scenario.at_ 10 0) Scenario.staff Scenario.db_pair
     = (with_appointment_services Scenario.db_pair
          [set_times Scenario.pair_first (Scenario.at_ 10 0) (Scenario.at_ 10 30);
           Scenario.pair_second] 3,
        inr Scenario.pair).
Proof. repeat split. Qed.

(** Moving Ada's confirmed appointment from 09:00 to 10:15 collides with
    Bob's booking: the reschedule fails and her row stays at 09:00.
    Moving the two-service appointment to 10:00 moves its first row and
    keeps the second. *)
Lemma reschedule_appointment_moves_first_service_witness :
  (snd (BookingManager.reschedule_appointment Scenario.now Scenario.ada_confirmed
          (Scenario.at_ 10 15) Scenario.staff Scenario.db_two)
   = inl (ValidationError DOUBLE_BOOKING)
   /\ fst (BookingManager.reschedule_appointment Scenario.now Scenario.ada_confirmed
             (Scenario.at_ 10 15) Scenario.staff Scenario.db_two)
      = Scenario.db_two)
  /\ In Scenario.pair_second
       (appointment_services
          (fst (BookingManager.reschedule_appointment Scenario.now Scenario.pair
                  (Scenario.at_ 10 0) Scenario.staff Scenario.db_pair))).
Proof.
  split.
  - split; [reflexivity|].
    destruct (BookingManager.reschedule_appointment Scenario.now
                Scenario.ada_confirmed (Scenario.at_ 10 15) Scenario.staff
                Scenario.db_two) as [db' res] eqn:E.
    destruct (reschedule_appointment_moves_first_service _ _ _ _ _ _ _ E)
      as (_ & Hfail & _).
    assert (res = inl (ValidationError DOUBLE_BOOKING)) as Hres
      by (apply (f_equal snd) in E; simpl in E; rewrite <- E; reflexivity).
    exact (Hfail _ Hres).
  - destruct (BookingManager.reschedule_appointment Scenario.now Scenario.pair
                (Scenario.at_ 10 0) Scenario.staff Scenario.db_pair)
      as [db' res] eqn:E.
    destruct (reschedule_appointment_moves_first_service _ _ _ _ _ _ _ E)
      as (_ & _ & Hok).
    assert (res = inr Scenario.pair) as Hres
      by (apply (f_equal snd) in E; simpl in E; rewrite <- E; reflexivity).
    destruct (Hok _ Hres) as (_ & first & service & Hf & _ & _ & _ & _ & _ & _ & Hkeep).
    change (Some Scenario.pair_first = Some first) in Hf. injection Hf as <-.
    simpl. apply Hkeep; [right; now left | discriminate].
Defined.

(** ** What [create_appointment] writes *)

Lemma validate_accepts now db staff start_time end_time exclude message :
  BookingManager.validate_appointment_time now db staff start_time end_time exclude
  = (true, message) ->
  now <= start_time /\ message = None.
Proof.
  unfold BookingManager.validate_appointment_time.
  destruct (Z.ltb_spec start_time now); [discriminate|].
  destruct (schedules_first _); [|discriminate].
  destruct (exists_ _); [discriminate|].
  intros Heq. injection Heq as <-. now split.
Qed.

Lemma create_appointment_ok now db business staff service start_time
    client_name client_phone notes db' a :
  BookingManager.create_appointment now business staff service start_time
    client_name client_phone notes db = (db', inr a) ->
  a = created_appointment db business client_name client_phone notes
  /\ db' = mkStore (services db) (appointments db ++ [a])
             (appointment_services db ++ [created_row db staff service start_time])
             (schedules db) (next_appointment_id db + 1)
             (next_appointment_service_id db + 1).
Proof.
  unfold BookingManager.create_appointment, atomic, bind at 1, get.
  destruct (BookingManager.validate_appointment_time _ _ _ _ _ _) as [[|] msg];
    simpl; [|discriminate].
  unfold Appointment_objects_create, Appointment_save, bind at 1. simpl.
  unfold AppointmentService_objects_create, AppointmentService_save, bind.
  destruct (AppointmentService_clean _ _ _ _) as [db1 [e|[]]] eqn:E; [discriminate|].
  apply clean_ok in E. destruct E as (-> & _). simpl. unfold ret.
  intros H. injection H as <- <-. split; reflexivity.
Qed.

Lemma sum_app l1 l2 : sum (l1 ++ l2) = sum l1 + sum l2.
Proof. unfold sum. induction l1 as [|x l1 IH]; simpl; lia. Qed.

(** C4 against the code.  After a successful [create_appointment] on a
    database whose next appointment key is fresh, the appointment returned
    and stored has a total price of 0, while the sum of the prices of its
    rows is the price of the service: the appointment is saved before its
    row exists and is not saved again. *)
Theorem create_appointment_total_price_stale :
  forall (now : datetime) (db db' : Store) (business staff : Z) (service : Service)
         (start_time : datetime) (client_name client_phone : string)
         (notes : option string) (a : Appointment),
    BookingManager.create_appointment now business staff service start_time
      client_name client_phone notes db = (db', inr a) ->
    (forall x, In x (appointments db) -> appointment_id x <> next_appointment_id db) ->
    (forall r, In r (appointment_services db) ->
               as_appointment r <> next_appointment_id db) ->
    total_price a = 0
    /\ get_appointment db' (appointment_id a) = Some a
    /\ calculate_total_price db' (Some (appointment_id a)) = price service.
Proof.
  intros now db db' business staff service start_time cn cp notes a H Hfa Hfr.
  apply create_appointment_ok in H. destruct H as [-> ->].
  split; [reflexivity|]. split.
  - unfold get_appointment. simpl.
    induction (appointments db) as [|x l IH]; simpl.
    + now rewrite Z.eqb_refl.
    + destruct (Z.eqb_spec (appointment_id x) (next_appointment_id db)) as [E|_].
      * exfalso. apply (Hfa x); [now left | exact E].
      * apply IH. intros y Hy. apply Hfa. now right.
  - unfold calculate_total_price, services_all. simpl.
    rewrite filter_app, map_app, sum_app. simpl. rewrite Z.eqb_refl. simpl.
    rewrite filter_nil; [simpl; lia|].
    intros r Hr. apply Z.eqb_neq. now apply Hfr.
Qed.

Lemma create_appointment_total_price_stale_witness :
  BookingManager.create_appointment Scenario.now 1 Scenario.staff Scenario.haircut
    (Scenario.at_ 9 0) "Ada" "555" None Scenario.db_open
  = (Scenario.db_booked, inr Scenario.ada)
  /\ total_price Scenario.ada = 0
  /\ get_appointment Scenario.db_booked 1 = Some Scenario.ada
  /\ calculate_total_price Scenario.db_booked (Some 1) = 5000.
Proof.
  split; [exact db_booked_created|].
  exact (create_appointment_total_price_stale Scenario.now Scenario.db_open
           Scenario.db_booked 1 Scenario.staff Scenario.haircut (Scenario.at_ 9 0)
           "Ada" "555" None Scenario.ada db_booked_created
           (fun x (H : False) => match H with end)
           (fun r (H : False) => match H with end)).
Defined.

(** The operations that save the appointment after its rows exist leave
    the total price equal to the sum of the prices of the rows: so does
    every accepted status change. *)
Lemma change_appointment_status_total_price db db' appointment new_status staff a :
  BookingManager.change_appointment_status appointment new_status staff db
  = (db', inr a) ->
  total_price a = calculate_total_price db' (Some (appointment_id appointment))
  /\ get_appointment db' (appointment_id appointment) = Some a.
Proof.
  unfold BookingManager.change_appointment_status.
  destruct (Status_eqb _ _); [discriminate|].
  destruct (Appointment_save_existing (set_status appointment new_status) db)
    as (db1 & Hs & Hg & Hr & _).
  change (appointment_id (set_status appointment new_status))
    with (appointment_id appointment) in Hs, Hg.
  rewrite Hs. intros H. injection H as <- <-.
  split; [|exact Hg].
  unfold calculate_total_price, services_all. now rewrite Hr.
Qed.

(** C2 against the code.  When a row of the staff member overlaps the
    proposed interval, [create_appointment] fails even though the
    validator accepts the interval, which it does when the row belongs to
    a cancelled appointment: [AppointmentService.clean] compares the new
    row with every row of the staff member, whatever the status of its
    appointment, and the transaction is rolled back. *)
Theorem create_appointment_blocked_by_any_row :
  forall (now : datetime) (db : Store) (business staff : Z) (service : Service)
         (start_time : datetime) (client_name client_phone : string)
         (notes : option string) (r : AppointmentService),
    BookingManager.validate_appointment_time now db staff start_time
      (start_time + duration service) None = (true, None) ->
    0 < duration service ->
    In r (appointment_services db) ->
    as_staff r = staff ->
    as_start_time r < start_time + duration service ->
    as_end_time r > start_time ->
    BookingManager.create_appointment now business staff service start_time
      client_name client_phone notes db
    = (db, inl (ValidationError STAFF_NOT_AVAILABLE)).
Proof.
  intros now db business staff service start_time cn cp notes r Hv Hd Hin Hst Hs He.
  unfold BookingManager.create_appointment, atomic, bind at 1, get.
  rewrite Hv. simpl.
  apply validate_accepts in Hv. destruct Hv as [Hnow _].
  unfold Appointment_objects_create, Appointment_save, bind at 1. simpl.
  unfold AppointmentService_objects_create, AppointmentService_save, bind.
  unfold AppointmentService_clean. simpl.
  destruct (Z.geb_spec start_time (start_time + duration service)); [lia|].
  destruct (Z.ltb_spec start_time now); [lia|].
  match goal with
  | |- context [exists_ ?l] => assert (exists_ l = true) as ->
  end; [|reflexivity].
  apply exists__true. exists r. apply filter_In. split; [assumption|].
  rewrite !andb_true_iff, Z.eqb_eq, Z.ltb_lt, Z.gtb_gt. lia.
Qed.

(** Ada cancels her appointment of 09:00, which the action stores before
    it fails in its notification; the validator then accepts 09:00 to
    09:30 again, and [create_appointment] still fails on it. *)
Lemma create_appointment_blocked_by_any_row_witness :
  AppointmentViewSet.cancel 1 1 Scenario.db_booked
  = (Scenario.db_cancelled, inl ImportError)
  /\ BookingManager.validate_appointment_time Scenario.now Scenario.db_cancelled
       Scenario.staff (Scenario.at_ 9 0) (Scenario.at_ 9 30) None = (true, None)
  /\ BookingManager.create_appointment Scenario.now 1 Scenario.staff
       Scenario.haircut (Scenario.at_ 9 0) "Bob" "556" None Scenario.db_cancelled
     = (Scenario.db_cancelled, inl (ValidationError STAFF_NOT_AVAILABLE)).
Proof.
  split; [reflexivity|]. split; [reflexivity|].
  apply (create_appointment_blocked_by_any_row Scenario.now Scenario.db_cancelled 1
           Scenario.staff Scenario.haircut (Scenario.at_ 9 0) "Bob" "556" None
           Scenario.ada_row);
    solve [reflexivity | now left].
Defined.

(** ** Several schedules on one day *)

(** C8 against the code.  [BookingManager.get_available_slots] walks one
    schedule only, the one with the smallest primary key among those of
    the staff member on the date: every slot it lists lies within that
    schedule, so no slot of another interval of the day is listed. *)
Theorem get_available_slots_first_schedule_only :
  forall (db : Store) (staff date : Z) (service : Service) (schedule : Schedule)
         (s : Slot),
    schedules_first
      (filter (fun s => (schedule_staff s =? staff) && (schedule_date s =? date))
              (schedules db)) = Some schedule ->
    In s (BookingManager.get_available_slots db staff date service) ->
    combine date (schedule_start_time schedule) <= slot_start_time s
    /\ slot_end_time s <= combine date (schedule_end_time schedule).
Proof.
  intros db staff date service schedule s Hs Hin.
  apply (get_available_slots_In db staff date service schedule s Hs) in Hin.
  destruct Hin as ([k Hk] & _ & He & _). pose proof SLOT_STEP_pos.
  split; [nia | assumption].
Qed.

(** On the split day the afternoon can be booked, and only the two slots
    of the morning interval are listed. *)
Lemma get_available_slots_first_schedule_only_witness :
  BookingManager.validate_appointment_time Scenario.now Scenario.db_split
    Scenario.staff (Scenario.at_ 14 0) (Scenario.at_ 14 30) None = (true, None)
  /\ BookingManager.get_available_slots Scenario.db_split Scenario.staff
       Scenario.date Scenario.haircut
     = [mkSlot (Scenario.at_ 9 0) (Scenario.at_ 9 30);
        mkSlot (Scenario.at_ 9 30) (Scenario.at_ 10 0)]
  /\ forall s,
       In s (BookingManager.get_available_slots Scenario.db_split Scenario.staff
               Scenario.date Scenario.haircut) ->
       slot_end_time s <= Scenario.at_ 10 0.
Proof.
  split; [reflexivity|]. split; [reflexivity|].
  intros s Hs.
  exact (proj2 (get_available_slots_first_schedule_only Scenario.db_split
                  Scenario.staff Scenario.date Scenario.haircut Scenario.early s
                  eq_refl Hs)).
Defined.

(** ** The listing of a business ([booking/utils.py]) *)

Section Listing.

Variable staff_is_active : Z -> bool.
Variable staff_name : Z -> string.

Lemma key_leb_total x y : Utils.key_leb x y = false -> Utils.key_leb y x = true.
Proof.
  unfold Utils.key_leb. intros H. apply orb_false_iff in H. destruct H as [H1 H2].
  apply Z.ltb_ge in H1.
  destruct (Z.ltb_spec (ss_start_time y) (ss_start_time x)); [reflexivity|].
  assert (ss_start_time x = ss_start_time y) as E by lia.
  rewrite E, Z.eqb_refl in *. simpl in *.
  destruct (String.leb_total (ss_staff_name x) (ss_staff_name y)); congruence.
Qed.

Lemma insert_In x y l : In y (Utils.insert x l) <-> y = x \/ In y l.
Proof.
  induction l as [|z l IH]; simpl.
  - intuition.
  - destruct (Utils.key_leb x z); simpl; [intuition|]. rewrite IH. intuition.
Qed.

Lemma sorted_In y l : In y (Utils.sorted l) <-> In y l.
Proof.
  induction l as [|x l IH]; simpl; [tauto|].
  rewrite insert_In, IH. intuition.
Qed.

Lemma insert_Sorted x l : Sorted key_le l -> Sorted key_le (Utils.insert x l).
Proof.
  induction 1 as [|y l Hs IH Hhd]; simpl.
  - repeat constructor.
  - destruct (Utils.key_leb x y) eqn:E.
    + constructor; [now constructor | now constructor].
    + constructor; [exact IH|].
      apply key_leb_total in E.
      destruct l as [|z l]; simpl.
      * now constructor.
      * destruct (Utils.key_leb x z); constructor; [exact E|].
        now inversion Hhd.
Qed.

Lemma sorted_Sorted l : Sorted key_le (Utils.sorted l).
Proof.
  induction l as [|x l IH]; simpl; [constructor | now apply insert_Sorted].
Qed.

(** The loop of the listing is the loop of [BookingManager] on the rows
    of the staff member, each slot carrying the staff member and the
    name. *)
Lemma schedule_loop_slots_loop fuel existing staff duration end_time :
  forall current_time,
    Utils.schedule_loop staff_name fuel existing staff duration end_time current_time
    = map (fun s => mkStaffSlot (slot_start_time s) (slot_end_time s) staff
                      (staff_name staff))
          (BookingManager.slots_loop fuel
             (filter (fun r => as_staff r =? staff) existing)
             duration end_time current_time).
Proof.
  induction fuel as [|fuel IH]; intros c; simpl; [reflexivity|].
  destruct (c + duration <=? end_time); [|reflexivity].
  rewrite map_app, IH. f_equal.
  assert (exists_ (filter (fun r => (as_staff r =? staff)
                                    && (as_start_time r <? c + duration)
                                    && (as_end_time r >? c)) existing)
          = existsb (fun appt => (as_start_time appt <? c + duration)
                                 && (as_end_time appt >? c))
                    (filter (fun r => as_staff r =? staff) existing)) as ->.
  { clear IH. induction existing as [|r l IHl]; simpl; [reflexivity|].
    destruct (as_staff r =? staff); simpl; [|exact IHl].
    destruct ((as_start_time r <? c + duration) && (as_end_time r >? c)); simpl;
      [reflexivity | exact IHl]. }
  now destruct (existsb _ _).
Qed.

(** X1. The listing of a business walks every schedule of the day,
    whatever their number per staff member, and its result is in
    chronological order, slots of one instant by the name of the staff
    member.  A slot is listed exactly when, for one of the schedules, its
    start is the start of the schedule plus a whole number of steps, it
    ends within the schedule, and no row of the day of that staff member
    overlaps it. *)
Theorem listing_walks_every_schedule :
  forall (db : Store) (business : Z) (service : Service) (date : Z)
         (staff : option Z),
    Sorted key_le
      (Utils.get_available_slots staff_is_active staff_name db business service
         date staff)
    /\ forall s,
         In s (Utils.get_available_slots staff_is_active staff_name db business
                 service date staff) <->
         exists schedule,
           In schedule (Utils.day_schedules staff_is_active db business date staff)
           /\ ss_staff s = schedule_staff schedule
           /\ ss_staff_name s = staff_name (schedule_staff schedule)
           /\ (exists k : nat,
                  ss_start_time s
                  = combine date (schedule_start_time schedule)
                    + Z.of_nat k * SLOT_STEP)
           /\ ss_end_time s = ss_start_time s + duration service
           /\ ss_end_time s <= combine date (schedule_end_time schedule)
           /\ forall r,
                In r (Utils.day_appointments db business date staff) ->
                as_staff r = schedule_staff schedule ->
                ~ (as_start_time r < ss_end_time s
                   /\ as_end_time r > ss_start_time s).
Proof.
  intros db business service date staff. split; [apply sorted_Sorted|].
  intros s. unfold Utils.get_available_slots.
  rewrite sorted_In, in_flat_map.
  split; intros (schedule & Hin & H); exists schedule; (split; [exact Hin|]).
  - rewrite schedule_loop_slots_loop in H. apply in_map_iff in H.
    destruct H as (sl & <- & Hsl). simpl.
    apply slots_from_In in Hsl. destruct Hsl as (Hk & He & Hle & Hfree).
    repeat split; try assumption.
    intros r Hr Hst. apply Hfree. apply filter_In. split; [assumption|].
    now apply Z.eqb_eq.
  - destruct H as (Hst & Hn & Hk & He & Hle & Hfree).
    rewrite schedule_loop_slots_loop. apply in_map_iff.
    exists (mkSlot (ss_start_time s) (ss_end_time s)). split.
    + destruct s as [a b c d]. simpl in *. now subst.
    + apply slots_from_In. simpl. repeat split; try assumption.
      intros r Hr. apply filter_In in Hr. destruct Hr as [Hr E].
      apply Z.eqb_eq in E. now apply Hfree.
Qed.

End Listing.

(** On the split day the listing of the business has the four slots of
    the two intervals. *)
Lemma listing_of_split_day :
  Utils.get_available_slots (fun _ => true) (fun _ => "Dana") Scenario.db_split 1
    Scenario.haircut Scenario.date None
  = [mkStaffSlot (Scenario.at_ 9 0) (Scenario.at_ 9 30) Scenario.staff "Dana";
     mkStaffSlot (Scenario.at_ 9 30) (Scenario.at_ 10 0) Scenario.staff "Dana";
     mkStaffSlot (Scenario.at_ 14 0) (Scenario.at_ 14 30) Scenario.staff "Dana";
     mkStaffSlot (Scenario.at_ 14 30) (Scenario.at_ 15 0) Scenario.staff "Dana"].
Proof. reflexivity. Qed.

(** ** The [reschedule] action of the view

    The action shifts every service of the appointment by the same
    difference, as the two services of this appointment moved to 10:00,
    and then fails in its notification. *)
Lemma view_reschedule_shifts_every_service :
  AppointmentViewSet.reschedule Scenario.now 1 1 1 (Scenario.at_ 10 0) Scenario.db_pair
  = (with_appointment_services Scenario.db_pair
       [set_times Scenario.pair_first (Scenario.at_ 10 0) (Scenario.at_ 10 30);
        set_times Scenario.pair_second (Scenario.at_ 10 30) (Scenario.at_ 11 0)] 3,
     inl ImportError).
Proof. reflexivity. Qed.

(** Its availability test excludes nothing: an appointment cannot be moved
    to a time that overlaps its own current slot. *)
Lemma view_reschedule_conflicts_with_itself :
  AppointmentViewSet.reschedule Scenario.now 1 1 1 (Scenario.at_ 9 15)
    Scenario.db_booked
  = (Scenario.db_booked, inl StaffUnavailableError).
Proof. reflexivity. Qed.

(** It tests every service at the new start, not at its shifted time, and
    saves the services one by one outside any transaction: here the second
    service lands on Carl's booking, the action fails, and the first
    service has been moved to 10:00. *)
Lemma view_reschedule_partial_write :
  AppointmentViewSet.reschedule Scenario.now 1 1 1 (Scenario.at_ 10 0)
    Scenario.db_three
  = (with_appointment_services Scenario.db_three
       [set_times Scenario.pair_first (Scenario.at_ 10 0) (Scenario.at_ 10 30);
        Scenario.pair_second; Scenario.carl_row] 4,
     inl (ValidationError STAFF_NOT_AVAILABLE)).
Proof. reflexivity. Qed.

(** C5 against the code, at two inputs.  Asked to move the appointment of
    two services from 09:00 to 10:00, [BookingManager.reschedule_appointment]
    moves the first row by an hour and leaves the second from 09:30 to
    10:00, where the [reschedule] action of the view moves both rows.
    Asked for the same move when Carl holds 10:30 to 11:00, the action of
    the view moves the first row, fails on the second, and leaves the
    first row moved. *)
Theorem reschedule_neither_uniform_nor_all_or_nothing :
  services_all Scenario.db_pair (Some 1) = [Scenario.pair_first; Scenario.pair_second]
  /\ time_difference Scenario.pair_first (Scenario.at_ 10 0) = hour
  /\ BookingManager.reschedule_appointment Scenario.now Scenario.pair
       (Scenario.at_ 10 0) Scenario.staff Scenario.db_pair
     = (with_appointment_services Scenario.db_pair
          [set_times Scenario.pair_first (Scenario.at_ 10 0) (Scenario.at_ 10 30);
           Scenario.pair_second] 3,
        inr Scenario.pair)
  /\ fst (AppointmentViewSet.reschedule Scenario.now 1 1 1 (Scenario.at_ 10 0)
            Scenario.db_pair)
     = with_appointment_services Scenario.db_pair
         [set_times Scenario.pair_first (Scenario.at_ 10 0) (Scenario.at_ 10 30);
          set_times Scenario.pair_second (Scenario.at_ 10 30) (Scenario.at_ 11 0)] 3
  /\ services_all Scenario.db_three (Some 1)
     = [Scenario.pair_first; Scenario.pair_second]
  /\ AppointmentViewSet.reschedule Scenario.now 1 1 1 (Scenario.at_ 10 0)
       Scenario.db_three
     = (with_appointment_services Scenario.db_three
          [set_times Scenario.pair_first (Scenario.at_ 10 0) (Scenario.at_ 10 30);
           Scenario.pair_second; Scenario.carl_row] 4,
        inl (ValidationError STAFF_NOT_AVAILABLE)).
Proof. repeat split. Qed.

(** * Further properties of the code *)

(** ** The availability test of the view and the validator *)

Lemma available_as_validated now db staff start_time duration :
  now <= start_time ->
  AppointmentViewSet._is_staff_available db staff start_time duration
  = fst (BookingManager.validate_appointment_time now db staff start_time
           (start_time + duration) None).
Proof.
  intros Hnow.
  unfold AppointmentViewSet._is_staff_available,
    BookingManager.validate_appointment_time.
  destruct (Z.ltb_spec start_time now); [lia|].
  destruct (schedules_first _) eqn:E.
  - destruct (exists_ (BookingManager.covering_schedules _ _ _ _)) eqn:E'.
    + simpl. unfold BookingManager.exclude_appointment. simpl.
      now destruct (exists_ (BookingManager.overlapping_active _ _ _ _)).
    + apply schedules_first_exists in E'. congruence.
  - apply schedules_first_exists in E. now rewrite E.
Qed.

(** X2. For a start that is not in the past, the availability test of
    [AppointmentViewSet] says what the validator says without exclusion:
    the staff member is available from the start for the duration exactly
    when [validate_appointment_time] accepts the interval. *)
Theorem is_staff_available_is_the_validator :
  forall (now : datetime) (db : Store) (staff : Z) (start_time : datetime)
         (duration : timedelta),
    now <= start_time ->
    AppointmentViewSet._is_staff_available db staff start_time duration
    = fst (BookingManager.validate_appointment_time now db staff start_time
             (start_time + duration) None).
Proof.
  intros now db staff start_time duration Hnow. now apply available_as_validated.
Qed.

Lemma is_staff_available_is_the_validator_witness :
  AppointmentViewSet._is_staff_available Scenario.db_booked Scenario.staff
    (Scenario.at_ 9 15) (minutes 30)
  = fst (BookingManager.validate_appointment_time Scenario.now Scenario.db_booked
           Scenario.staff (Scenario.at_ 9 15) (Scenario.at_ 9 15 + minutes 30) None)
  /\ AppointmentViewSet._is_staff_available Scenario.db_booked Scenario.staff
       (Scenario.at_ 9 30) (minutes 30) = true.
Proof.
  split; [|reflexivity].
  apply (is_staff_available_is_the_validator Scenario.now Scenario.db_booked
           Scenario.staff (Scenario.at_ 9 15) (minutes 30)).
  vm_compute. congruence.
Defined.

Lemma calculate_loop_In fuel db staff duration end_time :
  forall current_time s,
    In s (AppointmentViewSet.calculate_loop fuel db staff duration end_time
            current_time) ->
    slot_end_time s = slot_start_time s + duration
    /\ AppointmentViewSet._is_staff_available db staff (slot_start_time s) duration
       = true.
Proof.
  induction fuel as [|fuel IH]; intros c s; simpl; [contradiction|].
  destruct (c + duration <=? end_time); [|contradiction].
  rewrite in_app_iff. intros [H|H]; [|now apply (IH _ _ H)].
  destruct (AppointmentViewSet._is_staff_available db staff c duration) eqn:E;
    [|contradiction].
  destruct H as [<-|[]]. simpl. now split.
Qed.

Lemma calculate_loop_grid fuel db staff duration end_time :
  forall current_time s,
    In s (AppointmentViewSet.calculate_loop fuel db staff duration end_time
            current_time) ->
    (exists k : nat, slot_start_time s = current_time + Z.of_nat k * SLOT_STEP)
    /\ slot_start_time s + duration <= end_time.
Proof.
  induction fuel as [|fuel IH]; intros c s; simpl; [contradiction|].
  destruct (Z.leb_spec (c + duration) end_time) as [Hle|]; [|contradiction].
  rewrite in_app_iff. intros [H|H].
  - destruct (AppointmentViewSet._is_staff_available db staff c duration);
      [|contradiction].
    destruct H as [<-|[]]. simpl. split; [exists 0%nat; lia | exact Hle].
  - apply IH in H. destruct H as [[k Hk] Hfit]. split; [|exact Hfit].
    exists (S k). rewrite Hk. lia.
Qed.

(** X3. Every slot that the [available_slots] action lists starts on the
    grid of 30 minutes from the start of the schedule, lasts the duration
    of the service, ends by the end of the schedule and passes the
    availability test of the view; it is accepted by the validator as
    long as its start is not in the past. *)
Theorem offered_slots_pass_the_validator :
  forall (now : datetime) (db : Store) (staff : Z) (service : Service)
         (schedule : Schedule) (s : Slot),
    In s (AppointmentViewSet._calculate_available_slots db staff service schedule) ->
    (exists k : nat,
       slot_start_time s
       = combine (schedule_date schedule) (schedule_start_time schedule)
         + Z.of_nat k * SLOT_STEP)
    /\ slot_end_time s = slot_start_time s + duration service
    /\ slot_end_time s
       <= combine (schedule_date schedule) (schedule_end_time schedule)
    /\ AppointmentViewSet._is_staff_available db staff (slot_start_time s)
         (duration service) = true
    /\ (now <= slot_start_time s ->
        BookingManager.validate_appointment_time now db staff (slot_start_time s)
          (slot_end_time s) None = (true, None)).
Proof.
  intros now db staff service schedule s Hin.
  pose proof (calculate_loop_grid _ _ _ _ _ _ _ Hin) as [Hgrid Hfit].
  apply calculate_loop_In in Hin. destruct Hin as [He Ha].
  split; [exact Hgrid|]. split; [exact He|]. split; [rewrite He; exact Hfit|].
  split; [exact Ha|]. intros Hnow.
  rewrite (available_as_validated now) in Ha by assumption.
  rewrite He.
  destruct (BookingManager.validate_appointment_time _ _ _ _ _ _) as [b m] eqn:Hv.
  simpl in Ha. subst b. apply validate_accepts in Hv. now destruct Hv as [_ ->].
Qed.

Lemma offered_slots_pass_the_validator_witness :
  In (mkSlot (Scenario.at_ 9 30) (Scenario.at_ 10 0))
     (AppointmentViewSet._calculate_available_slots Scenario.db_booked
        Scenario.staff Scenario.haircut Scenario.morning)
  /\ BookingManager.validate_appointment_time Scenario.now Scenario.db_booked
       Scenario.staff (Scenario.at_ 9 30) (Scenario.at_ 10 0) None = (true, None)
  /\ ~ In (mkSlot (Scenario.at_ 9 0) (Scenario.at_ 9 30))
         (AppointmentViewSet._calculate_available_slots Scenario.db_booked
            Scenario.staff Scenario.haircut Scenario.morning).
Proof.
  assert (In (mkSlot (Scenario.at_ 9 30) (Scenario.at_ 10 0))
             (AppointmentViewSet._calculate_available_slots Scenario.db_booked
                Scenario.staff Scenario.haircut Scenario.morning)) as Hin
    by (vm_compute; tauto).
  split; [exact Hin|]. split.
  - apply (offered_slots_pass_the_validator Scenario.now Scenario.db_booked
             Scenario.staff Scenario.haircut Scenario.morning _ Hin).
    vm_compute. congruence.
  - intros H.
    destruct (offered_slots_pass_the_validator Scenario.now Scenario.db_booked
                Scenario.staff Scenario.haircut Scenario.morning _ H)
      as (_ & _ & _ & Ha & _).
    vm_compute in Ha. discriminate Ha.
Defined.

(** ** The order and the number of the slots *)

Lemma slots_loop_from fuel existing duration end_time :
  forall current_time s,
    In s (BookingManager.slots_loop fuel existing duration end_time current_time) ->
    current_time <= slot_start_time s
    /\ slot_end_time s = slot_start_time s + duration.
Proof.
  pose proof SLOT_STEP_pos as Hp.
  induction fuel as [|fuel IH]; intros c s; simpl; [contradiction|].
  destruct (c + duration <=? end_time); [|contradiction].
  rewrite in_app_iff. intros [H|H].
  - destruct (negb _); [|contradiction]. destruct H as [<-|[]]. simpl. lia.
  - destruct (IH _ _ H). split; [lia | assumption].
Qed.

Lemma slots_loop_sorted fuel existing duration end_time :
  forall current_time,
    StronglySorted slot_before
      (BookingManager.slots_loop fuel existing duration end_time current_time).
Proof.
  pose proof SLOT_STEP_pos as Hp.
  induction fuel as [|fuel IH]; intros c; simpl; [constructor|].
  destruct (c + duration <=? end_time); [|constructor].
  destruct (negb _); simpl; [|apply IH].
  constructor; [apply IH|].
  apply Forall_forall. intros s Hs. apply slots_loop_from in Hs.
  unfold slot_before. simpl. lia.
Qed.

Lemma slots_loop_length fuel existing duration end_time :
  forall current_time,
    (List.length (BookingManager.slots_loop fuel existing duration end_time current_time)
     <= fuel)%nat.
Proof.
  induction fuel as [|fuel IH]; intros c; simpl; [lia|].
  destruct (c + duration <=? end_time); simpl; [|lia].
  rewrite List.length_app. specialize (IH (c + SLOT_STEP)).
  destruct (negb _); simpl; lia.
Qed.

(** X4. Whatever the calendar, [BookingManager.get_available_slots]
    lists its slots in chronological order, no two starting at the same
    instant, each lasting the duration of the service; and their number is
    at most the number of 30-minute steps that fit between the start of
    the schedule it walks and the last start that leaves room for the
    service. *)
Theorem get_available_slots_in_order :
  forall (db : Store) (staff date : Z) (service : Service),
    StronglySorted slot_before
      (BookingManager.get_available_slots db staff date service)
    /\ (forall s,
          In s (BookingManager.get_available_slots db staff date service) ->
          slot_end_time s = slot_start_time s + duration service)
    /\ (forall schedule,
          schedules_first
            (filter (fun s => (schedule_staff s =? staff)
                              && (schedule_date s =? date))
                    (schedules db)) = Some schedule ->
          Z.of_nat (List.length (BookingManager.get_available_slots db staff date service))
          <= Z.max 0
               ((schedule_end_time schedule - schedule_start_time schedule
                 - duration service) / SLOT_STEP + 1)).
Proof.
  intros db staff date service. unfold BookingManager.get_available_slots.
  destruct (schedules_first _) as [schedule|].
  - unfold BookingManager.slots_from. split; [apply slots_loop_sorted|]. split.
    + intros s Hs. now apply slots_loop_from in Hs.
    + intros ? [= <-].
      match goal with
      | |- Z.of_nat (List.length (BookingManager.slots_loop ?f ?ex ?d ?e ?c)) <= _ =>
          pose proof (slots_loop_length f ex d e c) as Hl;
          set (n := List.length (BookingManager.slots_loop f ex d e c)) in *
      end.
      unfold BookingManager.loop_fuel in Hl.
      replace (combine date (schedule_end_time schedule) - duration service
               - combine date (schedule_start_time schedule))
        with (schedule_end_time schedule - schedule_start_time schedule
              - duration service) in Hl by (unfold combine; lia).
      lia.
  - split; [constructor|]. split; [intros s []|]. intros ? [=].
Qed.

(** ** The slots of [BookingManager] and the validator *)

Lemma date_of_bounds dt : date_of dt * day <= dt < (date_of dt + 1) * day.
Proof.
  unfold date_of. pose proof day_pos as Hd.
  pose proof (Z.mul_div_le dt day Hd).
  pose proof (Z.mul_succ_div_gt dt day Hd). lia.
Qed.

Lemma date_of_unique dt date :
  date * day <= dt < (date + 1) * day -> date_of dt = date.
Proof.
  intros H. pose proof (date_of_bounds dt) as Hb. pose proof day_pos as Hd.
  destruct (Z.lt_trichotomy (date_of dt) date) as [L|[E|G]]; [|exact E|]; exfalso.
  - assert ((date_of dt + 1) * day <= date * day)
      by (apply Z.mul_le_mono_nonneg_r; lia).
    lia.
  - assert ((date + 1) * day <= date_of dt * day)
      by (apply Z.mul_le_mono_nonneg_r; lia).
    lia.
Qed.

(** X5. When schedules hold times of day, the duration of the service is
    not negative and no active row of the staff member runs past the
    midnight that follows its start, every slot that
    [BookingManager.get_available_slots] lists is accepted by the
    validator as long as its start is not in the past. *)
Theorem listed_slots_pass_the_validator :
  forall (now : datetime) (db : Store) (staff date : Z) (service : Service)
         (s : Slot),
    schedule_times_in_day db ->
    0 <= duration service ->
    (forall r, In r (appointment_services db) -> as_staff r = staff ->
               appointment__status__in db ACTIVE r = true -> ends_by_midnight r) ->
    In s (BookingManager.get_available_slots db staff date service) ->
    now <= slot_start_time s ->
    BookingManager.validate_appointment_time now db staff (slot_start_time s)
      (slot_end_time s) None = (true, None).
Proof.
  intros now db staff date service s Htimes Hd Hrows Hin Hnow.
  pose proof SLOT_STEP_pos as Hp. pose proof day_pos as Hday.
  destruct (schedules_first
              (filter (fun s => (schedule_staff s =? staff)
                                && (schedule_date s =? date))
                      (schedules db))) as [schedule|] eqn:Hs.
  2:{ unfold BookingManager.get_available_slots in Hin. rewrite Hs in Hin.
      destruct Hin. }
  apply (get_available_slots_In db staff date service schedule s Hs) in Hin.
  destruct Hin as ([k Hk] & He & Hle & Hfree).
  apply min_by_In in Hs. apply filter_In in Hs. destruct Hs as [Hsin Hsd].
  apply andb_true_iff in Hsd. rewrite !Z.eqb_eq in Hsd. destruct Hsd as [Hst Hdt].
  destruct (Htimes schedule Hsin) as [H0 H1].
  unfold combine in Hk, Hle.
  assert (date * day <= slot_start_time s < (date + 1) * day) as Bs by nia.
  assert (date * day <= slot_end_time s < (date + 1) * day) as Be by nia.
  assert (date_of (slot_start_time s) = date) as Ds by now apply date_of_unique.
  assert (time_of (slot_start_time s) = slot_start_time s - date * day) as Ts.
  { unfold time_of. rewrite Z.mod_eq by lia. fold (date_of (slot_start_time s)).
    rewrite Ds. lia. }
  assert (time_of (slot_end_time s) = slot_end_time s - date * day) as Te.
  { unfold time_of. rewrite Z.mod_eq by lia. fold (date_of (slot_end_time s)).
    rewrite (date_of_unique _ date Be). lia. }
  unfold BookingManager.validate_appointment_time.
  destruct (Z.ltb_spec (slot_start_time s) now); [lia|].
  destruct (schedules_first (BookingManager.covering_schedules _ _ _ _)) eqn:Ec.
  - assert (BookingManager.overlapping_active db staff (slot_start_time s)
              (slot_end_time s) = []) as ->; [|reflexivity].
    apply filter_nil. intros r Hr.
    destruct (Z.eqb_spec (as_staff r) staff) as [Est|]; [|reflexivity].
    destruct (Z.ltb_spec (as_start_time r) (slot_end_time s)) as [Hl|];
      [|reflexivity].
    destruct (Z.gtb_spec (as_end_time r) (slot_start_time s)) as [Hg|];
      [|reflexivity].
    destruct (appointment__status__in db ACTIVE r) eqn:Ea; [|reflexivity].
    exfalso. apply (Hfree r Hr Est); [|assumption | lia].
    specialize (Hrows r Hr Est Ea). unfold ends_by_midnight, combine in Hrows.
    pose proof (date_of_bounds (as_start_time r)) as Hb.
    destruct (Z.lt_trichotomy (date_of (as_start_time r)) date) as [L|[E|G]];
      [|exact E|]; exfalso.
    + assert ((date_of (as_start_time r) + 1) * day <= date * day)
        by (apply Z.mul_le_mono_nonneg_r; lia).
      lia.
    + assert ((date + 1) * day <= date_of (as_start_time r) * day)
        by (apply Z.mul_le_mono_nonneg_r; lia).
      lia.
  - exfalso. apply min_by_nil in Ec.
    assert (In schedule (BookingManager.covering_schedules db staff
                           (slot_start_time s) (slot_end_time s))) as Hc.
    { apply filter_In. split; [assumption|].
      rewrite Ds, Ts, Te, !andb_true_iff, !Z.eqb_eq, Z.leb_le, Z.geb_le. lia. }
    rewrite Ec in Hc. destruct Hc.
Qed.

Lemma listed_slots_pass_the_validator_witness :
  In (mkSlot (Scenario.at_ 9 30) (Scenario.at_ 10 0))
     (BookingManager.get_available_slots Scenario.db_booked Scenario.staff
        Scenario.date Scenario.haircut)
  /\ BookingManager.validate_appointment_time Scenario.now Scenario.db_booked
       Scenario.staff (Scenario.at_ 9 30) (Scenario.at_ 10 0) None = (true, None).
Proof.
  assert (In (mkSlot (Scenario.at_ 9 30) (Scenario.at_ 10 0))
             (BookingManager.get_available_slots Scenario.db_booked Scenario.staff
                Scenario.date Scenario.haircut)) as Hin
    by (vm_compute; tauto).
  split; [exact Hin|].
  apply (listed_slots_pass_the_validator Scenario.now Scenario.db_booked
           Scenario.staff Scenario.date Scenario.haircut
           (mkSlot (Scenario.at_ 9 30) (Scenario.at_ 10 0))); try exact Hin.
  - intros s [<-|[]]. vm_compute. split; congruence.
  - vm_compute. congruence.
  - intros r [<-|[]] _ _. vm_compute. congruence.
  - vm_compute. congruence.
Defined.

(** ** The slots of [ServiceViewSet] *)


Lemma existsb_insert_by {A} (f : A -> bool) (key : A -> Z) (x : A) (l : list A) :
  existsb f (insert_by key x l) = f x || existsb f l.
Proof.
  induction l as [|y l IH]; simpl; [reflexivity|].
  destruct (key x <=? key y); simpl; [reflexivity|].
  rewrite IH. now destruct (f x), (f y).
Qed.

Lemma existsb_order_by {A} (f : A -> bool) (key : A -> Z) (l : list A) :
  existsb f (order_by key l) = existsb f l.
Proof.
  induction l as [|x l IH]; simpl; [reflexivity|].
  now rewrite existsb_insert_by, IH.
Qed.

Lemma service_slots_of_first_schedule db staff date service schedule :
  schedules_first
    (filter (fun s => (schedule_staff s =? staff) && (schedule_date s =? date))
            (schedules db)) = Some schedule ->
  ServiceViewSet._get_available_slots db staff schedule service date
  = BookingManager.get_available_slots db staff date service.
Proof.
  intros Hs.
  unfold ServiceViewSet._get_available_slots, BookingManager.get_available_slots.
  rewrite Hs. unfold BookingManager.slots_from.
  generalize (BookingManager.loop_fuel (duration service)
                (combine date (schedule_end_time schedule))
                (combine date (schedule_start_time schedule))).
  intros fuel. generalize (combine date (schedule_start_time schedule)).
  induction fuel as [|fuel IH]; intros c; simpl; [reflexivity|].
  destruct (c + duration service <=? combine date (schedule_end_time schedule));
    [|reflexivity].
  rewrite IH, exists_filter_existsb, existsb_order_by. reflexivity.
Qed.

(** X6. [ServiceViewSet._get_available_slots], called as the
    [availability] action calls it, with the first schedule of the staff
    member on the date, lists the slots of
    [BookingManager.get_available_slots]. *)
Theorem service_availability_is_get_available_slots :
  forall (db : Store) (staff date : Z) (service : Service) (schedule : Schedule),
    schedules_first
      (filter (fun s => (schedule_staff s =? staff) && (schedule_date s =? date))
              (schedules db)) = Some schedule ->
    ServiceViewSet._get_available_slots db staff schedule service date
    = BookingManager.get_available_slots db staff date service.
Proof.
  intros db staff date service schedule. apply service_slots_of_first_schedule.
Qed.

Lemma service_availability_is_get_available_slots_witness :
  ServiceViewSet._get_available_slots Scenario.db_booked Scenario.staff
    Scenario.morning Scenario.haircut Scenario.date
  = BookingManager.get_available_slots Scenario.db_booked Scenario.staff
      Scenario.date Scenario.haircut
  /\ List.length (ServiceViewSet._get_available_slots Scenario.db_booked Scenario.staff
               Scenario.morning Scenario.haircut Scenario.date) = 5%nat.
Proof.
  split; [|reflexivity].
  exact (service_availability_is_get_available_slots Scenario.db_booked
           Scenario.staff Scenario.date Scenario.haircut Scenario.morning eq_refl).
Defined.

(** ** What every write keeps *)

(** A property that the two [save]s, the deletion of the rows of an
    appointment and the administration of the catalogue keep is kept by
    every step. *)
Lemma step_preserves (P : Store -> Prop) :
  (forall now pk r, preserves P (AppointmentService_save now pk r)) ->
  (forall pk a, preserves P (Appointment_save pk a)) ->
  (forall id db, P db -> P (without_appointment db id)) ->
  (forall services' schedules' db, P db -> P (with_catalogue db services' schedules')) ->
  forall db db', step db db' -> P db -> P db'.
Proof.
  intros Hrow Happ Hdel Hcat db db' Hs H. destruct Hs.
  - revert H. unfold BookingManager.create_appointment.
    apply preserves_atomic, preserves_bind; [apply preserves_get|]. intros db0.
    destruct (BookingManager.validate_appointment_time _ _ _ _ _ _) as [[|] msg];
      simpl; [|apply preserves_raise].
    apply preserves_bind; [apply Happ|]. intros a.
    apply preserves_bind; [apply Hrow|]. intros _. apply preserves_ret.
  - revert H. unfold BookingManager.change_appointment_status.
    destruct (Status_eqb _ _); [apply preserves_raise | apply Happ].
  - revert H. unfold BookingManager.reschedule_appointment.
    destruct (status_in _ _); [apply preserves_raise|].
    apply preserves_bind; [apply preserves_get|]. intros db0.
    destruct (services_first db0 _); [|apply preserves_raise].
    destruct (get_service db0 _); [|apply preserves_raise].
    destruct (BookingManager.validate_appointment_time _ _ _ _ _ _) as [[|] msg];
      simpl; [|apply preserves_raise].
    apply preserves_bind; [apply preserves_get|]. intros db1.
    destruct (services_first db1 _); [|apply preserves_raise].
    apply preserves_bind; [apply Hrow|]. intros _. apply preserves_ret.
  - revert H. unfold AppointmentViewSet.cancel. apply preserves_bind.
    + intros db0 H0. unfold AppointmentViewSet.get_object. now destruct (find _ _).
    + intros a. destruct (status_in _ _);
        [apply preserves_raise | apply preserves_notify, Happ].
  - now apply Happ.
  - now apply Hrow.
  - now apply Hdel.
  - now apply Hcat.
Qed.

Lemma AppointmentService_save_well_formed now pk self :
  preserves rows_well_formed (AppointmentService_save now pk self).
Proof.
  intros db H. unfold AppointmentService_save, bind.
  destruct (AppointmentService_clean now pk self db) as [db' [e|[]]] eqn:E.
  - apply clean_fails_unchanged in E. now subst.
  - apply clean_ok in E. destruct E as (-> & Hlt & _).
    destruct pk as [id|]; simpl; intros r Hr; simpl in Hr.
    + apply upsert_In in Hr. destruct Hr as [->|[Hr _]]; [exact Hlt | now apply H].
    + apply in_app_or in Hr. destruct Hr as [Hr|[<-|[]]]; [now apply H | exact Hlt].
Qed.

(** X7. In every database the application can reach, every
    [AppointmentService] row starts before it ends: all the writes go
    through [AppointmentService.clean], which refuses the others. *)
Theorem reachable_rows_well_formed :
  forall db : Store, reachable db -> rows_well_formed db.
Proof.
  induction 1 as [|db db' _ IH Hs].
  - intros r [].
  - revert IH. apply step_preserves with (P := rows_well_formed); try assumption.
    + apply AppointmentService_save_well_formed.
    + intros pk a db0 H r. rewrite Appointment_save_rows. apply H.
    + intros id db0 H r Hr. simpl in Hr. apply filter_In in Hr. now apply H.
    + intros s sc db0 H. exact H.
Qed.

Lemma reachable_rows_well_formed_witness :
  as_start_time Scenario.ada_row < as_end_time Scenario.ada_row.
Proof.
  apply (reachable_rows_well_formed Scenario.db_booked db_booked_reachable).
  now left.
Defined.

(** ** The total price after a status operation *)

Lemma upsert_find_pred {A} (key : A -> Z) (g : A -> bool) (x : A) (l : list A) :
  g x = true ->
  (exists y, In y l /\ key y = key x) ->
  find (fun y => (key y =? key x) && g y) (upsert key x l) = Some x.
Proof.
  intros Hg Hex. unfold upsert.
  assert (existsb (fun y => key y =? key x) l = true) as ->.
  { destruct Hex as (y & Hy & Hk). apply existsb_exists. exists y.
    split; [assumption | now apply Z.eqb_eq]. }
  induction l as [|y l IH]; simpl.
  - destruct Hex as (y & [] & _).
  - destruct (Z.eqb_spec (key y) (key x)) as [Hk|Hk]; simpl.
    + now rewrite Z.eqb_refl, Hg.
    + apply Z.eqb_neq in Hk. rewrite Hk. simpl. apply IH.
      destruct Hex as (z & [->|Hz] & Hkz); [|now exists z].
      apply Z.eqb_neq in Hk. contradiction.
Qed.

Lemma upsert_find_other {A} (key : A -> Z) (x : A) (l : list A) (k : Z) :
  key x <> k ->
  find (fun y => key y =? k) (upsert key x l) = find (fun y => key y =? k) l.
Proof.
  intros Hk. unfold upsert. destruct (existsb _ l).
  - induction l as [|y l IH]; simpl; [reflexivity|].
    destruct (Z.eqb_spec (key y) (key x)) as [E|E].
    + assert ((key y =? k) = false) as -> by (apply Z.eqb_neq; congruence).
      apply Z.eqb_neq in Hk. rewrite Hk. exact IH.
    + destruct (key y =? k); [reflexivity | exact IH].
  - induction l as [|y l IH]; simpl.
    + apply Z.eqb_neq in Hk. now rewrite Hk.
    + destruct (key y =? k); [reflexivity | exact IH].
Qed.

Lemma get_object_found user_business pk db db' a :
  AppointmentViewSet.get_object user_business pk db = (db', inr a) ->
  db' = db /\ In a (appointments db) /\ appointment_id a = pk
  /\ business a = user_business.
Proof.
  unfold AppointmentViewSet.get_object.
  destruct (find _ _) as [x|] eqn:E; [|discriminate].
  intros H. injection H as <- <-. apply find_some in E. destruct E as [Hin Hb].
  apply andb_true_iff in Hb. rewrite !Z.eqb_eq in Hb. tauto.
Qed.

Lemma Appointment_save_total_price a db db' a' :
  Appointment_save (Some (appointment_id a)) a db = (db', inr a') ->
  total_price a' = calculate_total_price db' (Some (appointment_id a))
  /\ get_appointment db' (appointment_id a) = Some a'
  /\ status a' = status a.
Proof.
  destruct (Appointment_save_existing a db) as (db1 & Hs & Hg & Hr & _).
  rewrite Hs. intros H. injection H as <- <-.
  split; [|split; [exact Hg | reflexivity]].
  unfold calculate_total_price, services_all. now rewrite Hr.
Qed.

(** X8. Every status operation that saves the appointment stores it with
    a total price equal to the sum of the prices of its rows:
    [change_appointment_status] and [complete] when they succeed, which
    also return it, and [cancel] when it has passed its checks and saved,
    after which its notification raises [ImportError]. *)
Theorem status_operations_recompute_total_price :
  forall (db db' : Store) (appointment a : Appointment) (new_status : Status)
         (staff user_business pk : Z),
    (BookingManager.change_appointment_status appointment new_status staff db
     = (db', inr a) ->
     total_price a = calculate_total_price db' (Some (appointment_id appointment))
     /\ get_appointment db' (appointment_id appointment) = Some a)
    /\ (AppointmentViewSet.cancel user_business pk db = (db', inl ImportError) ->
        exists a' : Appointment,
          total_price a' = calculate_total_price db' (Some pk)
          /\ get_appointment db' pk = Some a'
          /\ status a' = CANCELLED)
    /\ (AppointmentViewSet.complete user_business pk db = (db', inr a) ->
        total_price a = calculate_total_price db' (Some pk)
        /\ get_appointment db' pk = Some a).
Proof.
  intros db db' appointment a new_status staff user_business pk. split; [|split].
  - unfold BookingManager.change_appointment_status.
    destruct (Status_eqb _ _); [discriminate|]. intros H.
    apply (Appointment_save_total_price (set_status appointment new_status)) in H.
    tauto.
  - unfold AppointmentViewSet.cancel. unfold bind at 1.
    destruct (AppointmentViewSet.get_object user_business pk db)
      as [db0 [e|x]] eqn:G; [unfold AppointmentViewSet.get_object in G;
                              destruct (find _ _); congruence|].
    apply get_object_found in G. destruct G as (-> & _ & <- & _).
    destruct (status_in _ _); [discriminate|].
    rewrite then_notify.
    destruct (Appointment_save_existing (set_status x CANCELLED) db)
      as (db1 & Hs & _).
    change (appointment_id (set_status x CANCELLED)) with (appointment_id x) in Hs.
    rewrite Hs. cbn [fst snd]. intros H. injection H as <-.
    apply (Appointment_save_total_price (set_status x CANCELLED)) in Hs.
    eexists. exact Hs.
  - unfold AppointmentViewSet.complete, bind.
    destruct (AppointmentViewSet.get_object user_business pk db)
      as [db0 [e|x]] eqn:G; [discriminate|].
    apply get_object_found in G. destruct G as (-> & _ & <- & _).
    destruct (negb _); [discriminate|]. intros H.
    apply (Appointment_save_total_price (set_status x COMPLETED)) in H. tauto.
Qed.

(** Created with a total of 0, Ada's appointment has the price of its
    row after it is confirmed. *)
Lemma status_operations_recompute_total_price_witness :
  total_price Scenario.ada = 0
  /\ exists db a,
       BookingManager.change_appointment_status Scenario.ada CONFIRMED
         Scenario.staff Scenario.db_booked = (db, inr a)
       /\ total_price a = 5000
       /\ get_appointment db 1 = Some a.
Proof.
  split; [reflexivity|].
  destruct (BookingManager.change_appointment_status Scenario.ada CONFIRMED
              Scenario.staff Scenario.db_booked) as [db [e|a]] eqn:E;
    [discriminate E|].
  exists db, a. split; [reflexivity|].
  destruct (proj1 (status_operations_recompute_total_price Scenario.db_booked db
                     Scenario.ada a CONFIRMED Scenario.staff 1 1) E) as [Ht Hg].
  split; [|exact Hg]. rewrite Ht.
  injection E as <- _. reflexivity.
Defined.

(** ** The end of the lifecycle *)

Lemma Appointment_save_get_object a db user_business :
  In a (appointments db) \/ (exists y, In y (appointments db)
                                       /\ appointment_id y = appointment_id a) ->
  business a = user_business ->
  exists db' a',
    Appointment_save (Some (appointment_id a)) a db = (db', inr a')
    /\ status a' = status a
    /\ AppointmentViewSet.get_object user_business (appointment_id a) db'
       = (db', inr a')
    /\ get_appointment db' (appointment_id a) = Some a'
    /\ appointment_services db' = appointment_services db
    /\ services db' = services db.
Proof.
  intros Hin Hb.
  destruct (Appointment_save_existing a db) as (db' & Hs & Hg & Hr & _).
  exists db'. eexists. split; [exact Hs|]. split; [reflexivity|].
  split; [|split; [exact Hg|split; [exact Hr|]]].
  - unfold AppointmentViewSet.get_object.
    unfold Appointment_save in Hs. injection Hs as <-. simpl.
    set (a' := set_appointment_id
                 (set_total_price a (calculate_total_price db (Some (appointment_id a))))
                 (appointment_id a)).
    replace (set_total_price a (calculate_total_price db (Some (appointment_id a))))
      with a' by (destruct a; reflexivity).
    change (appointment_id a) with (appointment_id a') at 1.
    rewrite (upsert_find_pred appointment_id (fun y => business y =? user_business));
      [reflexivity | now apply Z.eqb_eq |].
    destruct Hin as [Hin|(y & Hy & Hk)]; [now exists a | now exists y].
  - unfold Appointment_save in Hs. now injection Hs as <-.
Qed.

(** X9. The [complete] action succeeds from IN_PROGRESS only, and what it
    stores is final: on the completed appointment
    [change_appointment_status], whatever the requested status, [cancel],
    [complete] again and [BookingManager.reschedule_appointment] fail, and
    so does every [reschedule] of the view whose request body names the
    appointment, whatever the key of the URL; each leaves the database as
    it is.  The view tests the status of the appointment that the body
    names, not of the one that the URL names. *)
Theorem completed_is_final :
  forall (db : Store) (user_business pk : Z) (appointment : Appointment),
    AppointmentViewSet.get_object user_business pk db = (db, inr appointment) ->
    (status appointment <> IN_PROGRESS ->
     AppointmentViewSet.complete user_business pk db
     = (db, inl (APIValidationError
                   "Only in-progress appointments can be completed.")))
    /\ (status appointment = IN_PROGRESS ->
        exists db' a',
          AppointmentViewSet.complete user_business pk db = (db', inr a')
          /\ status a' = COMPLETED
          /\ get_appointment db' pk = Some a'
          /\ appointment_services db' = appointment_services db
          /\ (forall new_status staff,
                BookingManager.change_appointment_status a' new_status staff db'
                = (db', inl (ValidationError
                               (Some "Cannot modify completed appointments"))))
          /\ AppointmentViewSet.cancel user_business pk db'
             = (db', inl (CancellationError
                            "Cannot cancel completed or already cancelled appointments."))
          /\ AppointmentViewSet.complete user_business pk db'
             = (db', inl (APIValidationError
                            "Only in-progress appointments can be completed."))
          /\ (forall now new_start_time staff,
                BookingManager.reschedule_appointment now a' new_start_time staff db'
                = (db', inl (ValidationError
                               (Some "Cannot reschedule completed or cancelled appointments"))))
          /\ (forall now new_start_time,
                AppointmentViewSet.reschedule now user_business pk pk new_start_time db'
                = (db', inl (APIValidationError
                               "Cannot reschedule completed or cancelled appointments.")))
          /\ (forall now url_pk new_start_time,
                AppointmentViewSet.reschedule now user_business url_pk pk
                  new_start_time db'
                = (db', inl Http404)
                \/ AppointmentViewSet.reschedule now user_business url_pk pk
                     new_start_time db'
                   = (db', inl (APIValidationError
                                  "Cannot reschedule completed or cancelled appointments.")))).
Proof.
  intros db user_business pk appointment Hget.
  pose proof (get_object_found _ _ _ _ _ Hget) as (_ & Hin & Hid & Hb).
  unfold AppointmentViewSet.complete at 1 2. rewrite (bind_inr _ _ _ _ _ Hget).
  split; intros Hst.
  - destruct (status appointment); try reflexivity. contradiction.
  - rewrite Hst. simpl negb. cbv iota.
    destruct (Appointment_save_get_object (set_status appointment COMPLETED) db
                user_business) as (db' & a' & Hs & Hst' & Hg' & Hga & Hr & _);
      [right; now exists appointment | exact Hb |].
    change (appointment_id (set_status appointment COMPLETED))
      with (appointment_id appointment) in *.
    rewrite Hid in *. simpl in Hst'.
    exists db', a'. split; [exact Hs|]. split; [exact Hst'|].
    split; [exact Hga|]. split; [exact Hr|]. repeat split.
    + intros new_status staff.
      unfold BookingManager.change_appointment_status. now rewrite Hst'.
    + unfold AppointmentViewSet.cancel. rewrite (bind_inr _ _ _ _ _ Hg').
      now rewrite Hst'.
    + unfold AppointmentViewSet.complete. rewrite (bind_inr _ _ _ _ _ Hg').
      now rewrite Hst'.
    + intros now new_start_time staff.
      unfold BookingManager.reschedule_appointment. now rewrite Hst'.
    + intros now new_start_time.
      unfold AppointmentViewSet.reschedule. rewrite (bind_inr _ _ _ _ _ Hg').
      unfold bind, AppointmentViewSet.AppointmentRescheduleSerializer_validate.
      now rewrite Hga, Hst'.
    + intros now url_pk new_start_time.
      destruct (AppointmentViewSet.get_object user_business url_pk db')
        as [db0 [e|other]] eqn:Eo.
      * left. unfold AppointmentViewSet.reschedule.
        rewrite (bind_inl _ _ _ _ _ Eo).
        unfold AppointmentViewSet.get_object in Eo.
        destruct (find _ _); [discriminate Eo|]. now injection Eo as <- <-.
      * right. unfold AppointmentViewSet.reschedule.
        rewrite (bind_inr _ _ _ _ _ Eo).
        apply get_object_found in Eo. destruct Eo as (-> & _).
        unfold bind, AppointmentViewSet.AppointmentRescheduleSerializer_validate.
        now rewrite Hga, Hst'.
Qed.

(** A pending appointment cannot be completed; one in progress can, and
    is then beyond cancellation. *)
Lemma completed_is_final_witness :
  AppointmentViewSet.complete 1 1 Scenario.db_booked
  = (Scenario.db_booked,
     inl (APIValidationError "Only in-progress appointments can be completed."))
  /\ exists db' a',
       AppointmentViewSet.complete 1 1 Examples.db_in_progress = (db', inr a')
       /\ status a' = COMPLETED
       /\ AppointmentViewSet.cancel 1 1 db'
          = (db', inl (CancellationError
                         "Cannot cancel completed or already cancelled appointments.")).
Proof.
  split.
  - apply (proj1 (completed_is_final Scenario.db_booked 1 1 Scenario.ada eq_refl)).
    discriminate.
  - destruct (proj2 (completed_is_final Examples.db_in_progress 1 1
                       Examples.ada_in_progress eq_refl) eq_refl)
      as (db' & a' & Hc & Hs & _ & _ & _ & Hcancel & _).
    exists db', a'. repeat split; assumption.
Defined.

(** The view tests the appointment of the body.  With the completed
    appointment 1 in the URL and the pending appointment 2 in the body,
    [reschedule] passes its status test and moves the row of the completed
    appointment from 09:00 to 11:00, before its notification raises. *)
Lemma view_reschedule_tests_the_body_appointment :
  AppointmentViewSet.get_object 1 1 Examples.db_completed_and_bob
  = (Examples.db_completed_and_bob, inr Examples.ada_completed)
  /\ status Examples.ada_completed = COMPLETED
  /\ AppointmentViewSet.reschedule Scenario.now 1 1 2 (Scenario.at_ 11 0)
       Examples.db_completed_and_bob
     = (with_appointment_services Examples.db_completed_and_bob
          [set_times Scenario.ada_row (Scenario.at_ 11 0) (Scenario.at_ 11 30);
           Scenario.bob_row] 3,
        inl ImportError).
Proof. repeat split. Qed.

(** ** A finished appointment and the validator *)

Lemma appointment__status__in_after_save a db r :
  status_in (status a) ACTIVE = false ->
  appointment__status__in (fst (Appointment_save (Some (appointment_id a)) a db))
    ACTIVE r
  = negb (as_appointment r =? appointment_id a)
    && appointment__status__in db ACTIVE r.
Proof.
  intros Hst. unfold appointment__status__in, get_appointment, Appointment_save.
  simpl.
  set (a' := set_appointment_id
               (set_total_price a (calculate_total_price db (Some (appointment_id a))))
               (appointment_id a)).
  destruct (Z.eqb_spec (as_appointment r) (appointment_id a)) as [E|E]; simpl.
  - rewrite E. change (appointment_id a) with (appointment_id a') at 1.
    rewrite (upsert_find appointment_id a'). exact Hst.
  - rewrite upsert_find_other; [reflexivity|]. simpl. congruence.
Qed.

Lemma validate_after_save now a db staff start_time end_time :
  status_in (status a) ACTIVE = false ->
  appointment_id a <> 0 ->
  BookingManager.validate_appointment_time now
    (fst (Appointment_save (Some (appointment_id a)) a db)) staff start_time
    end_time None
  = BookingManager.validate_appointment_time now db staff start_time end_time
      (Some (appointment_id a)).
Proof.
  intros Hst Hid. unfold BookingManager.validate_appointment_time.
  destruct (start_time <? now); [reflexivity|].
  change (BookingManager.covering_schedules
            (fst (Appointment_save (Some (appointment_id a)) a db)))
    with (BookingManager.covering_schedules db).
  destruct (schedules_first _); [|reflexivity].
  unfold BookingManager.exclude_appointment, truthy.
  destruct (Z.eqb_spec (appointment_id a) 0) as [|_]; [contradiction|].
  simpl negb. cbv iota.
  assert (BookingManager.overlapping_active
            (fst (Appointment_save (Some (appointment_id a)) a db)) staff
            start_time end_time
          = filter (fun r => negb (as_appointment r =? appointment_id a))
              (BookingManager.overlapping_active db staff start_time end_time))
    as ->; [|reflexivity].
  unfold BookingManager.overlapping_active.
  rewrite Appointment_save_rows.
  induction (appointment_services db) as [|r l IH]; [reflexivity|].
  cbn [filter]. rewrite (appointment__status__in_after_save a db r Hst), IH.
  destruct ((as_staff r =? staff) && (as_start_time r <? end_time)
            && (as_end_time r >? start_time)); simpl.
  - destruct (appointment__status__in db ACTIVE r); simpl.
    + now destruct (as_appointment r =? appointment_id a).
    + now rewrite andb_false_r.
  - reflexivity.
Qed.

(** X10. After a [cancel] that has passed its checks and saved, which it
    reports by the [ImportError] of its notification, or a successful
    [complete] of an appointment whose key is not 0, the validator treats
    every proposal as it treated it before with that appointment
    excluded: the rows of the appointment no longer count against a new
    booking. *)
Theorem finished_appointment_frees_its_slots :
  forall (db db' : Store) (user_business pk : Z) (a : Appointment),
    pk <> 0 ->
    AppointmentViewSet.cancel user_business pk db = (db', inl ImportError)
    \/ AppointmentViewSet.complete user_business pk db = (db', inr a) ->
    forall now staff start_time end_time,
      BookingManager.validate_appointment_time now db' staff start_time end_time None
      = BookingManager.validate_appointment_time now db staff start_time end_time
          (Some pk).
Proof.
  intros db db' user_business pk a Hpk Hop now staff start_time end_time.
  destruct Hop as [H|H]; revert H.
  - unfold AppointmentViewSet.cancel. unfold bind at 1.
    destruct (AppointmentViewSet.get_object user_business pk db)
      as [db0 [e|x]] eqn:G; [unfold AppointmentViewSet.get_object in G;
                              destruct (find _ _); congruence|].
    apply get_object_found in G. destruct G as (-> & _ & <- & _).
    destruct (status_in _ _); [discriminate|]. rewrite then_notify. intros H.
    apply (f_equal fst) in H. cbn [fst] in H. rewrite <- H.
    now apply (validate_after_save now (set_status x CANCELLED)).
  - unfold AppointmentViewSet.complete, bind.
    destruct (AppointmentViewSet.get_object user_business pk db)
      as [db0 [e|x]] eqn:G; [discriminate|].
    apply get_object_found in G. destruct G as (-> & _ & <- & _).
    destruct (negb _); [discriminate|]. intros H.
    apply (f_equal fst) in H. simpl in H. rewrite <- H.
    now apply (validate_after_save now (set_status x COMPLETED)).
Qed.

(** Before Ada cancels, 09:00 to 09:30 is a double booking; after, the
    validator accepts it. *)
Lemma finished_appointment_frees_its_slots_witness :
  BookingManager.validate_appointment_time Scenario.now Scenario.db_booked
    Scenario.staff (Scenario.at_ 9 0) (Scenario.at_ 9 30) None
  = (false, DOUBLE_BOOKING)
  /\ BookingManager.validate_appointment_time Scenario.now Scenario.db_cancelled
       Scenario.staff (Scenario.at_ 9 0) (Scenario.at_ 9 30) None
     = (true, None).
Proof.
  split; [reflexivity|].
  rewrite (finished_appointment_frees_its_slots Scenario.db_booked
             Scenario.db_cancelled 1 1 Scenario.ada_cancelled);
    [reflexivity | discriminate | left; reflexivity].
Defined.

(** ** Sorting *)

Section Sorting.

Context {A : Type}.
Variable leb : A -> A -> bool.

Lemma insert_leb_In x y l : In y (insert_leb leb x l) <-> y = x \/ In y l.
Proof.
  induction l as [|z l IH]; simpl.
  - intuition.
  - destruct (leb x z); simpl; [intuition|]. rewrite IH. intuition.
Qed.

Lemma sort_leb_In y l : In y (sort_leb leb l) <-> In y l.
Proof.
  induction l as [|x l IH]; simpl; [tauto|].
  rewrite insert_leb_In, IH. intuition.
Qed.

Hypothesis leb_total : forall a b, leb a b = false -> leb b a = true.

Lemma insert_leb_Sorted x l :
  Sorted (fun a b => leb a b = true) l ->
  Sorted (fun a b => leb a b = true) (insert_leb leb x l).
Proof.
  induction 1 as [|y l Hs IH Hhd]; simpl.
  - repeat constructor.
  - destruct (leb x y) eqn:E.
    + constructor; [now constructor | now constructor].
    + constructor; [exact IH|].
      apply leb_total in E.
      destruct l as [|z l]; simpl.
      * now constructor.
      * destruct (leb x z); constructor; [exact E|]. now inversion Hhd.
Qed.

Lemma sort_leb_Sorted l : Sorted (fun a b => leb a b = true) (sort_leb leb l).
Proof.
  induction l as [|x l IH]; simpl; [constructor | now apply insert_leb_Sorted].
Qed.

End Sorting.

Lemma order_by_sort_leb {A} (key : A -> Z) (l : list A) :
  order_by key l = sort_leb (fun a b => key a <=? key b) l.
Proof.
  induction l as [|x l IH]; simpl; [reflexivity|]. rewrite IH.
  generalize (sort_leb (fun a b => key a <=? key b) l). intros s.
  induction s as [|y s IHs]; simpl; [reflexivity|]. now rewrite IHs.
Qed.

Lemma order_by_In {A} (key : A -> Z) (l : list A) (x : A) :
  In x (order_by key l) <-> In x l.
Proof. rewrite order_by_sort_leb. apply sort_leb_In. Qed.

Lemma order_by_sorted {A} (key : A -> Z) (l : list A) :
  StronglySorted (fun a b => key a <= key b) (order_by key l).
Proof.
  apply Sorted_StronglySorted; [intros a b c; lia|].
  rewrite order_by_sort_leb.
  pose proof (sort_leb_Sorted (fun a b => key a <=? key b)) as H.
  assert (forall a b : A, (key a <=? key b) = false -> (key b <=? key a) = true) as T.
  { intros a b Hab. apply Z.leb_gt in Hab. apply Z.leb_le. lia. }
  specialize (H T l).
  induction H as [|y s Hs IH Hhd]; constructor; [exact IH|].
  destruct Hhd; constructor. now apply Z.leb_le.
Qed.

(** ** The services of an appointment *)

(** In the order of the list, each service ends before the next ones
    start. *)
Definition ends_before (a b : ServiceData) : Prop :=
  sd_end_time a <= sd_start_time b.

Lemma adjacent_overlap_false l :
  StronglySorted (fun a b => sd_start_time a <= sd_start_time b) l ->
  AppointmentSerializer.adjacent_overlap l = false ->
  ForallOrdPairs ends_before l.
Proof.
  induction 1 as [|a l Hs IH Hall]; intros Hadj; [constructor|].
  destruct l as [|b rest]; [repeat constructor|].
  simpl in Hadj. apply orb_false_iff in Hadj. destruct Hadj as [Hab Hrest].
  constructor; [|now apply IH].
  assert (sd_end_time a <= sd_start_time b) as Hle.
  { destruct (Z.gtb_spec (sd_end_time a) (sd_start_time b)); [discriminate | lia]. }
  inversion Hs as [|? ? _ Hb]; subst.
  constructor; [exact Hle|].
  apply Forall_forall. intros c Hc. rewrite Forall_forall in Hb.
  specialize (Hb c Hc). unfold ends_before. lia.
Qed.

Lemma insert_by_In {A} (key : A -> Z) (x y : A) (l : list A) :
  In y (insert_by key x l) <-> y = x \/ In y l.
Proof.
  induction l as [|z l IH]; simpl.
  - intuition.
  - destruct (key x <=? key z); simpl; [intuition|]. rewrite IH. intuition.
Qed.

Lemma ForallOrdPairs_insert_by_inv (R : ServiceData -> ServiceData -> Prop) x s :
  ForallOrdPairs R (insert_by sd_start_time x s) ->
  ForallOrdPairs R s /\ Forall (fun y => R x y \/ R y x) s.
Proof.
  induction s as [|y s IH]; simpl; intros H.
  - split; constructor.
  - destruct (sd_start_time x <=? sd_start_time y).
    + inversion H as [|? ? Hx Hrest]; subst. split; [exact Hrest|].
      apply Forall_forall. intros z Hz. rewrite Forall_forall in Hx. left. now apply Hx.
    + inversion H as [|? ? Hy Hrest]; subst.
      destruct (IH Hrest) as [H1 H2]. rewrite Forall_forall in Hy. split.
      * constructor; [|exact H1]. apply Forall_forall. intros z Hz. apply Hy.
        apply insert_by_In. now right.
      * constructor; [|exact H2]. right. apply Hy. apply insert_by_In. now left.
Qed.

Lemma ForallOrdPairs_order_by_inv l :
  ForallOrdPairs ends_before (order_by sd_start_time l) ->
  ForallOrdPairs (fun a b => ~ services_overlap a b) l.
Proof.
  induction l as [|x l IH]; [constructor|]. simpl. intros H.
  apply ForallOrdPairs_insert_by_inv in H. destruct H as [H1 H2].
  constructor; [|now apply IH].
  apply Forall_forall. intros y Hy. rewrite Forall_forall in H2.
  specialize (H2 y (proj2 (order_by_In sd_start_time l y) Hy)).
  unfold ends_before, services_overlap in *. lia.
Qed.

Lemma ForallOrdPairs_insert_by (Q : ServiceData -> ServiceData -> Prop) x s :
  (forall a b, Q a b -> Q b a) ->
  ForallOrdPairs Q s -> Forall (Q x) s ->
  ForallOrdPairs Q (insert_by sd_start_time x s).
Proof.
  intros Hsym. induction 1 as [|y s Hy Hs IH]; simpl; intros Hx.
  - repeat constructor.
  - destruct (sd_start_time x <=? sd_start_time y).
    + constructor; [exact Hx | now constructor].
    + inversion Hx as [|? ? Hxy Hxs]; subst. constructor; [|now apply IH].
      apply Forall_forall. intros z Hz. apply insert_by_In in Hz.
      destruct Hz as [->|Hz]; [now apply Hsym|].
      rewrite Forall_forall in Hy. now apply Hy.
Qed.

Lemma ForallOrdPairs_order_by (Q : ServiceData -> ServiceData -> Prop) l :
  (forall a b, Q a b -> Q b a) ->
  ForallOrdPairs Q l -> ForallOrdPairs Q (order_by sd_start_time l).
Proof.
  intros Hsym. induction 1 as [|x l Hx Hl IH]; simpl; [constructor|].
  apply ForallOrdPairs_insert_by; try assumption.
  apply Forall_forall. intros y Hy. apply order_by_In in Hy.
  rewrite Forall_forall in Hx. now apply Hx.
Qed.

Lemma adjacent_overlap_of_disjoint l :
  StronglySorted (fun a b => sd_start_time a <= sd_start_time b) l ->
  Forall (fun s => sd_start_time s < sd_end_time s) l ->
  ForallOrdPairs (fun a b => ~ services_overlap a b) l ->
  AppointmentSerializer.adjacent_overlap l = false.
Proof.
  induction 1 as [|a l Hs IH Ha]; intros Hwf Hd; [reflexivity|].
  destruct l as [|b rest]; [reflexivity|].
  inversion Hwf as [|? ? _ Hwf']; subst.
  inversion Hd as [|? ? Hab Hd']; subst.
  change (AppointmentSerializer.adjacent_overlap (a :: b :: rest))
    with ((sd_end_time a >? sd_start_time b)
          || AppointmentSerializer.adjacent_overlap (b :: rest)).
  rewrite (IH Hwf' Hd'), orb_false_r.
  inversion Ha as [|? ? Hsab _]; subst.
  inversion Hab as [|? ? Hn _]; subst.
  inversion Hwf' as [|? ? Hb _]; subst.
  unfold services_overlap in Hn.
  destruct (Z.gtb_spec (sd_end_time a) (sd_start_time b)); [lia | reflexivity].
Qed.

(** X11. [validate_services] refuses an empty list; a list that it
    accepts is returned as it is and no two of its services overlap.
    When every service starts before it ends, it accepts exactly the
    non-empty lists of pairwise disjoint services. *)
Theorem validate_services_accepts_disjoint_services :
  forall services : list ServiceData,
    AppointmentSerializer.validate_services []
    = inl (APIValidationError "At least one service is required.")
    /\ (forall services',
          AppointmentSerializer.validate_services services = inr services' ->
          services' = services /\ services <> []
          /\ ForallOrdPairs (fun a b => ~ services_overlap a b) services)
    /\ (services <> [] ->
        Forall (fun s => sd_start_time s < sd_end_time s) services ->
        ForallOrdPairs (fun a b => ~ services_overlap a b) services ->
        AppointmentSerializer.validate_services services = inr services).
Proof.
  intros services. split; [reflexivity|]. split.
  - intros services'. unfold AppointmentSerializer.validate_services.
    destruct services as [|x l]; [discriminate|].
    destruct (AppointmentSerializer.adjacent_overlap _) eqn:E; [discriminate|].
    intros H. injection H as <-. split; [reflexivity|]. split; [discriminate|].
    apply ForallOrdPairs_order_by_inv, adjacent_overlap_false; [|exact E].
    apply order_by_sorted.
  - intros Hne Hwf Hd. unfold AppointmentSerializer.validate_services.
    destruct services as [|x l]; [contradiction|].
    rewrite adjacent_overlap_of_disjoint; [reflexivity | apply order_by_sorted | |].
    + apply Forall_forall. intros y Hy. apply order_by_In in Hy.
      rewrite Forall_forall in Hwf. now apply Hwf.
    + apply ForallOrdPairs_order_by; [|exact Hd].
      unfold services_overlap. intros a b. tauto.
Qed.

(** Two consecutive services sent in the wrong order are accepted; the
    same two with the second starting a quarter early are refused. *)
Lemma validate_services_accepts_disjoint_services_witness :
  AppointmentSerializer.validate_services
    [mkServiceData Scenario.haircut Scenario.staff (Scenario.at_ 9 30)
       (Scenario.at_ 10 0) 5000;
     mkServiceData Scenario.haircut Scenario.staff (Scenario.at_ 9 0)
       (Scenario.at_ 9 30) 5000]
  = inr [mkServiceData Scenario.haircut Scenario.staff (Scenario.at_ 9 30)
           (Scenario.at_ 10 0) 5000;
         mkServiceData Scenario.haircut Scenario.staff (Scenario.at_ 9 0)
           (Scenario.at_ 9 30) 5000]
  /\ ~ services_overlap
        (mkServiceData Scenario.haircut Scenario.staff (Scenario.at_ 9 30)
           (Scenario.at_ 10 0) 5000)
        (mkServiceData Scenario.haircut Scenario.staff (Scenario.at_ 9 0)
           (Scenario.at_ 9 30) 5000)
  /\ AppointmentSerializer.validate_services
       [mkServiceData Scenario.haircut Scenario.staff (Scenario.at_ 9 15)
          (Scenario.at_ 9 45) 5000;
        mkServiceData Scenario.haircut Scenario.staff (Scenario.at_ 9 0)
          (Scenario.at_ 9 30) 5000]
     = inl (APIValidationError "Services cannot overlap.").
Proof.
  split; [reflexivity|]. split; [|reflexivity].
  destruct (validate_services_accepts_disjoint_services
              [mkServiceData Scenario.haircut Scenario.staff (Scenario.at_ 9 30)
                 (Scenario.at_ 10 0) 5000;
               mkServiceData Scenario.haircut Scenario.staff (Scenario.at_ 9 0)
                 (Scenario.at_ 9 30) 5000])
    as (_ & H & _).
  destruct (H _ eq_refl) as (_ & _ & Hd).
  inversion Hd as [|? ? Hall _]; subst. now inversion Hall.
Defined.

(** ** What the appointment serializer writes *)

Lemma AppointmentService_objects_create_ok now appointment service staff
    start_time end_time price db db' r :
  AppointmentService_objects_create now appointment service staff start_time
    end_time price db = (db', inr r) ->
  r = mkAppointmentService (next_appointment_service_id db) appointment service
        start_time end_time staff price
  /\ db' = with_appointment_services db (appointment_services db ++ [r])
             (next_appointment_service_id db + 1).
Proof.
  unfold AppointmentService_objects_create, AppointmentService_save, bind.
  destruct (AppointmentService_clean _ _ _ _) as [db1 [e|[]]] eqn:E; [discriminate|].
  apply clean_ok in E. destruct E as (-> & _). simpl.
  intros H. injection H as <- <-. split; reflexivity.
Qed.

Lemma create_services_ok now appointment services_data :
  forall db db',
    AppointmentSerializer.create_services now appointment services_data db
    = (db', inr tt) ->
    appointment_services db'
    = appointment_services db
      ++ created_rows appointment (next_appointment_service_id db) services_data
    /\ appointments db' = appointments db
    /\ services db' = services db
    /\ schedules db' = schedules db
    /\ next_appointment_id db' = next_appointment_id db.
Proof.
  induction services_data as [|sd rest IH]; intros db db'; simpl.
  - unfold ret. intros H. injection H as <-. rewrite app_nil_r. repeat split.
  - unfold bind at 1.
    destruct (AppointmentService_objects_create _ _ _ _ _ _ _ db)
      as [db1 [e|r]] eqn:E; [discriminate|].
    apply AppointmentService_objects_create_ok in E. destruct E as [-> ->].
    intros H. apply IH in H. simpl in H.
    destruct H as (H1 & H2 & H3 & H4 & H5).
    rewrite H1, <- app_assoc. repeat split; assumption.
Qed.

Lemma created_rows_filter appointment n services_data :
  filter (fun r => as_appointment r =? appointment)
    (created_rows appointment n services_data)
  = created_rows appointment n services_data
  /\ filter (fun r => negb (as_appointment r =? appointment))
       (created_rows appointment n services_data) = [].
Proof.
  revert n. induction services_data as [|sd rest IH]; intros n; simpl;
    [split; reflexivity|].
  rewrite Z.eqb_refl. simpl. destruct (IH (n + 1)) as [-> ->]. split; reflexivity.
Qed.

Lemma created_rows_prices appointment n services_data :
  sum (map as_price (created_rows appointment n services_data))
  = sum (map sd_price services_data).
Proof.
  revert n. induction services_data as [|sd rest IH]; intros n; simpl;
    [reflexivity|].
  unfold sum in *. simpl. now rewrite IH.
Qed.

Lemma Appointment_objects_create_eq business client_name client_phone status notes db :
  Appointment_objects_create business client_name client_phone status notes db
  = (with_appointments db
       (appointments db
        ++ [mkAppointment (next_appointment_id db) business client_name
              client_phone status notes 0])
       (next_appointment_id db + 1),
     inr (mkAppointment (next_appointment_id db) business client_name
            client_phone status notes 0)).
Proof. reflexivity. Qed.

(** X12. When [AppointmentSerializer.create] succeeds on a database where
    no row refers to the key of the new appointment, the appointment is
    PENDING, its rows are the services of the request in their order, and
    the total price it returns and stores is the sum of their prices. *)
Theorem serializer_create_total_price :
  forall (now : datetime) (db db' : Store) (business : Z)
         (client_name client_phone : string) (notes : option string)
         (services_data : list ServiceData) (a : Appointment),
    AppointmentSerializer.create now business client_name client_phone notes
      services_data db = (db', inr a) ->
    (forall r, In r (appointment_services db) ->
               as_appointment r <> next_appointment_id db) ->
    appointment_id a = next_appointment_id db
    /\ status a = PENDING
    /\ services_all db' (Some (appointment_id a))
       = created_rows (next_appointment_id db) (next_appointment_service_id db)
           services_data
    /\ total_price a = sum (map sd_price services_data)
    /\ get_appointment db' (appointment_id a) = Some a.
Proof.
  intros now db db' business cn cp notes services_data a H Hfresh.
  revert H. unfold AppointmentSerializer.create.
  rewrite (bind_inr _ _ _ _ _
             (Appointment_objects_create_eq business cn cp PENDING notes db)).
  set (a0 := mkAppointment (next_appointment_id db) business cn cp PENDING notes 0).
  set (db1 := with_appointments db (appointments db ++ [a0])
                (next_appointment_id db + 1)).
  change (appointment_id a0) with (next_appointment_id db).
  unfold bind at 1.
  destruct (AppointmentSerializer.create_services now (next_appointment_id db)
              services_data db1) as [db2 [e|[]]] eqn:E; [discriminate|].
  apply create_services_ok in E. destruct E as (Hrows & _).
  unfold bind at 1, get.
  set (a1 := set_total_price a0
               (calculate_total_price db2 (Some (next_appointment_id db)))).
  destruct (Appointment_save_existing a1 db2) as (db3 & Hs & Hg & Hr & _).
  change (appointment_id a1) with (next_appointment_id db) in Hg.
  rewrite Hs. intros H. injection H as <- <-.
  assert (services_all db2 (Some (next_appointment_id db))
          = created_rows (next_appointment_id db) (next_appointment_service_id db)
              services_data) as Hall.
  { unfold services_all. rewrite Hrows. simpl. rewrite filter_app.
    rewrite (proj1 (created_rows_filter _ _ _)).
    rewrite filter_nil; [reflexivity|].
    intros r Hr0. apply Z.eqb_neq. now apply Hfresh. }
  split; [reflexivity|]. split; [reflexivity|]. split.
  - unfold services_all in *. simpl. now rewrite Hr.
  - split; [|exact Hg]. simpl.
    unfold calculate_total_price. rewrite Hall. apply created_rows_prices.
Qed.

(** Created through the serializer, the appointment of two services has
    the total of its two prices. *)
Lemma serializer_create_total_price_witness :
  AppointmentSerializer.create Scenario.now 1 "Eve" "557" None
    [mkServiceData Scenario.haircut Scenario.staff (Scenario.at_ 9 0)
       (Scenario.at_ 9 30) 5000;
     mkServiceData Scenario.haircut Scenario.staff (Scenario.at_ 9 30)
       (Scenario.at_ 10 0) 5000]
    Scenario.db_open
  = (Scenario.db_pair, inr Scenario.pair)
  /\ total_price Scenario.pair = 10000
  /\ services_all Scenario.db_pair (Some 1)
     = [Scenario.pair_first; Scenario.pair_second].
Proof.
  assert (AppointmentSerializer.create Scenario.now 1 "Eve" "557" None
            [mkServiceData Scenario.haircut Scenario.staff (Scenario.at_ 9 0)
               (Scenario.at_ 9 30) 5000;
             mkServiceData Scenario.haircut Scenario.staff (Scenario.at_ 9 30)
               (Scenario.at_ 10 0) 5000]
            Scenario.db_open
          = (Scenario.db_pair, inr Scenario.pair)) as E by reflexivity.
  split; [exact E|].
  destruct (serializer_create_total_price _ _ _ _ _ _ _ _ _ E
              (fun r (H : False) => match H with end))
    as (_ & _ & Hrows & Hprice & _).
  split; [exact Hprice | exact Hrows].
Defined.

Lemma filter_negb_idem {A} (f : A -> bool) (l : list A) :
  filter (fun x => negb (f x)) (filter (fun x => negb (f x)) l)
  = filter (fun x => negb (f x)) l
  /\ filter f (filter (fun x => negb (f x)) l) = [].
Proof.
  induction l as [|x l [IH1 IH2]]; simpl; [split; reflexivity|].
  destruct (f x) eqn:E; simpl; [split; assumption|].
  rewrite E. simpl. rewrite IH1. split; [reflexivity | exact IH2].
Qed.

(** X13. When [AppointmentSerializer.update] succeeds, the appointment it
    returns and stores has a total price equal to the sum of the prices of
    its rows, and the rows of the other appointments are as they were.
    When the request carries services, the rows of the appointment are
    these services, in their order, and the total is the sum of their
    prices; when it carries none, no row is written. *)
Theorem serializer_update_total_price :
  forall (now : datetime) (db db' : Store) (instance a : Appointment)
         (data : UpdateData),
    AppointmentSerializer.update now instance data db = (db', inr a) ->
    total_price a = calculate_total_price db' (Some (appointment_id instance))
    /\ get_appointment db' (appointment_id instance) = Some a
    /\ filter (fun r => negb (as_appointment r =? appointment_id instance))
         (appointment_services db')
       = filter (fun r => negb (as_appointment r =? appointment_id instance))
           (appointment_services db)
    /\ match ud_services data with
       | Some services_data =>
           services_all db' (Some (appointment_id instance))
           = created_rows (appointment_id instance)
               (next_appointment_service_id db) services_data
           /\ total_price a = sum (map sd_price services_data)
       | None => appointment_services db' = appointment_services db
       end.
Proof.
  intros now db db' instance a data. unfold AppointmentSerializer.update.
  set (i := AppointmentSerializer.set_attributes instance data).
  change (appointment_id i) with (appointment_id instance).
  destruct (ud_services data) as [services_data|].
  - unfold bind at 1. unfold bind at 1. unfold bind at 1.
    destruct (AppointmentSerializer.create_services now (appointment_id instance)
                services_data (without_appointment db (appointment_id instance)))
      as [db2 [e|[]]] eqn:E; [discriminate|].
    apply create_services_ok in E. destruct E as (Hrows & _).
    simpl in Hrows. unfold bind at 1, get, ret.
    set (i1 := set_total_price i
                 (calculate_total_price db2 (Some (appointment_id instance)))).
    intros H.
    pose proof (Appointment_save_total_price i1 db2 db' a) as Hp.
    change (appointment_id i1) with (appointment_id instance) in *.
    destruct (Hp H) as (Ht & Hg & _).
    assert (appointment_services db' = appointment_services db2) as Hr.
    { pose proof (Appointment_save_rows (Some (appointment_id instance)) i1 db2)
        as Hsr.
      now rewrite H in Hsr. }
    assert (services_all db' (Some (appointment_id instance))
            = created_rows (appointment_id instance)
                (next_appointment_service_id db) services_data) as Hall.
    { unfold services_all. rewrite Hr, Hrows, filter_app.
      rewrite (proj2 (filter_negb_idem _ _)).
      apply (proj1 (created_rows_filter _ _ _)). }
    split; [exact Ht|]. split; [exact Hg|]. split; [|split; [exact Hall|]].
    + rewrite Hr, Hrows, filter_app.
      rewrite (proj1 (filter_negb_idem _ _)), (proj2 (created_rows_filter _ _ _)).
      apply app_nil_r.
    + rewrite Ht. unfold calculate_total_price. rewrite Hall.
      apply created_rows_prices.
  - unfold bind at 1, ret. intros H.
    destruct (Appointment_save_total_price i db db' a H) as (Ht & Hg & _).
    change (appointment_id i) with (appointment_id instance) in *.
    assert (appointment_services db' = appointment_services db) as Hr.
    { pose proof (Appointment_save_rows (Some (appointment_id instance)) i db)
        as Hsr.
      now rewrite H in Hsr. }
    split; [exact Ht|]. split; [exact Hg|]. split; [now rewrite Hr | exact Hr].
Qed.

(** Ada's appointment is given a second service: both rows are new, and
    the total is 100.00. *)
Lemma serializer_update_total_price_witness :
  exists db a,
    AppointmentSerializer.update Scenario.now Scenario.ada
      (mkUpdateData None None None None
         (Some [mkServiceData Scenario.haircut Scenario.staff (Scenario.at_ 9 0)
                  (Scenario.at_ 9 30) 5000;
                mkServiceData Scenario.haircut Scenario.staff (Scenario.at_ 9 30)
                  (Scenario.at_ 10 0) 5000]))
      Scenario.db_booked = (db, inr a)
    /\ total_price a = 10000
    /\ List.length (services_all db (Some 1)) = 2%nat.
Proof.
  destruct (AppointmentSerializer.update Scenario.now Scenario.ada
              (mkUpdateData None None None None
                 (Some [mkServiceData Scenario.haircut Scenario.staff
                          (Scenario.at_ 9 0) (Scenario.at_ 9 30) 5000;
                        mkServiceData Scenario.haircut Scenario.staff
                          (Scenario.at_ 9 30) (Scenario.at_ 10 0) 5000]))
              Scenario.db_booked) as [db [e|a]] eqn:E; [discriminate E|].
  exists db, a. split; [reflexivity|].
  destruct (serializer_update_total_price _ _ _ _ _ _ E) as (_ & _ & _ & Hrows & Ht).
  split; [exact Ht|]. exact (f_equal (@List.length _) Hrows).
Defined.

(** ** The schedule of a staff member over a range of dates *)

(** The order of [order_by('date', 'start_time')]. *)
Definition schedule_before (a b : Schedule) : Prop :=
  schedule_date a < schedule_date b
  \/ (schedule_date a = schedule_date b
      /\ schedule_start_time a <= schedule_start_time b).

Lemma date_start_time_leb_spec a b :
  BookingManager.date_start_time_leb a b = true <-> schedule_before a b.
Proof.
  unfold BookingManager.date_start_time_leb, schedule_before.
  rewrite orb_true_iff, andb_true_iff, Z.ltb_lt, Z.eqb_eq, Z.leb_le. tauto.
Qed.

Lemma date_start_time_leb_total a b :
  BookingManager.date_start_time_leb a b = false ->
  BookingManager.date_start_time_leb b a = true.
Proof.
  unfold BookingManager.date_start_time_leb. intros H.
  apply orb_false_iff in H. destruct H as [H1 H2].
  apply Z.ltb_ge in H1. apply andb_false_iff in H2.
  apply orb_true_iff.
  destruct (Z.eq_dec (schedule_date a) (schedule_date b)) as [E|E].
  - right. destruct H2 as [H2|H2]; [apply Z.eqb_neq in H2; contradiction|].
    apply Z.leb_gt in H2. apply andb_true_iff. split.
    + apply Z.eqb_eq. now symmetry.
    + apply Z.leb_le. lia.
  - left. apply Z.ltb_lt. lia.
Qed.

Lemma schedule_before_trans a b c :
  schedule_before a b -> schedule_before b c -> schedule_before a c.
Proof. unfold schedule_before. lia. Qed.

Lemma insert_by_Permutation {A} (key : A -> Z) (x : A) (l : list A) :
  Permutation (insert_by key x l) (x :: l).
Proof.
  induction l as [|y l IH]; simpl; [apply Permutation_refl|].
  destruct (key x <=? key y); [apply Permutation_refl|].
  apply perm_trans with (y :: x :: l); [now apply perm_skip | apply perm_swap].
Qed.

Lemma order_by_Permutation {A} (key : A -> Z) (l : list A) :
  Permutation (order_by key l) l.
Proof.
  induction l as [|x l IH]; simpl; [apply perm_nil|].
  apply perm_trans with (x :: order_by key l);
    [apply insert_by_Permutation | now apply perm_skip].
Qed.

Lemma sort_leb_Permutation {A} (leb : A -> A -> bool) (l : list A) :
  Permutation (sort_leb leb l) l.
Proof.
  induction l as [|x l IH]; simpl; [apply perm_nil|].
  apply perm_trans with (x :: sort_leb leb l); [|now apply perm_skip].
  generalize (sort_leb leb l). intros m.
  induction m as [|y m IHm]; simpl; [apply Permutation_refl|].
  destruct (leb x y); [apply Permutation_refl|].
  apply perm_trans with (y :: x :: m); [now apply perm_skip | apply perm_swap].
Qed.

(** X14. [get_staff_schedule] lists exactly the schedules of the staff
    member whose date lies between [start_date] and [end_date], both
    included, ordered by date and then by start time, and exactly the
    [AppointmentService] rows of the staff member that start on a date of
    the range, ordered by start time: each list is a permutation of the
    rows of the table that the query selects, none dropped and none
    repeated.  The rows are not filtered by the status of their
    appointment: those of cancelled and completed appointments are listed
    too. *)
Theorem get_staff_schedule_lists_the_range :
  forall (db : Store) (staff start_date end_date : Z),
    (forall s, In s (BookingManager.staff_schedules
                       (BookingManager.get_staff_schedule db staff start_date end_date))
               <-> In s (schedules db) /\ schedule_staff s = staff
                   /\ start_date <= schedule_date s <= end_date)
    /\ StronglySorted schedule_before
         (BookingManager.staff_schedules
            (BookingManager.get_staff_schedule db staff start_date end_date))
    /\ (forall r, In r (BookingManager.staff_appointments
                          (BookingManager.get_staff_schedule db staff start_date end_date))
                  <-> In r (appointment_services db) /\ as_staff r = staff
                      /\ start_date <= date_of (as_start_time r) <= end_date)
    /\ StronglySorted (fun a b => as_start_time a <= as_start_time b)
         (BookingManager.staff_appointments
            (BookingManager.get_staff_schedule db staff start_date end_date))
    /\ List.length (BookingManager.staff_schedules
                      (BookingManager.get_staff_schedule db staff start_date end_date))
       = List.length
           (filter (fun s => (schedule_staff s =? staff)
                             && ((start_date <=? schedule_date s)
                                 && (schedule_date s <=? end_date)))
                   (schedules db))
    /\ Permutation
         (BookingManager.staff_schedules
            (BookingManager.get_staff_schedule db staff start_date end_date))
         (filter (fun s => (schedule_staff s =? staff)
                           && ((start_date <=? schedule_date s)
                               && (schedule_date s <=? end_date)))
                 (schedules db))
    /\ Permutation
         (BookingManager.staff_appointments
            (BookingManager.get_staff_schedule db staff start_date end_date))
         (filter (fun r => (as_staff r =? staff)
                           && ((start_date <=? date_of (as_start_time r))
                               && (date_of (as_start_time r) <=? end_date)))
                 (appointment_services db)).
Proof.
  intros db staff start_date end_date. unfold BookingManager.get_staff_schedule.
  cbn [BookingManager.staff_schedules BookingManager.staff_appointments].
  split; [|split; [|split; [|split; [|split; [|split]]]]];
    [| | | | |apply sort_leb_Permutation|apply order_by_Permutation].
  - intros s. rewrite sort_leb_In, filter_In, !andb_true_iff, Z.eqb_eq, !Z.leb_le.
    tauto.
  - apply Sorted_StronglySorted; [exact schedule_before_trans|].
    pose proof (sort_leb_Sorted BookingManager.date_start_time_leb
                  date_start_time_leb_total) as H.
    match goal with |- Sorted _ (sort_leb _ ?l) => specialize (H l) end.
    revert H. generalize (sort_leb BookingManager.date_start_time_leb
      (filter (fun s => (schedule_staff s =? staff)
                        && ((start_date <=? schedule_date s)
                            && (schedule_date s <=? end_date)))
              (schedules db))).
    intros l H. induction H as [|x l Hs IH Hhd]; constructor; [exact IH|].
    destruct Hhd; constructor. now apply date_start_time_leb_spec.
  - intros r. rewrite order_by_In, filter_In, !andb_true_iff, Z.eqb_eq, !Z.leb_le.
    tauto.
  - apply order_by_sorted.
  - generalize (filter (fun s => (schedule_staff s =? staff)
                        && ((start_date <=? schedule_date s)
                            && (schedule_date s <=? end_date)))
              (schedules db)).
    intros l. induction l as [|x l IH]; [reflexivity|].
    cbn [sort_leb fold_right]. change (fold_right (insert_leb BookingManager.date_start_time_leb) [] l)
      with (sort_leb BookingManager.date_start_time_leb l).
    cbn [List.length]. rewrite <- IH.
    generalize (sort_leb BookingManager.date_start_time_leb l). intros m.
    induction m as [|y m IHm]; [reflexivity|].
    cbn [insert_leb]. destruct (BookingManager.date_start_time_leb x y);
      cbn [List.length]; [reflexivity | now rewrite IHm].
Qed.

(** ** The schedules that [Schedule.save] lets in *)










Lemma overlapping_schedules_nil db pk staff date start_time end_time s :
  exists_ (overlapping_schedules db pk staff date start_time end_time) = false ->
  In s (schedules db) ->
  (forall id, pk = Some id -> schedule_id s <> id) ->
  schedule_staff s = staff -> schedule_date s = date ->
  ~ (schedule_start_time s < end_time /\ start_time < schedule_end_time s).
Proof.
  intros He Hin Hpk Hst Hd [H1 H2].
  assert (In s (overlapping_schedules db pk staff date start_time end_time)) as Hs.
  { unfold overlapping_schedules.
    assert (In s (filter (fun s => (schedule_staff s =? staff)
                     && (schedule_date s =? date)
                     && (schedule_start_time s <? end_time)
                     && (schedule_end_time s >? start_time)) (schedules db))) as Hq.
    { apply filter_In. split; [exact Hin|].
      rewrite !andb_true_iff, !Z.eqb_eq, Z.ltb_lt, Z.gtb_lt. tauto. }
    destruct pk as [id|]; [|exact Hq].
    apply filter_In. split; [exact Hq|].
    apply negb_true_iff, Z.eqb_neq. now apply Hpk. }
  destruct (overlapping_schedules db pk staff date start_time end_time);
    [destruct Hs | discriminate].
Qed.



Lemma ScheduleSerializer_validate_reads now instance data db :
  fst (ScheduleSerializer.validate now instance data db) = db.
Proof.
  unfold ScheduleSerializer.validate.
  destruct (_ >=? _); [reflexivity|]. destruct (_ <? _); [reflexivity|].
  now destruct (exists_ _).
Qed.







(** ** The serializer of the schedules and the model *)

(** The instance that [ScheduleSerializer.save] hands to [Schedule.save]. *)
Definition schedule_of (business : Z) (instance : option Z) (data : ScheduleData) :
    Schedule :=
  mkSchedule (match instance with Some id => id | None => 0 end) business
    (data_staff data) (data_date data) (data_start_time data) (data_end_time data).

Lemma validate_iff_clean now business data instance db :
  snd (ScheduleSerializer.validate now instance data db) = inr data
  <-> date_of now <= data_date data
      /\ snd (Schedule_clean instance (schedule_of business instance data) db)
         = inr tt.
Proof.
  unfold ScheduleSerializer.validate, Schedule_clean, schedule_of.
  cbn [schedule_staff schedule_date schedule_start_time schedule_end_time].
  destruct (data_start_time data >=? data_end_time data);
    [cbn [snd]; split; [discriminate | intros [_ ?]; discriminate]|].
  destruct (Z.ltb_spec (data_date data) (date_of now)) as [Hd|Hd].
  - cbn [snd]. split; [discriminate | intros [? _]; lia].
  - destruct (exists_ _); cbn [snd].
    + split; [discriminate | intros [_ ?]; discriminate].
    + split; [intros _; split; [exact Hd | reflexivity] | reflexivity].
Qed.

Lemma validate_returns_data now instance data db d :
  snd (ScheduleSerializer.validate now instance data db) = inr d -> d = data.
Proof.
  unfold ScheduleSerializer.validate.
  destruct (_ >=? _); [discriminate|]. destruct (_ <? _); [discriminate|].
  destruct (exists_ _); [discriminate|]. now intros [= <-].
Qed.

Lemma validated_is_unique now instance data db :
  snd (ScheduleSerializer.validate now instance data db) = inr data ->
  ScheduleSerializer.unique_together instance data db = false.
Proof.
  unfold ScheduleSerializer.validate.
  destruct (data_start_time data >=? data_end_time data) eqn:Ew; [discriminate|].
  destruct (_ <? _); [discriminate|].
  destruct (exists_ _) eqn:Eo; [discriminate|]. intros _.
  rewrite Z.geb_leb in Ew. apply Z.leb_gt in Ew.
  unfold ScheduleSerializer.unique_together. apply exists__false.
  match goal with |- ?l = [] => destruct l as [|x l'] eqn:E end; [reflexivity|].
  exfalso.
  assert (In x (schedules db)
          /\ (forall id, instance = Some id -> schedule_id x <> id)
          /\ schedule_staff x = data_staff data
          /\ schedule_date x = data_date data
          /\ schedule_start_time x = data_start_time data
          /\ schedule_end_time x = data_end_time data) as (Hin & Hpk & Hst & Hd & H1 & H2).
  { assert (In x (x :: l')) as Hx by now left.
    rewrite <- E in Hx. destruct instance as [id|].
    - apply filter_In in Hx. destruct Hx as [Hx Hid].
      apply filter_In in Hx. destruct Hx as [Hx Hc].
      rewrite !andb_true_iff, !Z.eqb_eq in Hc.
      apply negb_true_iff, Z.eqb_neq in Hid.
      repeat split; try tauto. now intros ? [= <-].
    - apply filter_In in Hx. destruct Hx as [Hx Hc].
      rewrite !andb_true_iff, !Z.eqb_eq in Hc.
      repeat split; try tauto. discriminate. }
  apply (overlapping_schedules_nil _ _ _ _ _ _ x Eo Hin Hpk Hst Hd). lia.
Qed.

Lemma schedule_create_ok now business data sdb :
  snd (ScheduleSerializer.validate now None data (sdb_store sdb)) = inr data ->
  ScheduleViewSet.create now business data sdb
  = (mkScheduleDb
       (with_schedules (sdb_store sdb)
          (schedules (sdb_store sdb)
           ++ [set_schedule_id (schedule_of business None data)
                 (next_schedule_id sdb)]))
       (next_schedule_id sdb + 1),
     inr (set_schedule_id (schedule_of business None data) (next_schedule_id sdb))).
Proof.
  intros Hv.
  pose proof (proj1 (validate_iff_clean now business data None (sdb_store sdb)) Hv)
    as [_ Hc].
  unfold ScheduleViewSet.create, bindS at 1, ScheduleSerializer.is_valid, lift.
  rewrite (validated_is_unique _ _ _ _ Hv).
  pose proof (ScheduleSerializer_validate_reads now None data (sdb_store sdb)) as Hr.
  destruct (ScheduleSerializer.validate now None data (sdb_store sdb)) as [db' r].
  cbn [fst snd] in Hr, Hv. subst db' r.
  unfold ScheduleSerializer.save, Schedule_save, bindS, lift.
  cbn [sdb_store next_schedule_id].
  change (mkSchedule 0 business (data_staff data) (data_date data)
            (data_start_time data) (data_end_time data))
    with (schedule_of business None data).
  destruct (Schedule_clean None (schedule_of business None data) (sdb_store sdb))
    as [db' r] eqn:Ec.
  assert (db' = sdb_store sdb) as ->.
  { revert Ec. unfold Schedule_clean. destruct (_ >=? _); [now intros [= <- _]|].
    destruct (exists_ _); now intros [= <- _]. }
  cbn [snd] in Hc. subst r. reflexivity.
Qed.

Lemma schedule_create_err now business data sdb e :
  snd (ScheduleSerializer.validate now None data (sdb_store sdb)) = inl e ->
  exists e' : schedule_exn,
    ScheduleViewSet.create now business data sdb
    = (mkScheduleDb (sdb_store sdb) (next_schedule_id sdb), inl e')
    /\ (e' = NotUnique \/ e' = Raised e).
Proof.
  intros Hv. unfold ScheduleViewSet.create, bindS, ScheduleSerializer.is_valid, lift.
  destruct (ScheduleSerializer.unique_together None data (sdb_store sdb)).
  - exists NotUnique. split; [now destruct sdb | now left].
  - pose proof (ScheduleSerializer_validate_reads now None data (sdb_store sdb)) as Hr.
    destruct (ScheduleSerializer.validate now None data (sdb_store sdb)) as [db' r].
    cbn [fst snd] in Hr, Hv. subst db' r. exists (Raised e). split; [reflexivity|].
    now right.
Qed.

(** X16. [ScheduleSerializer.validate] accepts exactly the data that
    [Schedule.clean] accepts and whose date is not before today: the two
    run the same overlap query, and only the serializer looks at the date.
    What it accepts repeats no schedule, so the validator derived from
    [unique_together] refuses nothing that [validate] would accept.  A
    schedule that passed the serializer is never refused by the save of
    the model: [create] succeeds exactly when [validate] accepts, and then
    appends the schedule under the next key; when [validate] refuses,
    [create] fails and writes nothing. *)
Theorem schedule_serializer_is_clean_and_date :
  forall (now : datetime) (business : Z) (data : ScheduleData),
    (forall (instance : option Z) (db : Store),
       (snd (ScheduleSerializer.validate now instance data db) = inr data
        <-> date_of now <= data_date data
            /\ snd (Schedule_clean instance (schedule_of business instance data) db)
               = inr tt)
       /\ (snd (ScheduleSerializer.validate now instance data db) = inr data ->
           ScheduleSerializer.unique_together instance data db = false))
    /\ (forall (sdb : ScheduleDb),
          snd (ScheduleSerializer.validate now None data (sdb_store sdb)) = inr data ->
          ScheduleViewSet.create now business data sdb
          = (mkScheduleDb
               (with_schedules (sdb_store sdb)
                  (schedules (sdb_store sdb)
                   ++ [set_schedule_id (schedule_of business None data)
                         (next_schedule_id sdb)]))
               (next_schedule_id sdb + 1),
             inr (set_schedule_id (schedule_of business None data)
                    (next_schedule_id sdb))))
    /\ (forall (sdb : ScheduleDb) (e : exn),
          snd (ScheduleSerializer.validate now None data (sdb_store sdb)) = inl e ->
          exists e' : schedule_exn,
            snd (ScheduleViewSet.create now business data sdb) = inl e'
            /\ (e' = NotUnique \/ e' = Raised e)
            /\ sdb_store (fst (ScheduleViewSet.create now business data sdb))
               = sdb_store sdb).
Proof.
  intros now business data. split; [|split].
  - intros instance db. split; [apply validate_iff_clean | apply validated_is_unique].
  - intros sdb. apply schedule_create_ok.
  - intros sdb e Hv.
    destruct (schedule_create_err now business data sdb e Hv) as (e' & -> & He).
    exists e'. split; [reflexivity|]. split; [exact He | reflexivity].
Qed.

(** The schedule of the morning is created at 08:00 of its day; the
    afternoon of the day before is refused by the serializer alone. *)
Lemma schedule_serializer_is_clean_and_date_witness :
  ScheduleViewSet.create Scenario.now 1
    (mkScheduleData Scenario.staff Scenario.date (hm 9 0) (hm 12 0))
    (mkScheduleDb empty_store 1)
  = (mkScheduleDb (with_schedules empty_store
                     [mkSchedule 1 1 Scenario.staff Scenario.date (hm 9 0) (hm 12 0)])
       2,
     inr (mkSchedule 1 1 Scenario.staff Scenario.date (hm 9 0) (hm 12 0)))
  /\ snd (ScheduleSerializer.validate Scenario.now None
            (mkScheduleData Scenario.staff (Scenario.date - 1) (hm 13 0) (hm 17 0))
            empty_store)
     = inl (APIValidationError "Cannot create schedule for past dates.")
  /\ snd (Schedule_clean None
            (mkSchedule 0 1 Scenario.staff (Scenario.date - 1) (hm 13 0) (hm 17 0))
            empty_store)
     = inr tt.
Proof.
  split; [|split; reflexivity].
  exact (proj1 (proj2 (schedule_serializer_is_clean_and_date Scenario.now 1
                         (mkScheduleData Scenario.staff Scenario.date (hm 9 0) (hm 12 0))))
           (mkScheduleDb empty_store 1) eq_refl).
Defined.

(** ** The bulk creation of schedules *)

(** The schedules that the creation of [schedules_data] writes, the first
    under the key [n]. *)
Fixpoint created_schedules (business : Z) (n : Z) (schedules_data : list ScheduleData) :
    list Schedule :=
  match schedules_data with
  | [] => []
  | d :: rest =>
      set_schedule_id (schedule_of business None d) n
      :: created_schedules business (n + 1) rest
  end.

Lemma bulk_loop_outcome now business data :
  forall sdb sdb' outcome,
    ScheduleViewSet.bulk_loop now business data sdb = (sdb', outcome) ->
    exists k : nat,
      (k <= List.length data)%nat
      /\ schedules (sdb_store sdb')
         = schedules (sdb_store sdb)
           ++ created_schedules business (next_schedule_id sdb) (firstn k data)
      /\ next_schedule_id sdb' = next_schedule_id sdb + Z.of_nat k
      /\ match outcome with
         | inr created =>
             k = List.length data
             /\ created = created_schedules business (next_schedule_id sdb) data
         | inl e =>
             exists d e', nth_error data k = Some d
               /\ snd (ScheduleSerializer.validate now None d (sdb_store sdb'))
                  = inl e'
               /\ (e = NotUnique \/ e = Raised e')
         end.
Proof.
  induction data as [|d rest IH]; intros sdb sdb' outcome.
  - cbn [ScheduleViewSet.bulk_loop]. intros [= <- <-]. exists 0%nat.
    cbn [firstn created_schedules List.length]. rewrite app_nil_r, Z.add_0_r.
    repeat split; reflexivity || lia.
  - cbn [ScheduleViewSet.bulk_loop]. unfold bindS at 1.
    destruct (snd (ScheduleSerializer.validate now None d (sdb_store sdb)))
      as [e|d'] eqn:Ev.
    + destruct (schedule_create_err now business d sdb e Ev) as (e' & -> & He).
      intros [= <- <-].
      exists 0%nat. cbn [firstn created_schedules List.length sdb_store
                         next_schedule_id nth_error].
      rewrite app_nil_r, Z.add_0_r. split; [lia|]. split; [reflexivity|].
      split; [reflexivity|]. exists d, e. now repeat split.
    + pose proof (validate_returns_data _ _ _ _ _ Ev) as ->.
      rewrite (schedule_create_ok _ _ _ _ Ev). unfold bindS.
      destruct (ScheduleViewSet.bulk_loop now business rest _) as [sdb2 out2] eqn:El.
      apply IH in El. destruct El as (k & Hk & Hrows & Hnext & Hout).
      cbn [sdb_store next_schedule_id with_schedules schedules] in Hrows, Hnext, Hout.
      destruct out2 as [e|created]; intros [= <- <-]; exists (S k);
        cbn [firstn created_schedules List.length nth_error];
        (split; [lia|]);
        (split; [rewrite Hrows, <- app_assoc; reflexivity|]);
        (split; [lia|]).
      * exact Hout.
      * destruct Hout as [-> ->]. split; reflexivity.
Qed.

(** X17. [bulk_create] is not all or nothing.  It refuses an empty list;
    otherwise it validates and saves the schedules one after the other,
    each against the table that holds those before it, and stops at the
    first that the serializer refuses: the schedules before that one stay
    in the table, under consecutive keys.  When it succeeds, all of them
    are appended in the order of the request. *)
Theorem bulk_create_keeps_earlier_schedules :
  forall (now : datetime) (business : Z) (schedules_data : list ScheduleData)
         (sdb sdb' : ScheduleDb) (outcome : schedule_exn + list Schedule),
    ScheduleViewSet.bulk_create now business schedules_data sdb = (sdb', outcome) ->
    exists k : nat,
      (k <= List.length schedules_data)%nat
      /\ schedules (sdb_store sdb')
         = schedules (sdb_store sdb)
           ++ created_schedules business (next_schedule_id sdb)
                (firstn k schedules_data)
      /\ next_schedule_id sdb' = next_schedule_id sdb + Z.of_nat k
      /\ match outcome with
         | inr created =>
             schedules_data <> [] /\ k = List.length schedules_data
             /\ created
                = created_schedules business (next_schedule_id sdb) schedules_data
         | inl e =>
             (schedules_data = []
              /\ e = Raised (APIValidationError "No schedule data provided."))
             \/ exists d e', nth_error schedules_data k = Some d
                  /\ snd (ScheduleSerializer.validate now None d (sdb_store sdb'))
                     = inl e'
                  /\ (e = NotUnique \/ e = Raised e')
         end.
Proof.
  intros now business schedules_data sdb sdb' outcome.
  unfold ScheduleViewSet.bulk_create. destruct schedules_data as [|d rest].
  - intros [= <- <-]. exists 0%nat. cbn [firstn created_schedules List.length].
    rewrite app_nil_r, Z.add_0_r. split; [lia|]. split; [reflexivity|].
    split; [reflexivity|]. left. now split.
  - intros H. apply bulk_loop_outcome in H.
    destruct H as (k & Hk & Hrows & Hnext & Hout). exists k.
    split; [exact Hk|]. split; [exact Hrows|]. split; [exact Hnext|].
    destruct outcome as [e|created].
    + right. exact Hout.
    + destruct Hout as [-> ->]. split; [discriminate|]. split; reflexivity.
Qed.

(** Two schedules are sent, the second overlapping the first: the action
    fails, and the first is in the table. *)
Lemma bulk_create_keeps_earlier_schedules_witness :
  ScheduleViewSet.bulk_create Scenario.now 1
    [mkScheduleData Scenario.staff Scenario.date (hm 9 0) (hm 12 0);
     mkScheduleData Scenario.staff Scenario.date (hm 11 0) (hm 15 0)]
    (mkScheduleDb empty_store 1)
  = (mkScheduleDb
       (with_schedules empty_store
          [mkSchedule 1 1 Scenario.staff Scenario.date (hm 9 0) (hm 12 0)]) 2,
     inl (Raised (APIValidationError
            "This schedule overlaps with another schedule for this staff member.")))
  /\ exists k : nat,
       (k <= 2)%nat
       /\ [mkSchedule 1 1 Scenario.staff Scenario.date (hm 9 0) (hm 12 0)]
          = created_schedules 1 1
              (firstn k
                 [mkScheduleData Scenario.staff Scenario.date (hm 9 0) (hm 12 0);
                  mkScheduleData Scenario.staff Scenario.date (hm 11 0) (hm 15 0)]).
Proof.
  split; [reflexivity|].
  destruct (bulk_create_keeps_earlier_schedules Scenario.now 1
              [mkScheduleData Scenario.staff Scenario.date (hm 9 0) (hm 12 0);
               mkScheduleData Scenario.staff Scenario.date (hm 11 0) (hm 15 0)]
              (mkScheduleDb empty_store 1) _ _ eq_refl)
    as (k & Hk & Hrows & _).
  exists k. split; [exact Hk | exact Hrows].
Defined.

(** ** The availability test and the validation of [booking/utils.py] *)

(** X18. In a database where the rows of a staff member do not overlap,
    which [AppointmentService.clean] maintains, [is_staff_available] on a
    stored row, which leaves the row itself out of the conflicts, says
    whether a schedule covers the row: no other row can be in its way.  On
    an unsaved copy of an active row it answers no, the copy being in
    conflict with the row.  On an unsaved instance it is the availability
    test of [AppointmentViewSet] for the start and the length of the
    instance. *)
Theorem stored_row_is_available_to_itself :
  forall (db : Store) (r : AppointmentService),
    staff_rows_disjoint db ->
    In r (appointment_services db) ->
    Utils.is_staff_available db (Some (as_id r)) r
    = exists_ (BookingManager.covering_schedules db (as_staff r)
                 (as_start_time r) (as_end_time r))
    /\ (as_start_time r < as_end_time r ->
        appointment__status__in db ACTIVE r = true ->
        Utils.is_staff_available db None r = false)
    /\ (forall r' : AppointmentService,
          Utils.is_staff_available db None r'
          = AppointmentViewSet._is_staff_available db (as_staff r')
              (as_start_time r') (as_end_time r' - as_start_time r')).
Proof.
  intros db r Hdj Hin. split; [|split].
  - unfold Utils.is_staff_available, BookingManager.covering_schedules.
    destruct (exists_ (filter _ (schedules db))); [|reflexivity].
    cbn [negb exclude_pk].
    assert (filter (fun r0 => negb (as_id r0 =? as_id r))
              (filter (fun r0 => (as_staff r0 =? as_staff r)
                                 && (as_start_time r0 <? as_end_time r)
                                 && (as_end_time r0 >? as_start_time r)
                                 && appointment__status__in db ACTIVE r0)
                      (appointment_services db)) = []) as ->; [|reflexivity].
    destruct (filter _ (filter _ _)) as [|x l] eqn:E; [reflexivity|].
    assert (In x (x :: l)) as Hx by now left.
    rewrite <- E in Hx. apply filter_In in Hx. destruct Hx as [Hx Hid].
    apply filter_In in Hx. destruct Hx as [Hx Hc].
    rewrite !andb_true_iff, Z.eqb_eq, Z.ltb_lt, Z.gtb_lt in Hc.
    apply negb_true_iff, Z.eqb_neq in Hid.
    exfalso. apply (Hdj x r Hx Hin Hid); [tauto|]. unfold rows_overlap. tauto.
  - intros Hwf Hact. unfold Utils.is_staff_available.
    destruct (exists_ (filter _ (schedules db))); [|reflexivity].
    cbn [negb exclude_pk].
    assert (In r (filter (fun r0 => (as_staff r0 =? as_staff r)
                                 && (as_start_time r0 <? as_end_time r)
                                 && (as_end_time r0 >? as_start_time r)
                                 && appointment__status__in db ACTIVE r0)
                      (appointment_services db))) as Hr.
    { apply filter_In. split; [exact Hin|].
      rewrite !andb_true_iff, Z.eqb_eq, Z.ltb_lt, Z.gtb_lt. tauto. }
    destruct (filter _ (appointment_services db)); [destruct Hr | reflexivity].
  - intros r'. unfold Utils.is_staff_available, AppointmentViewSet._is_staff_available,
      BookingManager.covering_schedules, BookingManager.overlapping_active.
    cbn [exclude_pk].
    replace (as_start_time r' + (as_end_time r' - as_start_time r'))
      with (as_end_time r') by lia.
    reflexivity.
Qed.

(** Ada's row is available to itself, and not to a copy of it. *)
Lemma stored_row_is_available_to_itself_witness :
  In Scenario.ada_row (appointment_services Scenario.db_booked)
  /\ Utils.is_staff_available Scenario.db_booked (Some 1) Scenario.ada_row = true
  /\ Utils.is_staff_available Scenario.db_booked None Scenario.ada_row = false.
Proof.
  assert (In Scenario.ada_row (appointment_services Scenario.db_booked)) as Hin
    by now left.
  split; [exact Hin|].
  destruct (stored_row_is_available_to_itself Scenario.db_booked Scenario.ada_row
              (reachable_disjoint _ db_booked_reachable) Hin) as (H1 & H2 & _).
  split; [exact (eq_trans H1 eq_refl) | apply H2; reflexivity].
Defined.

(** The sorted services follow one another: each ends no later than the
    next starts, and the next starts within 30 minutes of that end. *)
Fixpoint chained (l : list AppointmentService) : Prop :=
  match l with
  | a :: ((b :: _) as rest) =>
      (as_end_time a <= as_start_time b <= as_end_time a + minutes 30)
      /\ chained rest
  | _ => True
  end.

(** The service of the instance exists and lasts what the instance
    lasts, and the staff member is available for it. *)
Definition service_fits (db : Store) (x : option Z * AppointmentService) : Prop :=
  exists s, get_service db (as_service (snd x)) = Some s
            /\ as_end_time (snd x) - as_start_time (snd x) = duration s
            /\ Utils.is_staff_available db (fst x) (snd x) = true.

Lemma validate_loop_true db l :
  fst (Utils.validate_loop db l) = true
  <-> (forall x, In x l -> service_fits db x) /\ chained (map snd l).
Proof.
  induction l as [|[pk service] rest IH].
  - cbn. split; [intros _; split; [intros ? [] | exact I] | reflexivity].
  - cbn [Utils.validate_loop].
    destruct (get_service db (as_service service)) as [s|] eqn:Es.
    2:{ cbn [fst]. split; [discriminate|]. intros [H _].
        destruct (H (pk, service) (or_introl eq_refl)) as (s & Hs & _).
        cbn [snd] in Hs. congruence. }
    destruct (Z.eqb_spec (as_end_time service - as_start_time service) (duration s))
      as [Ed|Ed]; cbn [negb].
    2:{ cbn [fst]. split; [discriminate|]. intros [H _].
        destruct (H (pk, service) (or_introl eq_refl)) as (s' & Hs & Hd & _).
        cbn [snd] in Hs, Hd. congruence. }
    assert (fst (if negb (Utils.is_staff_available db pk service)
                    then (false, String.append "Staff not available for service: "
                                   (service_name s))
                    else Utils.validate_loop db rest) = true
               <-> (forall x, In x ((pk, service) :: rest) -> service_fits db x)
                   /\ chained (map snd rest)) as Hstaff.
    { destruct (Utils.is_staff_available db pk service) eqn:Ea; cbn [negb].
      - rewrite IH. split.
        + intros [H1 H2]. split; [|exact H2]. intros x [<-|Hx]; [|now apply H1].
          exists s. cbn [fst snd]. now repeat split.
        + intros [H1 H2]. split; [|exact H2]. intros x Hx. apply H1. now right.
      - cbn [fst]. split; [discriminate|]. intros [H _].
        destruct (H (pk, service) (or_introl eq_refl)) as (s' & _ & _ & Ha).
        cbn [fst snd] in Ha. congruence. }
    destruct rest as [|[pk2 next_service] rest'].
    + rewrite Hstaff. cbn [map chained]. tauto.
    + rewrite Z.gtb_ltb.
      destruct (Z.ltb_spec (as_start_time next_service) (as_end_time service))
        as [Ho|Ho].
      * cbn [fst]. split; [discriminate|]. intros [_ H].
        cbn [map snd chained] in H. lia.
      * rewrite Z.gtb_ltb.
        destruct (Z.ltb_spec (minutes 30)
                    (as_start_time next_service - as_end_time service)) as [Hg|Hg].
        -- cbn [fst]. split; [discriminate|]. intros [_ H].
           cbn [map snd chained] in H. lia.
        -- rewrite Hstaff.
           change (map snd ((pk, service) :: (pk2, next_service) :: rest'))
             with (service :: map snd ((pk2, next_service) :: rest')).
           change (map snd ((pk2, next_service) :: rest'))
             with (next_service :: map snd rest').
           change (chained (service :: next_service :: map snd rest'))
             with ((as_end_time service <= as_start_time next_service
                    <= as_end_time service + minutes 30)
                   /\ chained (next_service :: map snd rest')).
           split; [intros [H1 H2]; repeat split; [exact H1 | lia | lia | exact H2]
                  | intros [H1 [_ H2]]; split; assumption].
Qed.

Lemma chained_sorted_disjoint (l : list AppointmentService) :
  StronglySorted (fun a b => as_start_time a <= as_start_time b) l ->
  chained l ->
  ForallOrdPairs (fun a b => as_end_time a <= as_start_time b) l.
Proof.
  induction 1 as [|a l Hs IH Ha]; intros Hc; [constructor|].
  destruct l as [|b l]; [repeat constructor|].
  change (chained (a :: b :: l))
    with ((as_end_time a <= as_start_time b <= as_end_time a + minutes 30)
          /\ chained (b :: l)) in Hc.
  destruct Hc as [Hab Hc]. constructor; [|now apply IH].
  apply Forall_forall. intros c Hin.
  inversion Hs as [|? ? Hs' Hb]; subst.
  destruct Hin as [<-|Hin]; [lia|].
  rewrite Forall_forall in Hb. specialize (Hb c Hin). lia.
Qed.

Lemma map_order_by_snd {A} (key : A -> Z) (l : list (option Z * A)) :
  map snd (order_by (fun x => key (snd x)) l) = order_by key (map snd l).
Proof.
  induction l as [|x l IH]; [reflexivity|].
  cbn [order_by fold_right map].
  change (fold_right (insert_by (fun x => key (snd x))) [] l)
    with (order_by (fun x => key (snd x)) l).
  change (fold_right (insert_by key) [] (map snd l)) with (order_by key (map snd l)).
  rewrite <- IH. generalize (order_by (fun x => key (snd x)) l). intros m.
  induction m as [|y m IHm]; [reflexivity|].
  cbn [insert_by map]. destruct (key (snd x) <=? key (snd y)); cbn [map];
    [reflexivity | now rewrite IHm].
Qed.

(** X19. [validate_appointment_services] accepts a list exactly when it
    is not empty, the service of every instance exists and lasts what the
    instance lasts, the staff member of every instance is available for
    it, and the instances in the order of their starts follow one another:
    each ends no later than the next starts, which starts at most 30
    minutes later.  In a list it accepts no two instances overlap. *)
Theorem validate_appointment_services_accepts_chains :
  forall (db : Store) (appointment_services : list (option Z * AppointmentService)),
    (fst (Utils.validate_appointment_services db appointment_services) = true
     <-> appointment_services <> []
         /\ (forall x, In x appointment_services -> service_fits db x)
         /\ chained (order_by as_start_time (map snd appointment_services)))
    /\ (fst (Utils.validate_appointment_services db appointment_services) = true ->
        ForallOrdPairs (fun a b => as_end_time a <= as_start_time b)
          (order_by as_start_time (map snd appointment_services))).
Proof.
  intros db l.
  assert (fst (Utils.validate_appointment_services db l) = true
     <-> l <> []
         /\ (forall x, In x l -> service_fits db x)
         /\ chained (order_by as_start_time (map snd l))) as H.
  { unfold Utils.validate_appointment_services. destruct l as [|x l].
    - cbn [fst]. split; [discriminate | intros [H _]; now elim H].
    - rewrite validate_loop_true, map_order_by_snd.
      split.
      + intros [H1 H2]. split; [discriminate|]. split; [|exact H2].
        intros y Hy. apply H1. now apply order_by_In.
      + intros (_ & H1 & H2). split; [|exact H2].
        intros y Hy. apply H1. now apply order_by_In in Hy. }
  split; [exact H|]. intros Ht. apply H in Ht. destruct Ht as (_ & _ & Hc).
  apply chained_sorted_disjoint; [apply order_by_sorted | exact Hc].
Qed.

(** Two haircuts in a row, 09:00 and 09:30, on the open morning. *)
Lemma validate_appointment_services_accepts_chains_witness :
  Utils.validate_appointment_services Scenario.db_open
    [(None, Scenario.pair_second); (None, Scenario.pair_first)]
  = (true, "Valid services schedule")
  /\ ForallOrdPairs (fun a b => as_end_time a <= as_start_time b)
       [Scenario.pair_first; Scenario.pair_second].
Proof.
  split; [reflexivity|].
  exact (proj2 (validate_appointment_services_accepts_chains Scenario.db_open
                  [(None, Scenario.pair_second); (None, Scenario.pair_first)])
           eq_refl).
Defined.

(** ** The [reschedule] action moves the whole appointment *)

(** The row, moved by a difference. *)
Definition shifted (time_difference : timedelta) (r : AppointmentService) :
    AppointmentService :=
  set_times r (as_start_time r + time_difference) (as_end_time r + time_difference).

(** The row, moved when its key is that of one of [saved]. *)
Definition moved (time_difference : timedelta) (saved : list AppointmentService)
    (r : AppointmentService) : AppointmentService :=
  if existsb (fun s => as_id s =? as_id r) saved then shifted time_difference r
  else r.

Lemma NoDup_map_filter {A} (key : A -> Z) (f : A -> bool) (l : list A) :
  NoDup (map key l) -> NoDup (map key (filter f l)).
Proof.
  induction l as [|x l IH]; simpl; [trivial|]. intros H.
  inversion H as [|? ? Hx Hl]; subst. destruct (f x); simpl; [|now apply IH].
  constructor; [|now apply IH]. intros Hin. apply Hx.
  apply in_map_iff in Hin. destruct Hin as (y & Hy & Hin).
  apply filter_In in Hin. apply in_map_iff. exists y. tauto.
Qed.

Lemma NoDup_map_eq {A} (key : A -> Z) (l : list A) (a b : A) :
  NoDup (map key l) -> In a l -> In b l -> key a = key b -> a = b.
Proof.
  induction l as [|x l IH]; simpl; [contradiction|]. intros H Ha Hb Hk.
  inversion H as [|? ? Hx Hl]; subst.
  destruct Ha as [<-|Ha], Hb as [<-|Hb]; [reflexivity| | |now apply IH].
  - elim Hx. rewrite Hk. now apply in_map.
  - elim Hx. rewrite <- Hk. now apply in_map.
Qed.

Lemma In_firstn {A} (k : nat) (l : list A) (x : A) :
  In x (firstn k l) -> In x l.
Proof.
  revert l. induction k as [|k IH]; intros [|y l]; simpl; try contradiction.
  intros [H|H]; [now left | right; now apply IH].
Qed.

Lemma shift_services_outcome now time_difference services :
  forall db db' out,
    NoDup (map as_id (appointment_services db)) ->
    NoDup (map as_id services) ->
    (forall s, In s services -> In s (appointment_services db)) ->
    AppointmentViewSet.shift_services now time_difference services db = (db', out) ->
    exists k : nat,
      (k <= List.length services)%nat
      /\ appointment_services db'
         = map (moved time_difference (firstn k services)) (appointment_services db)
      /\ appointments db' = appointments db
      /\ match out with
         | inr _ => k = List.length services
         | inl _ => (k < List.length services)%nat
         end.
Proof.
  induction services as [|s rest IH]; intros db db' out Hnd Hs Hin.
  - cbn [AppointmentViewSet.shift_services]. unfold ret. intros [= <- <-].
    exists 0%nat. cbn [firstn List.length]. split; [lia|].
    split; [|split; reflexivity].
    transitivity (map (fun x => x) (appointment_services db));
      [symmetry; apply map_id | apply map_ext; reflexivity].
  - cbn [AppointmentViewSet.shift_services]. unfold bind at 1.
    change (set_times s (as_start_time s + time_difference)
              (as_end_time s + time_difference)) with (shifted time_difference s).
    change (Some (as_id s)) with (Some (as_id (shifted time_difference s))).
    destruct (AppointmentService_save now (Some (as_id (shifted time_difference s)))
                (shifted time_difference s) db) as [db1 res] eqn:E.
    apply AppointmentService_save_existing in E. destruct E as [Herr Hok].
    destruct res as [e|r'].
    + rewrite (Herr e eq_refl). intros [= <- <-]. exists 0%nat.
      cbn [firstn List.length]. split; [lia|]. split; [|split; [reflexivity | lia]].
      transitivity (map (fun x => x) (appointment_services db));
      [symmetry; apply map_id | apply map_ext; reflexivity].
    + destruct (Hok r' eq_refl) as (_ & Hrows & Happ).
      assert (In s (appointment_services db)) as Hsin by (apply Hin; now left).
      inversion Hs as [|? ? Hsid Hrest]; subst.
      assert (appointment_services db1
              = map (fun y => if as_id y =? as_id s then shifted time_difference s
                              else y) (appointment_services db)) as Hrows1.
      { rewrite Hrows. unfold upsert.
        assert (existsb (fun y => as_id y =? as_id (shifted time_difference s))
                  (appointment_services db) = true) as ->; [|reflexivity].
        apply existsb_exists. exists s. split; [exact Hsin | apply Z.eqb_refl]. }
      intros H.
      apply IH in H.
      * destruct H as (k & Hk & Hrows' & Happ' & Hout). exists (S k).
        cbn [firstn List.length]. split; [lia|]. split; [|split].
        -- rewrite Hrows', Hrows1, map_map. apply map_ext_in. intros y Hy.
           unfold moved. cbn [existsb].
           destruct (Z.eqb_spec (as_id y) (as_id s)) as [Ey|Ey].
           ++ assert (y = s) as -> by (apply (NoDup_map_eq as_id _ _ _ Hnd Hy Hsin Ey)).
              rewrite Z.eqb_refl. cbn [orb].
              assert (existsb (fun s0 => as_id s0 =? as_id (shifted time_difference s))
                        (firstn k rest) = false) as ->; [|reflexivity].
              destruct (existsb _ (firstn k rest)) eqn:Ex; [|reflexivity].
              apply existsb_exists in Ex. destruct Ex as (z & Hz & Hzk).
              apply Z.eqb_eq in Hzk. elim Hsid. apply in_map_iff. exists z.
              split; [exact Hzk|]. exact (In_firstn _ _ _ Hz).
           ++ assert ((as_id s =? as_id y) = false) as ->
                by (apply Z.eqb_neq; congruence).
              reflexivity.
        -- congruence.
        -- destruct out; lia.
      * rewrite Hrows1, map_map.
        assert (map (fun x => as_id (if as_id x =? as_id s
                                     then shifted time_difference s else x))
                  (appointment_services db)
                = map as_id (appointment_services db)) as ->; [|exact Hnd].
        apply map_ext. intros y. destruct (Z.eqb_spec (as_id y) (as_id s)) as [Ey|Ey];
          [now rewrite Ey | reflexivity].
      * exact Hrest.
      * intros s' Hs'. rewrite Hrows. apply upsert_In_old; [apply Hin; now right|].
        intros Hk. apply Hsid. apply in_map_iff. exists s'. now split.
Qed.

Lemma check_staff_reads db new_start_time services db0 :
  fst (AppointmentViewSet.check_staff db new_start_time services db0) = db0.
Proof.
  induction services as [|s rest IH]; cbn [AppointmentViewSet.check_staff];
    [reflexivity|].
  destruct (get_service db (as_service s)); [|reflexivity].
  destruct (negb _); [reflexivity | exact IH].
Qed.

Lemma reschedule_validate_reads now data_appointment_id data_new_start_time db :
  fst (AppointmentViewSet.AppointmentRescheduleSerializer_validate now
         data_appointment_id data_new_start_time db) = db.
Proof.
  unfold AppointmentViewSet.AppointmentRescheduleSerializer_validate.
  destruct (get_appointment db data_appointment_id); [|reflexivity].
  destruct (status_in _ _); [reflexivity|]. now destruct (_ <? _).
Qed.

Lemma check_staff_error db new_start_time services db0 db1 e :
  AppointmentViewSet.check_staff db new_start_time services db0 = (db1, inl e) ->
  e = DoesNotExist \/ e = StaffUnavailableError.
Proof.
  induction services as [|s rest IH]; cbn [AppointmentViewSet.check_staff];
    [discriminate|].
  destruct (get_service db (as_service s)); [|intros [= _ <-]; now left].
  destruct (negb _); [intros [= _ <-]; now right | exact IH].
Qed.

Lemma clean_error now pk self db db' e :
  AppointmentService_clean now pk self db = (db', inl e) ->
  exists message, e = ValidationError message.
Proof.
  unfold AppointmentService_clean.
  repeat match goal with
         | |- context [if ?c then _ else _] => destruct c
         end; intros H; try discriminate H; injection H as _ <-; eexists;
    reflexivity.
Qed.

Lemma shift_services_error now time_difference services :
  forall db db' e,
    AppointmentViewSet.shift_services now time_difference services db = (db', inl e) ->
    exists message, e = ValidationError message.
Proof.
  induction services as [|s rest IH]; intros db db' e;
    cbn [AppointmentViewSet.shift_services]; [discriminate|].
  unfold bind at 1. unfold AppointmentService_save at 1. unfold bind at 1.
  destruct (AppointmentService_clean now _ _ db) as [db1 [e1|[]]] eqn:Ec.
  - intros [= _ <-]. exact (clean_error _ _ _ _ _ _ Ec).
  - apply IH.
Qed.

(** X20. On a table whose rows have distinct keys, when the [reschedule]
    action of the view ends in the [ImportError] of its notification, it
    has passed its checks and made its writes: the new start is not in the
    past, and every row of the appointment has been moved by the same
    difference, the one that takes the earliest row to the new start, so
    every row keeps its length and the gaps between the rows are kept;
    the rows of the other appointments are as they were.
    [BookingManager.reschedule_appointment] moves the first row only. *)
Theorem view_reschedule_moves_every_row :
  forall (now : datetime) (user_business pk data_appointment_id : Z)
         (new_start_time : datetime) (db db' : Store),
    NoDup (map as_id (appointment_services db)) ->
    AppointmentViewSet.reschedule now user_business pk data_appointment_id
      new_start_time db = (db', inl ImportError) ->
    exists first : AppointmentService,
      In first (services_all db (Some pk))
      /\ (forall r, In r (services_all db (Some pk)) ->
                    as_start_time first <= as_start_time r)
      /\ appointment_services db'
         = map (fun r => if as_appointment r =? pk
                         then shifted (new_start_time - as_start_time first) r
                         else r)
             (appointment_services db)
      /\ as_start_time (shifted (new_start_time - as_start_time first) first)
         = new_start_time
      /\ now <= new_start_time.
Proof.
  intros now user_business pk data_id new_start_time db db' Hnd.
  unfold AppointmentViewSet.reschedule. unfold bind at 1.
  destruct (AppointmentViewSet.get_object user_business pk db) as [db0 [e|app]] eqn:Eg;
    [unfold AppointmentViewSet.get_object in Eg; destruct (find _ _); congruence|].
  apply get_object_found in Eg. destruct Eg as (-> & _ & Hid & _).
  unfold bind at 1.
  pose proof (reschedule_validate_reads now data_id new_start_time db) as Hv.
  destruct (AppointmentViewSet.AppointmentRescheduleSerializer_validate now data_id
              new_start_time db) as [db0 [e|[]]] eqn:Ev.
  { unfold AppointmentViewSet.AppointmentRescheduleSerializer_validate in Ev.
    destruct (get_appointment db data_id); [|congruence].
    destruct (status_in _ _); [congruence|]. destruct (_ <? _); congruence. }
  cbn [fst] in Hv. subst db0.
  destruct (Z.ltb_spec new_start_time now) as [Hpast|Hpast]; [discriminate|].
  unfold bind at 1, get. unfold bind at 1.
  rewrite Hid.
  pose proof (check_staff_reads db new_start_time
                (order_by as_start_time (services_all db (Some pk))) db) as Hc.
  destruct (AppointmentViewSet.check_staff db new_start_time _ db) as [db0 [e|[]]]
    eqn:Ecs.
  { apply check_staff_error in Ecs. destruct Ecs; subst e; discriminate. }
  cbn [fst] in Hc. subst db0.
  destruct (order_by as_start_time (services_all db (Some pk)))
    as [|first rest] eqn:Eo; [discriminate|].
  unfold bind at 1.
  destruct (AppointmentViewSet.shift_services now (new_start_time - as_start_time first)
              (first :: rest) db) as [db1 [e|[]]] eqn:Es.
  { apply shift_services_error in Es. destruct Es as [m ->]. discriminate. }
  rewrite then_notify. intros Hsave. apply (f_equal fst) in Hsave. cbn [fst] in Hsave.
  assert (forall s, In s (first :: rest) <->
                    In s (appointment_services db) /\ as_appointment s = pk) as Hmem.
  { intros s. rewrite <- Eo, order_by_In. unfold services_all.
    rewrite filter_In, Z.eqb_eq. tauto. }
  assert (NoDup (map as_id (first :: rest))) as Hnd'.
  { rewrite <- Eo.
    apply (Permutation_NoDup
             (Permutation_map as_id
                (Permutation_sym (order_by_Permutation as_start_time
                                    (services_all db (Some pk)))))).
    unfold services_all. now apply NoDup_map_filter. }
  apply shift_services_outcome in Es; [|exact Hnd|exact Hnd'|intros s Hs; now apply Hmem].
  destruct Es as (k & _ & Hrows & _ & ->).
  rewrite firstn_all in Hrows.
  assert (appointment_services db' = appointment_services db1) as Hr.
  { rewrite <- Hsave. apply Appointment_save_rows. }
  assert (StronglySorted (fun x y => as_start_time x <= as_start_time y)
            (first :: rest)) as Hsorted.
  { rewrite <- Eo. apply order_by_sorted. }
  assert (forall r, In r (services_all db (Some pk)) ->
                    as_start_time first <= as_start_time r) as Hmin.
  { intros r Hr'. apply (order_by_In as_start_time) in Hr'. rewrite Eo in Hr'.
    inversion Hsorted as [|? ? _ Hall]; subst. rewrite Forall_forall in Hall.
    destruct Hr' as [<-|Hr']; [lia | now apply Hall]. }
  exists first. split; [|split; [exact Hmin|split; [|split]]].
  - apply (order_by_In as_start_time). rewrite Eo. now left.
  - rewrite Hr, Hrows. apply map_ext_in. intros r Hr'. unfold moved.
    destruct (Z.eqb_spec (as_appointment r) pk) as [Ea|Ea].
    + assert (existsb (fun s => as_id s =? as_id r) (first :: rest) = true) as ->;
        [|reflexivity].
      apply existsb_exists. exists r. split; [now apply Hmem | apply Z.eqb_refl].
    + assert (existsb (fun s => as_id s =? as_id r) (first :: rest) = false) as ->;
        [|reflexivity].
      destruct (existsb _ (first :: rest)) eqn:Ex; [|reflexivity].
      apply existsb_exists in Ex. destruct Ex as (s & Hs & Hk).
      apply Z.eqb_eq in Hk. apply Hmem in Hs. destruct Hs as [Hs Hsa].
      elim Ea. rewrite <- (NoDup_map_eq as_id _ _ _ Hnd Hs Hr' Hk). exact Hsa.
  - unfold shifted, set_times. cbn [as_start_time]. lia.
  - exact Hpast.
Qed.

(** The appointment of two services is moved from 09:00 to 10:00: both
    rows are an hour later. *)
Lemma view_reschedule_moves_every_row_witness :
  NoDup (map as_id (appointment_services Scenario.db_pair))
  /\ exists first : AppointmentService,
       In first (services_all Scenario.db_pair (Some 1))
       /\ [set_times Scenario.pair_first (Scenario.at_ 10 0) (Scenario.at_ 10 30);
           set_times Scenario.pair_second (Scenario.at_ 10 30) (Scenario.at_ 11 0)]
          = map (fun r => if as_appointment r =? 1
                          then shifted (Scenario.at_ 10 0 - as_start_time first) r
                          else r)
              (appointment_services Scenario.db_pair).
Proof.
  assert (NoDup (map as_id (appointment_services Scenario.db_pair))) as Hnd.
  { constructor; [intros [H|[]]; discriminate H|].
    constructor; [intros []|constructor]. }
  split; [exact Hnd|].
  destruct (view_reschedule_moves_every_row Scenario.now 1 1 1 (Scenario.at_ 10 0)
              Scenario.db_pair _ Hnd view_reschedule_shifts_every_service)
    as (first & Hin & _ & Hrows & _).
  exists first. split; [exact Hin | exact Hrows].
Defined.

Lemma check_staff_fails db new_start_time services db0 r s :
  In r services ->
  get_service db (as_service r) = Some s ->
  AppointmentViewSet._is_staff_available db (as_staff r) new_start_time (duration s)
  = false ->
  exists e, AppointmentViewSet.check_staff db new_start_time services db0
            = (db0, inl e).
Proof.
  intros Hin Hs Ha. induction services as [|x rest IH]; [destruct Hin|].
  cbn [AppointmentViewSet.check_staff].
  destruct (get_service db (as_service x)) as [sx|] eqn:Ex;
    [|now exists DoesNotExist].
  destruct (AppointmentViewSet._is_staff_available db (as_staff x) new_start_time
              (duration sx)) eqn:Eax; cbn [negb];
    [|now exists StaffUnavailableError].
  destruct Hin as [->|Hin]; [|now apply IH].
  rewrite Hs in Ex. injection Ex as <-. congruence.
Qed.

(** X21. The [reschedule] action of the view tests the staff member of
    every row at the new start with no exclusion, so the rows of the
    appointment itself are in the way: when the service of a row of the
    appointment, placed at the new start, would overlap the present
    interval of that row, and the appointment is active, the action fails
    and writes nothing.  An appointment can not be moved by less than the
    length of its service. *)
Theorem view_reschedule_refuses_its_own_slot :
  forall (now : datetime) (user_business pk data_appointment_id : Z)
         (new_start_time : datetime) (db : Store) (r : AppointmentService)
         (s : Service),
    In r (services_all db (Some pk)) ->
    get_service db (as_service r) = Some s ->
    appointment__status__in db ACTIVE r = true ->
    as_start_time r < new_start_time + duration s ->
    new_start_time < as_end_time r ->
    exists e : exn,
      AppointmentViewSet.reschedule now user_business pk data_appointment_id
        new_start_time db = (db, inl e).
Proof.
  intros now user_business pk data_id new_start_time db r s Hin Hs Hact H1 H2.
  unfold AppointmentViewSet.reschedule. unfold bind at 1.
  destruct (AppointmentViewSet.get_object user_business pk db) as [db0 [e|app]] eqn:Eg.
  - unfold AppointmentViewSet.get_object in Eg.
    destruct (find _ _); [discriminate Eg|]. injection Eg as <- <-.
    now exists Http404.
  - apply get_object_found in Eg. destruct Eg as (-> & _ & Hid & _).
    unfold bind at 1.
    pose proof (reschedule_validate_reads now data_id new_start_time db) as Hv.
    destruct (AppointmentViewSet.AppointmentRescheduleSerializer_validate now data_id
                new_start_time db) as [db0 [e|[]]]; cbn [fst] in Hv; subst db0;
      [now exists e|].
    destruct (new_start_time <? now); [now exists PastDateError|].
    unfold bind at 1, get. rewrite Hid.
    assert (AppointmentViewSet._is_staff_available db (as_staff r) new_start_time
              (duration s) = false) as Ha.
    { unfold AppointmentViewSet._is_staff_available.
      destruct (exists_ (BookingManager.covering_schedules _ _ _ _));
        [|reflexivity].
      cbn [negb].
      assert (In r (BookingManager.overlapping_active db (as_staff r) new_start_time
                      (new_start_time + duration s))) as Hr.
      { unfold BookingManager.overlapping_active. apply filter_In.
        unfold services_all in Hin. apply filter_In in Hin.
        split; [tauto|].
        rewrite !andb_true_iff, Z.eqb_eq, Z.ltb_lt, Z.gtb_lt. tauto. }
      destruct (BookingManager.overlapping_active _ _ _ _); [destruct Hr | reflexivity]. }
    destruct (check_staff_fails db new_start_time
                (order_by as_start_time (services_all db (Some pk))) db r s
                (proj2 (order_by_In as_start_time _ r) Hin) Hs Ha) as (e & He).
    exists e. unfold bind at 1. now rewrite He.
Qed.

(** Ada's half hour at 09:00 can not be moved to 09:15. *)
Lemma view_reschedule_refuses_its_own_slot_witness :
  exists e : exn,
    AppointmentViewSet.reschedule Scenario.now 1 1 1 (Scenario.at_ 9 15)
      Scenario.db_booked = (Scenario.db_booked, inl e).
Proof.
  apply (view_reschedule_refuses_its_own_slot Scenario.now 1 1 1 (Scenario.at_ 9 15)
           Scenario.db_booked Scenario.ada_row Scenario.haircut).
  - now left.
  - reflexivity.
  - reflexivity.
  - reflexivity.
  - reflexivity.
Defined.

(** ** The actions of a business leave the other businesses alone *)

(** The appointments of the other businesses and their rows are in [db']
    as they are in [db]. *)
Definition others_untouched (user_business : Z) (db db' : Store) : Prop :=
  forall a, In a (appointments db) -> business a <> user_business ->
    In a (appointments db')
    /\ services_all db' (Some (appointment_id a))
       = services_all db (Some (appointment_id a)).

Lemma others_untouched_refl user_business db : others_untouched user_business db db.
Proof. intros a Ha _. now split. Qed.

Lemma Appointment_save_others pk x db a :
  In a (appointments db) -> appointment_id a <> pk ->
  In a (appointments (fst (Appointment_save (Some pk) x db)))
  /\ appointment_services (fst (Appointment_save (Some pk) x db))
     = appointment_services db.
Proof.
  intros Ha Hid. split; [|apply Appointment_save_rows].
  unfold Appointment_save. cbn [fst with_appointments appointments].
  apply upsert_In_old; [exact Ha|]. now destruct x.
Qed.

Lemma filter_map_fix {A} (f : A -> bool) (g : A -> A) (l : list A) :
  (forall x, In x l -> f (g x) = f x) ->
  (forall x, In x l -> f x = true -> g x = x) ->
  filter f (map g l) = filter f l.
Proof.
  induction l as [|x l IH]; intros H1 H2; [reflexivity|].
  cbn [map filter]. rewrite (H1 x (or_introl eq_refl)).
  destruct (f x) eqn:E.
  - rewrite (H2 x (or_introl eq_refl) E). f_equal.
    apply IH; intros y Hy; [apply H1 | apply H2]; now right.
  - apply IH; intros y Hy; [apply H1 | apply H2]; now right.
Qed.

Lemma moved_rows_of_others time_difference saved pk id db :
  NoDup (map as_id (appointment_services db)) ->
  (forall s, In s saved -> In s (appointment_services db) /\ as_appointment s = pk) ->
  id <> pk ->
  filter (fun r => as_appointment r =? id)
    (map (moved time_difference saved) (appointment_services db))
  = filter (fun r => as_appointment r =? id) (appointment_services db).
Proof.
  intros Hnd Hsaved Hid. apply filter_map_fix.
  - intros r _. unfold moved. now destruct (existsb _ saved).
  - intros r Hr Ha. apply Z.eqb_eq in Ha. unfold moved.
    destruct (existsb _ saved) eqn:Ex; [|reflexivity].
    apply existsb_exists in Ex. destruct Ex as (s & Hs & Hk).
    apply Z.eqb_eq in Hk. destruct (Hsaved s Hs) as [Hsin Hsa].
    pose proof (NoDup_map_eq as_id _ _ _ Hnd Hsin Hr Hk) as ->. congruence.
Qed.

Lemma found_is_not_of_others user_business pk db app a :
  NoDup (map appointment_id (appointments db)) ->
  In app (appointments db) -> appointment_id app = pk ->
  business app = user_business ->
  In a (appointments db) -> business a <> user_business ->
  appointment_id a <> pk.
Proof.
  intros Hnd Happ Hid Hb Ha Hab Heq.
  assert (a = app) as ->; [|contradiction].
  apply (NoDup_map_eq appointment_id _ _ _ Hnd Ha Happ). congruence.
Qed.

(** X22. The actions [cancel], [complete] and [reschedule] of
    [AppointmentViewSet], called by a user of one business, leave every
    appointment of another business and the rows of that appointment as
    they were, whether the action succeeds or fails and whatever key the
    request names: the appointment is looked up among those of the
    business of the user, and the saves write by key. *)
Theorem appointment_actions_stay_in_the_business :
  forall (now : datetime) (user_business pk data_appointment_id : Z)
         (new_start_time : datetime) (db : Store),
    NoDup (map appointment_id (appointments db)) ->
    NoDup (map as_id (appointment_services db)) ->
    others_untouched user_business db
      (fst (AppointmentViewSet.cancel user_business pk db))
    /\ others_untouched user_business db
         (fst (AppointmentViewSet.complete user_business pk db))
    /\ others_untouched user_business db
         (fst (AppointmentViewSet.reschedule now user_business pk
                 data_appointment_id new_start_time db)).
Proof.
  intros now user_business pk data_id new_start_time db Hnda Hndr.
  assert (forall app x,
            In app (appointments db) -> appointment_id app = pk ->
            business app = user_business ->
            others_untouched user_business db
              (fst (Appointment_save (Some pk) x db))) as Hsave.
  { intros app x Happ Hid Hb a Ha Hab.
    pose proof (found_is_not_of_others _ _ _ _ _ Hnda Happ Hid Hb Ha Hab) as Hne.
    destruct (Appointment_save_others pk x db a Ha Hne) as [H1 H2].
    split; [exact H1|]. unfold services_all. now rewrite H2. }
  split; [|split].
  - unfold AppointmentViewSet.cancel, bind.
    destruct (AppointmentViewSet.get_object user_business pk db) as [db0 [e|app]] eqn:Eg.
    + unfold AppointmentViewSet.get_object in Eg.
      destruct (find _ _); [discriminate Eg|]. injection Eg as <- <-.
      apply others_untouched_refl.
    + apply get_object_found in Eg. destruct Eg as (-> & Happ & Hid & Hb).
      destruct (status_in _ _); [apply others_untouched_refl|].
      cbn [set_status appointment_id]. rewrite Hid.
      now apply (Hsave app).
  - unfold AppointmentViewSet.complete, bind.
    destruct (AppointmentViewSet.get_object user_business pk db) as [db0 [e|app]] eqn:Eg.
    + unfold AppointmentViewSet.get_object in Eg.
      destruct (find _ _); [discriminate Eg|]. injection Eg as <- <-.
      apply others_untouched_refl.
    + apply get_object_found in Eg. destruct Eg as (-> & Happ & Hid & Hb).
      destruct (negb _); [apply others_untouched_refl|].
      cbn [set_status appointment_id]. rewrite Hid.
      now apply (Hsave app).
  - unfold AppointmentViewSet.reschedule. unfold bind at 1.
    destruct (AppointmentViewSet.get_object user_business pk db) as [db0 [e|app]] eqn:Eg.
    + unfold AppointmentViewSet.get_object in Eg.
      destruct (find _ _); [discriminate Eg|]. injection Eg as <- <-.
      apply others_untouched_refl.
    + apply get_object_found in Eg. destruct Eg as (-> & Happ & Hid & Hb).
      unfold bind at 1.
      pose proof (reschedule_validate_reads now data_id new_start_time db) as Hv.
      destruct (AppointmentViewSet.AppointmentRescheduleSerializer_validate now data_id
                  new_start_time db) as [db0 [e|[]]]; cbn [fst] in Hv; subst db0;
        [apply others_untouched_refl|].
      destruct (new_start_time <? now); [apply others_untouched_refl|].
      unfold bind at 1, get. rewrite Hid. unfold bind at 1.
      pose proof (check_staff_reads db new_start_time
                    (order_by as_start_time (services_all db (Some pk))) db) as Hc.
      destruct (AppointmentViewSet.check_staff db new_start_time _ db) as [db0 [e|[]]];
        cbn [fst] in Hc; subst db0; [apply others_untouched_refl|].
      destruct (order_by as_start_time (services_all db (Some pk)))
        as [|first rest] eqn:Eo; [apply others_untouched_refl|].
      assert (forall s, In s (first :: rest) ->
                In s (appointment_services db) /\ as_appointment s = pk) as Hmem.
      { intros s. rewrite <- Eo, order_by_In. unfold services_all.
        rewrite filter_In, Z.eqb_eq. tauto. }
      assert (NoDup (map as_id (first :: rest))) as Hnd'.
      { rewrite <- Eo.
        apply (Permutation_NoDup
                 (Permutation_map as_id
                    (Permutation_sym (order_by_Permutation as_start_time
                                        (services_all db (Some pk)))))).
        unfold services_all. now apply NoDup_map_filter. }
      unfold bind at 1.
      destruct (AppointmentViewSet.shift_services now
                  (new_start_time - as_start_time first) (first :: rest) db)
        as [db1 out] eqn:Es.
      apply shift_services_outcome in Es;
        [|exact Hndr|exact Hnd'|intros s Hs; now apply Hmem].
      destruct Es as (k & _ & Hrows & Happs & _).
      assert (others_untouched user_business db db1) as H1.
      { intros a Ha Hab. rewrite Happs. split; [exact Ha|].
        unfold services_all. rewrite Hrows.
        apply (moved_rows_of_others _ _ pk); [exact Hndr| |].
        - intros s Hs. apply Hmem. exact (In_firstn _ _ _ Hs).
        - exact (found_is_not_of_others _ _ _ _ _ Hnda Happ Hid Hb Ha Hab). }
      destruct out as [e|[]]; [exact H1|].
      rewrite then_notify. cbn [fst].
      intros a Ha Hab. destruct (H1 a Ha Hab) as [Ha1 Hr1].
      pose proof (found_is_not_of_others _ _ _ _ _ Hnda Happ Hid Hb Ha Hab) as Hne.
      destruct (Appointment_save_others pk app db1 a Ha1 Hne) as [H2 H3].
      split; [exact H2|]. rewrite <- Hr1. unfold services_all. now rewrite H3.
Qed.

(** A user of business 1 cancels Ada's appointment, and can not cancel
    Dora's, which is of business 2: Dora's is as it was in both cases. *)
Lemma appointment_actions_stay_in_the_business_witness :
  others_untouched 1 Examples.db_two_businesses
    (fst (AppointmentViewSet.cancel 1 1 Examples.db_two_businesses))
  /\ AppointmentViewSet.cancel 1 2 Examples.db_two_businesses
     = (Examples.db_two_businesses, inl Http404)
  /\ get_appointment (fst (AppointmentViewSet.cancel 1 1 Examples.db_two_businesses)) 2
     = Some Examples.dora.
Proof.
  assert (NoDup (map appointment_id (appointments Examples.db_two_businesses))) as Ha.
  { constructor; [intros [H|[]]; discriminate H|].
    constructor; [intros []|constructor]. }
  assert (NoDup (map as_id (appointment_services Examples.db_two_businesses))) as Hr.
  { constructor; [intros [H|[]]; discriminate H|].
    constructor; [intros []|constructor]. }
  split; [|split; reflexivity].
  exact (proj1 (appointment_actions_stay_in_the_business Scenario.now 1 1 1
                  Scenario.now Examples.db_two_businesses Ha Hr)).
Defined.

(** ** The permission classes keep a user within the business *)

(** The business that the permission classes compare with that of the
    user: the [business] of the object, or else that of its [user]. *)
Definition object_business (obj : Permissions.Obj) : option (option Z) :=
  match Permissions.obj_business obj with
  | Some b => Some b
  | None =>
      match Permissions.obj_user obj with
      | Some (Some b) => Some b
      | _ => None
      end
  end.

Lemma business_eqb_eq (a b : option Z) :
  Permissions.business_eqb a b = true -> a = b.
Proof.
  destruct a as [x|], b as [y|]; simpl; try discriminate; [|reflexivity].
  intros H. apply Z.eqb_eq in H. now subst.
Qed.

(** X23. Whatever the permission class, a detail view grants an object
    only to an authenticated user who is a system administrator or whose
    business is the business of the object, read from the [business] of
    the object or else from its [user]; an anonymous user is granted
    nothing.  [IsBusinessAdmin], [IsStaff] and [CanManageAppointments]
    grant nothing to a system administrator, and [IsSystemAdmin] grants
    only to one. *)
Theorem granted_only_within_the_business :
  forall (c : Permissions.PermissionClass) (user : Permissions.RequestUser)
         (obj : Permissions.Obj),
    Permissions.granted c user obj = inr true ->
    exists (t : Permissions.UserType) (b : option Z),
      user = Permissions.CustomUser t b
      /\ (t = Permissions.SYSTEM_ADMIN \/ object_business obj = Some b)
      /\ (t = Permissions.SYSTEM_ADMIN ->
          c <> Permissions.IsBusinessAdmin /\ c <> Permissions.IsStaff
          /\ c <> Permissions.CanManageAppointments)
      /\ (c = Permissions.IsSystemAdmin -> t = Permissions.SYSTEM_ADMIN).
Proof.
  intros c user obj H. destruct user as [|t b].
  - destruct c; cbn in H; discriminate H.
  - exists t, b. split; [reflexivity|].
    destruct obj as [ob ou]. unfold object_business. cbn [Permissions.obj_business
      Permissions.obj_user].
    destruct c, t; cbn in H; try discriminate H;
      (split; [first [left; reflexivity | idtac]
              | split; [intros Ht; try discriminate Ht;
                        repeat split; discriminate
                       | intros Hc; try discriminate Hc; reflexivity]]);
      right;
      destruct ob as [ob|]; cbn in H; try discriminate H;
      try (injection H as H; apply business_eqb_eq in H; now subst);
      destruct ou as [[ub|]|]; cbn in H; try discriminate H;
      injection H as H; apply business_eqb_eq in H; now subst.
Qed.

(** A staff member of business 1 is granted an appointment of business 1
    by the class of the appointment views. *)
Lemma granted_only_within_the_business_witness :
  Permissions.granted Permissions.IsStaffOrBusinessAdminOrSystemAdmin
    (Permissions.CustomUser Permissions.STAFF (Some 1))
    (Permissions.mkObj (Some (Some 1)) None) = inr true
  /\ Permissions.granted Permissions.IsStaffOrBusinessAdminOrSystemAdmin
       (Permissions.CustomUser Permissions.STAFF (Some 1))
       (Permissions.mkObj (Some (Some 2)) None) = inr false
  /\ exists (t : Permissions.UserType) (b : option Z),
       Permissions.CustomUser Permissions.STAFF (Some 1) = Permissions.CustomUser t b
       /\ (t = Permissions.SYSTEM_ADMIN
           \/ object_business (Permissions.mkObj (Some (Some 1)) None) = Some b).
Proof.
  split; [reflexivity|]. split; [reflexivity|].
  destruct (granted_only_within_the_business
              Permissions.IsStaffOrBusinessAdminOrSystemAdmin
              (Permissions.CustomUser Permissions.STAFF (Some 1))
              (Permissions.mkObj (Some (Some 1)) None) eq_refl)
    as (t & b & Hu & Hb & _).
  exists t, b. split; [exact Hu | exact Hb].
Defined.

(** ** The two listings of the free slots of a staff member *)

Lemma time_of_on_date date dt :
  date * day <= dt < (date + 1) * day -> time_of dt = dt - date * day.
Proof.
  intros H. pose proof day_pos as Hd. unfold time_of.
  rewrite Z.mod_eq by lia. fold (date_of dt). rewrite (date_of_unique _ _ H). lia.
Qed.



Lemma starts_on_the_date date (r : AppointmentService) (c e : datetime) :
  ends_by_midnight r ->
  date * day <= c -> e <= (date + 1) * day ->
  as_start_time r < e -> c < as_end_time r ->
  date_of (as_start_time r) = date.
Proof.
  intros Hm Hc He H1 H2. unfold ends_by_midnight, combine in Hm.
  pose proof (date_of_bounds (as_start_time r)) as Hb. pose proof day_pos as Hd.
  destruct (Z.lt_trichotomy (date_of (as_start_time r)) date) as [L|[E|G]];
    [|exact E|]; exfalso.
  - assert ((date_of (as_start_time r) + 1) * day <= date * day)
      by (apply Z.mul_le_mono_nonneg_r; lia).
    lia.
  - assert ((date + 1) * day <= date_of (as_start_time r) * day)
      by (apply Z.mul_le_mono_nonneg_r; lia).
    lia.
Qed.

Lemma available_in_schedule db staff schedule duration current_time :
  In schedule (schedules db) ->
  schedule_staff schedule = staff ->
  0 <= schedule_start_time schedule -> schedule_end_time schedule < day ->
  0 <= duration ->
  (forall r, In r (appointment_services db) -> as_staff r = staff ->
             appointment__status__in db ACTIVE r = true -> ends_by_midnight r) ->
  combine (schedule_date schedule) (schedule_start_time schedule) <= current_time ->
  current_time + duration
  <= combine (schedule_date schedule) (schedule_end_time schedule) ->
  AppointmentViewSet._is_staff_available db staff current_time duration
  = negb (existsb (fun appt => (as_start_time appt <? current_time + duration)
                               && (as_end_time appt >? current_time))
            (filter (fun r => (as_staff r =? staff)
                              && (date_of (as_start_time r) =? schedule_date schedule)
                              && appointment__status__in db ACTIVE r)
                    (appointment_services db))).
Proof.
  intros Hin Hst H0 H1 Hd Hrows Hc He. pose proof day_pos as Hday.
  unfold combine in Hc, He.
  set (date := schedule_date schedule) in *.
  assert (date * day <= current_time < (date + 1) * day) as Bc by lia.
  assert (date * day <= current_time + duration < (date + 1) * day) as Be by lia.
  unfold AppointmentViewSet._is_staff_available.
  assert (exists_ (BookingManager.covering_schedules db staff current_time
                     (current_time + duration)) = true) as ->.
  { apply exists__true. exists schedule. unfold BookingManager.covering_schedules.
    apply filter_In. split; [exact Hin|].
    rewrite (date_of_unique _ _ Bc), (time_of_on_date _ _ Bc), (time_of_on_date _ _ Be).
    rewrite !andb_true_iff, !Z.eqb_eq, Z.leb_le, Z.geb_le. fold date. lia. }
  cbn [negb]. f_equal. unfold BookingManager.overlapping_active.
  rewrite exists_filter_existsb, existsb_filter. apply existsb_ext_in.
  intros r Hr.
  destruct (Z.eqb_spec (as_staff r) staff) as [Es|Es]; cbn [andb]; [|reflexivity].
  destruct (appointment__status__in db ACTIVE r) eqn:Ea;
    [|now rewrite !andb_false_r].
  rewrite !andb_true_r.
  destruct (Z.ltb_spec (as_start_time r) (current_time + duration)) as [Hl|Hl];
    cbn [andb]; [|now rewrite andb_false_r].
  destruct (Z.gtb_spec (as_end_time r) current_time) as [Hg|Hg];
    [|now rewrite andb_false_r].
  rewrite andb_true_r. symmetry. apply Z.eqb_eq.
  apply (starts_on_the_date date r current_time (current_time + duration));
    [now apply Hrows | lia | lia | exact Hl | lia].
Qed.

Lemma calculate_loop_is_slots_loop db staff schedule duration :
  In schedule (schedules db) ->
  schedule_staff schedule = staff ->
  0 <= schedule_start_time schedule -> schedule_end_time schedule < day ->
  0 <= duration ->
  (forall r, In r (appointment_services db) -> as_staff r = staff ->
             appointment__status__in db ACTIVE r = true -> ends_by_midnight r) ->
  forall fuel current_time,
    combine (schedule_date schedule) (schedule_start_time schedule) <= current_time ->
    AppointmentViewSet.calculate_loop fuel db staff duration
      (combine (schedule_date schedule) (schedule_end_time schedule)) current_time
    = BookingManager.slots_loop fuel
        (filter (fun r => (as_staff r =? staff)
                          && (date_of (as_start_time r) =? schedule_date schedule)
                          && appointment__status__in db ACTIVE r)
                (appointment_services db))
        duration (combine (schedule_date schedule) (schedule_end_time schedule))
        current_time.
Proof.
  intros Hin Hst H0 H1 Hd Hrows. pose proof SLOT_STEP_pos as Hp.
  induction fuel as [|fuel IH]; intros c Hc; [reflexivity|].
  cbn [AppointmentViewSet.calculate_loop BookingManager.slots_loop].
  destruct (Z.leb_spec (c + duration)
              (combine (schedule_date schedule) (schedule_end_time schedule)))
    as [Hle|Hle]; [|reflexivity].
  rewrite (available_in_schedule db staff schedule duration c Hin Hst H0 H1 Hd Hrows
             Hc Hle).
  cbv zeta. f_equal. apply IH. lia.
Qed.

(** X24. The [available_slots] action of [AppointmentViewSet] and
    [BookingManager.get_available_slots] walk the first schedule of the
    staff member on the date with two different tests, the availability
    test of the view and the overlap with the active rows that start on
    the date.  When the schedules hold times of day, the duration of the
    service is not negative and no active row of the staff member runs
    past the midnight that follows its start, the two list the same slots
    in the same order. *)
Theorem available_slots_is_get_available_slots :
  forall (db : Store) (staff service_pk date : Z) (service : Service),
    schedule_times_in_day db ->
    0 <= duration service ->
    (forall r, In r (appointment_services db) -> as_staff r = staff ->
               appointment__status__in db ACTIVE r = true -> ends_by_midnight r) ->
    get_service db service_pk = Some service ->
    AppointmentViewSet.available_slots staff service_pk date db
    = (db, inr (BookingManager.get_available_slots db staff date service)).
Proof.
  intros db staff service_pk date service Htimes Hd Hrows Hs.
  unfold AppointmentViewSet.available_slots, BookingManager.get_available_slots.
  rewrite Hs.
  destruct (schedules_first _) as [schedule|] eqn:Ef; [|reflexivity].
  apply min_by_In in Ef. apply filter_In in Ef. destruct Ef as [Hin Hf].
  apply andb_true_iff in Hf. rewrite !Z.eqb_eq in Hf. destruct Hf as [Hst Hdt].
  destruct (Htimes schedule Hin) as [H0 H1].
  do 2 f_equal. unfold AppointmentViewSet._calculate_available_slots,
    BookingManager.slots_from. cbv zeta.
  rewrite <- Hdt.
  apply calculate_loop_is_slots_loop; try assumption. lia.
Qed.

(** With Ada at 09:00 the two list the five later half hours of the
    morning. *)
Lemma available_slots_is_get_available_slots_witness :
  AppointmentViewSet.available_slots Scenario.staff 1 Scenario.date Scenario.db_booked
  = (Scenario.db_booked,
     inr (BookingManager.get_available_slots Scenario.db_booked Scenario.staff
            Scenario.date Scenario.haircut))
  /\ List.length (BookingManager.get_available_slots Scenario.db_booked Scenario.staff
                    Scenario.date Scenario.haircut) = 5%nat.
Proof.
  split; [|reflexivity].
  apply available_slots_is_get_available_slots.
  - intros s [<-|[]]. split; [discriminate | reflexivity].
  - discriminate.
  - intros r [<-|[]] _ _. discriminate.
  - reflexivity.
Defined.

(** ** The availability of a service over the coming days *)

(** X25. The [availability] action gives an entry list for eight dates,
    today and the seven days after it, in this order.  The entries of a
    date are the staff members for whom
    [BookingManager.get_available_slots] lists at least one slot on the
    date, in the order of the query on the staff, each with these slots: a
    staff member without schedule or without free slot has no entry. *)
Theorem availability_lists_eight_days :
  forall (now : datetime) (staff_members : list (Z * string)) (service : Service)
         (db : Store),
    map fst (ServiceViewSet.availability now staff_members service db)
    = map (fun n => date_of now + Z.of_nat n) (seq 0 8)
    /\ List.length (ServiceViewSet.availability now staff_members service db) = 8%nat
    /\ forall (date : Z) (entries : list ServiceViewSet.StaffAvailability),
         In (date, entries) (ServiceViewSet.availability now staff_members service db) ->
         date_of now <= date <= date_of now + 7
         /\ entries
            = map (fun staff =>
                     ServiceViewSet.mkStaffAvailability (fst staff) (snd staff)
                       (BookingManager.get_available_slots db (fst staff) date service))
                (filter (fun staff =>
                           exists_ (BookingManager.get_available_slots db (fst staff)
                                      date service))
                        staff_members).
Proof.
  intros now staff_members service db. unfold ServiceViewSet.availability.
  split; [|split].
  - rewrite map_map. reflexivity.
  - rewrite length_map. reflexivity.
  - intros date entries Hin. apply in_map_iff in Hin.
    destruct Hin as (n & Heq & Hn). injection Heq as <- <-.
    apply in_seq in Hn. split; [lia|].
    generalize (date_of now + Z.of_nat n). intros date.
    induction staff_members as [|staff rest IH]; [reflexivity|].
    cbn [flat_map filter]. rewrite IH.
    destruct (schedules_first _) as [schedule|] eqn:Ef.
    + rewrite (service_slots_of_first_schedule _ _ _ service _ Ef).
      destruct (exists_ (BookingManager.get_available_slots db (fst staff) date
                           service)); reflexivity.
    + assert (BookingManager.get_available_slots db (fst staff) date service = [])
        as ->; [|reflexivity].
      unfold BookingManager.get_available_slots. now rewrite Ef.
Qed.

(** ** What a failed request of the appointment serializer leaves *)

Lemma AppointmentService_objects_create_fails now appointment service staff
    start_time end_time price db db' e :
  AppointmentService_objects_create now appointment service staff start_time
    end_time price db = (db', inl e) ->
  db' = db.
Proof.
  unfold AppointmentService_objects_create, AppointmentService_save, bind.
  destruct (AppointmentService_clean _ _ _ _) as [db1 [e1|[]]] eqn:E.
  - apply clean_fails_unchanged in E. now intros [= <- _].
  - destruct (AppointmentService_clean now None _ db); discriminate.
Qed.

Lemma create_services_outcome now appointment services_data :
  forall db db' out,
    AppointmentSerializer.create_services now appointment services_data db
    = (db', out) ->
    exists k : nat,
      (k <= List.length services_data)%nat
      /\ appointment_services db'
         = appointment_services db
           ++ created_rows appointment (next_appointment_service_id db)
                (firstn k services_data)
      /\ appointments db' = appointments db
      /\ match out with
         | inr _ => k = List.length services_data
         | inl _ => (k < List.length services_data)%nat
         end.
Proof.
  induction services_data as [|sd rest IH]; intros db db' out.
  - cbn [AppointmentSerializer.create_services]. unfold ret. intros [= <- <-].
    exists 0%nat. cbn [firstn created_rows List.length]. rewrite app_nil_r.
    repeat split; lia.
  - cbn [AppointmentSerializer.create_services]. unfold bind at 1.
    destruct (AppointmentService_objects_create _ _ _ _ _ _ _ db)
      as [db1 [e|r]] eqn:E.
    + apply AppointmentService_objects_create_fails in E. subst db1.
      intros [= <- <-]. exists 0%nat. cbn [firstn created_rows List.length].
      rewrite app_nil_r. repeat split; lia.
    + apply AppointmentService_objects_create_ok in E. destruct E as [-> ->].
      intros H. apply IH in H. destruct H as (k & Hk & Hrows & Happ & Hout).
      cbn [with_appointment_services appointment_services appointments
           next_appointment_service_id] in Hrows, Happ.
      exists (S k). cbn [firstn created_rows List.length].
      split; [lia|]. split; [rewrite Hrows, <- app_assoc; reflexivity|].
      split; [exact Happ|]. destruct out; lia.
Qed.

(** X26. The serializer writes outside any transaction.  When [create]
    fails, the appointment has been inserted, with a total price of 0 and
    the services that precede the one refused.  When [update] fails on a
    request that carries services, the former rows of the appointment
    have been deleted and the services that precede the one refused take
    their place, while the stored appointment, its total price included,
    is as it was. *)
Theorem serializer_failure_keeps_its_writes :
  forall (now : datetime) (db db' : Store) (e : exn)
         (services_data : list ServiceData),
    (forall (business : Z) (client_name client_phone : string)
            (notes : option string),
       AppointmentSerializer.create now business client_name client_phone notes
         services_data db = (db', inl e) ->
       exists k : nat,
         (k < List.length services_data)%nat
         /\ appointments db'
            = appointments db
              ++ [mkAppointment (next_appointment_id db) business client_name
                    client_phone PENDING notes 0]
         /\ appointment_services db'
            = appointment_services db
              ++ created_rows (next_appointment_id db)
                   (next_appointment_service_id db) (firstn k services_data))
    /\ (forall (instance : Appointment) (data : UpdateData),
          ud_services data = Some services_data ->
          AppointmentSerializer.update now instance data db = (db', inl e) ->
          exists k : nat,
            (k < List.length services_data)%nat
            /\ appointments db' = appointments db
            /\ appointment_services db'
               = filter (fun r => negb (as_appointment r =? appointment_id instance))
                   (appointment_services db)
                 ++ created_rows (appointment_id instance)
                      (next_appointment_service_id db) (firstn k services_data)).
Proof.
  intros now db db' e services_data. split.
  - intros business cn cp notes. unfold AppointmentSerializer.create.
    rewrite (bind_inr _ _ _ _ _
               (Appointment_objects_create_eq business cn cp PENDING notes db)).
    set (a0 := mkAppointment (next_appointment_id db) business cn cp PENDING notes 0).
    change (appointment_id a0) with (next_appointment_id db).
    unfold bind at 1.
    destruct (AppointmentSerializer.create_services now (next_appointment_id db)
                services_data _) as [db2 out] eqn:E.
    apply create_services_outcome in E. destruct E as (k & _ & Hrows & Happ & Hout).
    cbn [with_appointments appointment_services appointments
         next_appointment_service_id] in Hrows, Happ.
    destruct out as [e'|[]].
    + intros [= <- <-]. exists k. split; [exact Hout|]. split; assumption.
    + unfold bind at 1, get, Appointment_save. discriminate.
  - intros instance data Hs. unfold AppointmentSerializer.update. rewrite Hs.
    set (i := AppointmentSerializer.set_attributes instance data).
    change (appointment_id i) with (appointment_id instance).
    unfold bind at 1. unfold bind at 1. unfold bind at 1.
    destruct (AppointmentSerializer.create_services now (appointment_id instance)
                services_data (without_appointment db (appointment_id instance)))
      as [db2 out] eqn:E.
    apply create_services_outcome in E. destruct E as (k & _ & Hrows & Happ & Hout).
    cbn [without_appointment with_appointment_services appointment_services
         appointments next_appointment_service_id] in Hrows, Happ.
    destruct out as [e'|[]].
    + intros [= <- <-]. exists k. split; [exact Hout|]. split; assumption.
    + unfold bind at 1, get, ret, Appointment_save. discriminate.
Qed.

(** Ada's appointment is given two services, the second of which starts
    before the present time: the update fails, her former row is gone and
    the first service is in its place, and her appointment still has the
    total price it had. *)
Lemma serializer_failure_keeps_its_writes_witness :
  exists (db' : Store) (e : exn),
    AppointmentSerializer.update Scenario.now Scenario.ada
      (mkUpdateData None None None None
         (Some [mkServiceData Scenario.haircut Scenario.staff (Scenario.at_ 10 0)
                  (Scenario.at_ 10 30) 5000;
                mkServiceData Scenario.haircut Scenario.staff (Scenario.at_ 7 0)
                  (Scenario.at_ 7 30) 5000]))
      Scenario.db_booked = (db', inl e)
    /\ appointments db' = [Scenario.ada]
    /\ exists k : nat,
         (k < 2)%nat
         /\ appointment_services db'
            = created_rows 1 2
                (firstn k
                   [mkServiceData Scenario.haircut Scenario.staff (Scenario.at_ 10 0)
                      (Scenario.at_ 10 30) 5000;
                    mkServiceData Scenario.haircut Scenario.staff (Scenario.at_ 7 0)
                      (Scenario.at_ 7 30) 5000]).
Proof.
  destruct (AppointmentSerializer.update Scenario.now Scenario.ada
              (mkUpdateData None None None None
                 (Some [mkServiceData Scenario.haircut Scenario.staff
                          (Scenario.at_ 10 0) (Scenario.at_ 10 30) 5000;
                        mkServiceData Scenario.haircut Scenario.staff
                          (Scenario.at_ 7 0) (Scenario.at_ 7 30) 5000]))
              Scenario.db_booked) as [db' [e|a]] eqn:E; [|discriminate E].
  exists db', e. split; [reflexivity|].
  destruct (proj2 (serializer_failure_keeps_its_writes Scenario.now
                     Scenario.db_booked db' e
                     [mkServiceData Scenario.haircut Scenario.staff
                        (Scenario.at_ 10 0) (Scenario.at_ 10 30) 5000;
                      mkServiceData Scenario.haircut Scenario.staff
                        (Scenario.at_ 7 0) (Scenario.at_ 7 30) 5000])
              Scenario.ada
              (mkUpdateData None None None None
                 (Some [mkServiceData Scenario.haircut Scenario.staff
                          (Scenario.at_ 10 0) (Scenario.at_ 10 30) 5000;
                        mkServiceData Scenario.haircut Scenario.staff
                          (Scenario.at_ 7 0) (Scenario.at_ 7 30) 5000]))
              eq_refl E) as (k & Hk & Happ & Hrows).
  split; [exact Happ|]. exists k. split; [exact Hk | exact Hrows].
Defined.
